(** * vscode-secure-notes: the encrypted note store and its sync merge

    A shallow embedding of [src/core/Encryption.ts] (EncryptionService and
    SyncService) and of [src/core/NotesManager.ts] (NotesManager), with the
    properties of the specification stated over it; and of the callers of
    these in [src/commands/UserCommands.ts] (the login and logout commands),
    [src/ui/NoteEditor.ts] (saveNote) and [src/ui/NotesTreeProvider.ts]
    (getChildren), and of [src/utils/colorUtils.ts], with further properties
    of the code.

    Conventions.
    - The process state the TypeScript code reads and writes (the statics of
      EncryptionService, the files under the storage path, the fields of the
      SyncService instance, the messages shown) is one record, [World];
      every method is a function in the monad [M], which threads the world
      and carries a thrown [Error].  A throw keeps the writes made before it.
    - [Date.now()] and the random salt of [CryptoJS.AES.encrypt] are read from
      the host: the n-th reading is [Date_clock n], the n-th salt [salt_source n].
    - A file is kept up to what [JSON.parse] makes of it ([Content]).
    - [fs.writeFileSync] is taken to succeed. *)

From Stdlib Require Import ZArith String Ascii List Bool Lia.
From stdpp Require Import base option gmap strings pretty.
Import ListNotations.

Local Open Scope Z_scope.
Local Open Scope string_scope.
Local Open Scope list_scope.

(** ** Errors and results *)

(** The [Error] values the code throws, one constructor for each message. *)
Inductive Error : Type :=
  | NoPasswordSet          (* EncryptionService: '未设置加密密码' *)
  | DecryptFailed          (* '解密失败，密码可能错误' *)
  | MalformedUtf8          (* CryptoJS: 'Malformed UTF-8 data' *)
  | PasswordRequired       (* NotesManager: '请先设置加密密码' *)
  | FolderExists           (* '文件夹已存在' *)
  | DuplicateTitle (folder title : string)
                           (* '文件夹"..."下已存在同名笔记"..."' *)
  | SyntaxError            (* JSON.parse *)
  | TypeError              (* a property read of undefined *)
  | FileNotFound           (* fs.readFileSync: ENOENT *)
  | FetchFailed            (* fetch rejects *)
  | WebDAVConfigIncomplete (* 'WebDAV 配置不完整' *)
  | WebDAVUploadFailed (statusText : string)
  | WebDAVDownloadFailed (statusText : string)
  | GitHubConfigIncomplete (* 'GitHub 配置不完整' *)
  | GitHubTokenMissing     (* 'GitHub Token 未找到' *)
  | GitHubUploadFailed
  | GitHubDownloadFailed (statusText : string).

Inductive Result (A : Type) : Type :=
  | Ok (a : A)
  | Throw (e : Error).
Arguments Ok {A} a.
Arguments Throw {A} e.

(** ** The host: CryptoJS, the clock and the random source *)

(** [AES_encrypt salt text password] is
    [CryptoJS.AES.encrypt(text, password).toString()] with the salt it draws
    made an argument; [AES_decrypt_utf8 c password] is
    [CryptoJS.AES.decrypt(c, password).toString(CryptoJS.enc.Utf8)], [None]
    when [toString] throws on bytes that are not UTF-8.  [AES_roundtrip] is the
    library's contract. *)
Class Host : Type := {
  Salt : Type;
  AES_encrypt : Salt -> string -> string -> string;
  AES_decrypt_utf8 : string -> string -> option string;
  AES_roundtrip : forall salt text password,
    AES_decrypt_utf8 (AES_encrypt salt text password) password = Some text;
  Date_clock : nat -> Z;
  salt_source : nat -> Salt
}.

(** ** The data model ([src/models/Note.ts]) *)

(** Modelled from the spec: the interfaces of [models/Note.ts], which is not
    among the sources; the fields are those of spec section 3 and 6 and those
    the code reads.  [folder] of a stored note is optional since the readers
    guard it with [encrypted.folder || 'default']. *)
Module Folder.
Record t : Type := mk { name : string; createdAt : Z }.
End Folder.

Module Note.
Record t : Type := mk {
  id : string; folder : string; title : string; content : string;
  createdAt : Z; updatedAt : Z }.
End Note.

Module EncryptedNote.
Record t : Type := mk {
  id : string; folder : option string;
  encryptedTitle : string; encryptedContent : string;
  createdAt : Z; updatedAt : Z }.
End EncryptedNote.

Module EncryptedStorage.
Record t : Type := mk {
  folders : list Folder.t; notes : list EncryptedNote.t }.
End EncryptedStorage.

(** What a file (or a remote blob) holds, up to [JSON.parse]: text that
    [JSON.parse] rejects, text that parses to an array (the legacy format), or
    text that parses to a document object.  [JSON.stringify] of a document is
    text of the third kind, for that document.  Text that parses to anything
    else (a number, an object without [folders] or [notes]) is not modelled:
    the code casts what it parsed to [EncryptedStorage] unchecked. *)
Inductive Content : Type :=
  | Unparseable (raw : string)
  | JsonArray (arr : list EncryptedNote.t)
  | JsonObject (doc : EncryptedStorage.t).

(** ** The session (statics of EncryptionService) *)

Record Session : Type := mkSession {
  currentUser : option string;
  userPasswords : gmap string string }.

(** ** SyncService: provider, configuration, HTTP *)

Inductive SyncProvider : Type := ProviderNone | WebDAV | GitHub | Custom.

Record SyncConfig : Type := mkSyncConfig {
  provider : SyncProvider;
  url : option string;
  username : option string;
  password : option string;
  token : option string }.

(** A response, up to what the code reads of it: [ok], [status], [statusText],
    [text()] and, of [json()], the fields [sha] and [content] (the latter
    base64-decoded); [json = None] when [json()] rejects. *)
Record GitHubJson : Type := mkGitHubJson {
  sha : option string;
  content : option Content }.

Record Response : Type := mkResponse {
  ok : bool; status : Z; statusText : string;
  text : Content; json : option GitHubJson }.

Inductive FetchOutcome : Type :=
  | Rejected
  | Responded (r : Response).

Inductive Message : Type :=
  | ConsoleError (what : string)
  | ShowErrorMessage (what : string) (error : option Error)
  | ShowWarningMessage (what : string)
  | ShowInformationMessage (what : string).

(** ** The world *)

Record World : Type := mkWorld {
  session : Session;
  storagePath : string;
  files : gmap string Content;
  config : SyncConfig;
  syncInProgress : bool;
  secrets : gmap string string;
  network : list FetchOutcome;
  ticks : nat;
  draws : nat;
  shown : list Message }.

Definition set_session (s : Session) (w : World) : World :=
  mkWorld s (storagePath w) (files w) (config w) (syncInProgress w)
          (secrets w) (network w) (ticks w) (draws w) (shown w).
Definition set_files (f : gmap string Content) (w : World) : World :=
  mkWorld (session w) (storagePath w) f (config w) (syncInProgress w)
          (secrets w) (network w) (ticks w) (draws w) (shown w).
Definition set_syncInProgress (b : bool) (w : World) : World :=
  mkWorld (session w) (storagePath w) (files w) (config w) b
          (secrets w) (network w) (ticks w) (draws w) (shown w).
Definition set_network (n : list FetchOutcome) (w : World) : World :=
  mkWorld (session w) (storagePath w) (files w) (config w) (syncInProgress w)
          (secrets w) n (ticks w) (draws w) (shown w).
Definition set_ticks (n : nat) (w : World) : World :=
  mkWorld (session w) (storagePath w) (files w) (config w) (syncInProgress w)
          (secrets w) (network w) n (draws w) (shown w).
Definition set_draws (n : nat) (w : World) : World :=
  mkWorld (session w) (storagePath w) (files w) (config w) (syncInProgress w)
          (secrets w) (network w) (ticks w) n (shown w).
Definition set_shown (l : list Message) (w : World) : World :=
  mkWorld (session w) (storagePath w) (files w) (config w) (syncInProgress w)
          (secrets w) (network w) (ticks w) (draws w) l.

(** ** The monad of methods *)

Definition M (A : Type) : Type := World -> Result A * World.

Definition ret {A} (a : A) : M A := fun w => (Ok a, w).
Definition throw {A} (e : Error) : M A := fun w => (Throw e, w).
Definition bind {A B} (m : M A) (k : A -> M B) : M B :=
  fun w => match m w with
           | (Ok a, w') => k a w'
           | (Throw e, w') => (Throw e, w')
           end.
(** [try { m } catch (error) { h error }] *)
Definition try_catch {A} (m : M A) (h : Error -> M A) : M A :=
  fun w => match m w with
           | (Ok a, w') => (Ok a, w')
           | (Throw e, w') => h e w'
           end.
(** [try { m } finally { f }], for an [f] that does not throw *)
Definition try_finally {A} (m : M A) (f : World -> World) : M A :=
  fun w => let (r, w') := m w in (r, f w').

Definition get {A} (f : World -> A) : M A := fun w => (Ok (f w), w).
Definition modify (f : World -> World) : M unit := fun w => (Ok tt, f w).

Notation "'let*' x ':=' m 'in' k" := (bind m (fun x => k))
  (at level 10, x name, m at level 100, k at level 200).
Notation "m ';;' k" := (bind m (fun _ => k))
  (at level 100, k at level 200, right associativity).

Definition show (m : Message) : M unit :=
  modify (fun w => set_shown (shown w ++ [m]) w).

(** JavaScript truthiness of a string. *)
Definition truthy (s : string) : bool := negb (s =? "").
Definition truthy_opt (o : option string) : bool :=
  match o with Some s => truthy s | None => false end.

Section WithHost.
Context `{Host}.

(** [Date.now()] *)
Definition Date_now : M Z :=
  fun w => (Ok (Date_clock (ticks w)), set_ticks (S (ticks w)) w).

Definition draw_salt : M Salt :=
  fun w => (Ok (salt_source (draws w)), set_draws (S (draws w)) w).
End WithHost.

(** ** EncryptionService *)

Module EncryptionService.
Section WithHost.
Context `{Host}.

Definition setCurrentUser (username password : string) : M unit :=
  modify (fun w =>
    set_session
      (mkSession (Some username)
                 (<[username := password]> (userPasswords (session w)))) w).

Definition getCurrentUser : M (option string) :=
  get (fun w => currentUser (session w)).

(** [this.currentUser !== null && this.userPasswords.has(this.currentUser)] *)
Definition hasPassword : M bool :=
  get (fun w =>
    match currentUser (session w) with
    | Some u => bool_decide (is_Some (userPasswords (session w) !! u))
    | None => false
    end).

(** The guard of [encrypt] and [decrypt],
    [!this.currentUser || !this.userPasswords.has(this.currentUser)],
    with the password read after it. *)
Definition activePassword : M string :=
  fun w =>
    match currentUser (session w) with
    | Some u =>
        if truthy u then
          match userPasswords (session w) !! u with
          | Some p => (Ok p, w)
          | None => (Throw NoPasswordSet, w)
          end
        else (Throw NoPasswordSet, w)
    | None => (Throw NoPasswordSet, w)
    end.

Definition encrypt (text : string) : M string :=
  let* password := activePassword in
  let* salt := draw_salt in
  ret (AES_encrypt salt text password).

Definition decrypt (encryptedText : string) : M string :=
  let* password := activePassword in
  match AES_decrypt_utf8 encryptedText password with
  | None => throw MalformedUtf8
  | Some decrypted =>
      if truthy decrypted then ret decrypted else throw DecryptFailed
  end.

Definition logout : M unit :=
  modify (fun w =>
    match currentUser (session w) with
    | Some u =>
        if truthy u then
          set_session
            (mkSession None (delete u (userPasswords (session w)))) w
        else w
    | None => w
    end).
End WithHost.
End EncryptionService.

(** ** NotesManager *)

Module NotesManager.
Section WithHost.
Context `{Host}.

Definition emptyStorage : EncryptedStorage.t := EncryptedStorage.mk [] [].

(** [path.join(this.storagePath, `notes_${currentUser}.encrypted`)] with
    [currentUser = EncryptionService.getCurrentUser() || 'default']. *)
Definition getStorageFile : M string :=
  let* user := EncryptionService.getCurrentUser in
  let currentUser := if truthy_opt user then default "" user else "default" in
  let* dir := get storagePath in
  ret (dir +:+ "/notes_" +:+ currentUser +:+ ".encrypted").

(** The [try] block returns from inside ([Some]) or falls through ([None]);
    the [catch] logs and falls through; after it the empty document is
    returned. *)
Definition loadStorage : M EncryptedStorage.t :=
  let* returned :=
    try_catch
      (let* storageFile := getStorageFile in
       let* fs := get files in
       match fs !! storageFile with
       | Some data =>
           match data with
           | Unparseable _ => throw SyntaxError
           | JsonArray parsed => ret (Some (EncryptedStorage.mk [] parsed))
           | JsonObject parsed => ret (Some parsed)
           end
       | None => ret None
       end)
      (fun error => show (ConsoleError "load failed") ;; ret None) in
  match returned with
  | Some storage => ret storage
  | None => ret emptyStorage
  end.

Definition saveStorage (storage : EncryptedStorage.t) : M unit :=
  let* storageFile := getStorageFile in
  modify (fun w => set_files (<[storageFile := JsonObject storage]> (files w)) w).

Definition getFolders : M (list Folder.t) :=
  let* storage := loadStorage in
  ret (EncryptedStorage.folders storage).

Definition createFolder (name : string) : M unit :=
  let* storage := loadStorage in
  if existsb (fun f => Folder.name f =? name) (EncryptedStorage.folders storage)
  then throw FolderExists
  else
    let* now := Date_now in
    saveStorage
      (EncryptedStorage.mk
         (EncryptedStorage.folders storage ++ [Folder.mk name now])
         (EncryptedStorage.notes storage)).

(** [n.folder !== name] *)
Definition folder_differs (name : string) (n : EncryptedNote.t) : bool :=
  match EncryptedNote.folder n with
  | Some f => negb (f =? name)
  | None => true
  end.

Definition deleteFolder (name : string) : M unit :=
  let* storage := loadStorage in
  saveStorage
    (EncryptedStorage.mk
       (List.filter (fun f => negb (Folder.name f =? name))
                    (EncryptedStorage.folders storage))
       (List.filter (folder_differs name) (EncryptedStorage.notes storage))).

(** [encrypted.folder || 'default'] *)
Definition folderOrDefault (encrypted : EncryptedNote.t) : string :=
  match EncryptedNote.folder encrypted with
  | Some f => if truthy f then f else "default"
  | None => "default"
  end.

(** The object literal both readers build; its fields are evaluated in
    order, the title before the content. *)
Definition decryptNote (encrypted : EncryptedNote.t) : M Note.t :=
  let* title := EncryptionService.decrypt (EncryptedNote.encryptedTitle encrypted) in
  let* content := EncryptionService.decrypt (EncryptedNote.encryptedContent encrypted) in
  ret (Note.mk (EncryptedNote.id encrypted) (folderOrDefault encrypted)
               title content
               (EncryptedNote.createdAt encrypted)
               (EncryptedNote.updatedAt encrypted)).

(** The [for ... of] loop of [getAllNotes]. *)
Fixpoint decryptEach (encryptedNotes : list EncryptedNote.t)
         (decryptedNotes : list Note.t) : M (list Note.t) :=
  match encryptedNotes with
  | [] => ret decryptedNotes
  | encrypted :: rest =>
      let* pushed :=
        try_catch
          (let* note := decryptNote encrypted in
           ret (decryptedNotes ++ [note]))
          (fun error =>
             show (ConsoleError "decrypt failed") ;; ret decryptedNotes) in
      decryptEach rest pushed
  end.

Definition getAllNotes : M (list Note.t) :=
  let* unlocked := EncryptionService.hasPassword in
  if negb unlocked then ret []
  else
    let* storage := loadStorage in
    decryptEach (EncryptedStorage.notes storage) [].

Definition getNote (id : string) : M (option Note.t) :=
  let* unlocked := EncryptionService.hasPassword in
  if negb unlocked then ret None
  else
    let* storage := loadStorage in
    match List.find (fun n => EncryptedNote.id n =? id)
                    (EncryptedStorage.notes storage) with
    | None => ret None
    | Some encrypted =>
        try_catch
          (let* note := decryptNote encrypted in ret (Some note))
          (fun error => throw DecryptFailed)
    end.

(** [folder] is the third argument as the body sees it: ['default'] when the
    caller leaves it out. *)
Definition createNote (title content folder : string) : M Note.t :=
  let* unlocked := EncryptionService.hasPassword in
  if negb unlocked then throw PasswordRequired
  else
    let* existingNotes := getAllNotes in
    match List.find (fun n => (Note.folder n =? folder) && (Note.title n =? title))
                    existingNotes with
    | Some duplicate => throw (DuplicateTitle folder title)
    | None =>
        let* t_id := Date_now in
        let* t_created := Date_now in
        let* t_updated := Date_now in
        let note := Note.mk (pretty t_id) folder title content t_created t_updated in
        let* encryptedTitle := EncryptionService.encrypt title in
        let* encryptedContent := EncryptionService.encrypt content in
        let encryptedNote :=
          EncryptedNote.mk (Note.id note) (Some folder)
                           encryptedTitle encryptedContent
                           (Note.createdAt note) (Note.updatedAt note) in
        let* storage := loadStorage in
        saveStorage
          (EncryptedStorage.mk
             (EncryptedStorage.folders storage)
             (EncryptedStorage.notes storage ++ [encryptedNote])) ;;
        ret note
    end.

(** The assignments to the fields of the note [find] returned: the first
    note with that id, changed in place. *)
Fixpoint assignFirst (id : string) (f : EncryptedNote.t -> EncryptedNote.t)
         (notes : list EncryptedNote.t) : list EncryptedNote.t :=
  match notes with
  | [] => []
  | n :: rest =>
      if EncryptedNote.id n =? id then f n :: rest
      else n :: assignFirst id f rest
  end.

Definition updateNote (id title content : string) : M unit :=
  let* unlocked := EncryptionService.hasPassword in
  if negb unlocked then throw PasswordRequired
  else
    let* storage := loadStorage in
    match List.find (fun n => EncryptedNote.id n =? id)
                    (EncryptedStorage.notes storage) with
    | None => ret tt
    | Some note =>
        let* encryptedTitle := EncryptionService.encrypt title in
        let* encryptedContent := EncryptionService.encrypt content in
        let* now := Date_now in
        saveStorage
          (EncryptedStorage.mk
             (EncryptedStorage.folders storage)
             (assignFirst id
                (fun n => EncryptedNote.mk
                            (EncryptedNote.id n) (EncryptedNote.folder n)
                            encryptedTitle encryptedContent
                            (EncryptedNote.createdAt n) now)
                (EncryptedStorage.notes storage)))
    end.

Definition deleteNote (id : string) : M unit :=
  let* storage := loadStorage in
  saveStorage
    (EncryptedStorage.mk
       (EncryptedStorage.folders storage)
       (List.filter (fun n => negb (EncryptedNote.id n =? id))
                    (EncryptedStorage.notes storage))).
End WithHost.
End NotesManager.

(** ** Insertion-ordered containers of JavaScript *)

(** A JavaScript [Map] keeps its keys in the order of their first insertion;
    [set] on a key that is present replaces the value where it stands. *)
Module JsMap.
Section Values.
Context {V : Type}.

Definition t : Type := list (string * V).

Fixpoint get (k : string) (m : t) : option V :=
  match m with
  | [] => None
  | (k', v) :: rest => if k' =? k then Some v else get k rest
  end.

Fixpoint set (k : string) (v : V) (m : t) : t :=
  match m with
  | [] => [(k, v)]
  | (k', v') :: rest =>
      if k' =? k then (k', v) :: rest else (k', v') :: set k v rest
  end.

Definition keys (m : t) : list string := List.map fst m.
Definition values (m : t) : list V := List.map snd m.
End Values.
Arguments t : clear implicits.
End JsMap.

(** A JavaScript [Set] of strings: [add] of a member changes nothing. *)
Module JsSet.
Definition t : Type := list string.

Definition has (x : string) (s : t) : bool := existsb (String.eqb x) s.
Definition add (x : string) (s : t) : t := if has x s then s else s ++ [x].
End JsSet.

(** ** SyncService *)

Module SyncService.
Section WithHost.
Context `{Host}.

(** [await fetch(...)]: the next outcome the network holds. *)
Definition fetch : M Response :=
  fun w =>
    match network w with
    | [] => (Throw FetchFailed, w)
    | Rejected :: rest => (Throw FetchFailed, set_network rest w)
    | Responded r :: rest => (Ok r, set_network rest w)
    end.

(** [fs.readFileSync(path, 'utf8')] *)
Definition readFileSync (path : string) : M Content :=
  let* fs := get files in
  match fs !! path with
  | Some data => ret data
  | None => throw FileNotFound
  end.

Definition writeFileSync (path : string) (data : Content) : M unit :=
  modify (fun w => set_files (<[path := data]> (files w)) w).

(** [JSON.parse(text)] read as an [EncryptedStorage]; the [TypeError] of an
    array is the one [data.notes.forEach] raises. *)
Definition JSON_parse (text : Content) : M Content :=
  match text with
  | Unparseable _ => throw SyntaxError
  | parsed => ret parsed
  end.

Definition notesOf (data : Content) : M (list EncryptedNote.t) :=
  match data with
  | JsonObject doc => ret (EncryptedStorage.notes doc)
  | _ => throw TypeError
  end.

Definition foldersOf (data : Content) : M (list Folder.t) :=
  match data with
  | JsonObject doc => ret (EncryptedStorage.folders doc)
  | _ => throw TypeError
  end.

(** Truthiness of a file's text: only the empty text is falsy. *)
Definition truthy_content (c : Content) : bool :=
  match c with
  | Unparseable raw => truthy raw
  | _ => true
  end.

Definition fileNameOf (currentUser : string) : string :=
  "notes_" +:+ currentUser +:+ ".encrypted".

Definition uploadToWebDAV (fileName : string) (content : Content) : M bool :=
  let* cfg := get config in
  if negb (truthy_opt (url cfg)) || negb (truthy_opt (username cfg))
     || negb (truthy_opt (password cfg))
  then throw WebDAVConfigIncomplete
  else
    let* response := fetch in
    if ok response then
      show (ShowInformationMessage "uploaded to cloud") ;; ret true
    else throw (WebDAVUploadFailed (statusText response)).

Definition downloadFromWebDAV (fileName : string) : M (option Content) :=
  let* cfg := get config in
  if negb (truthy_opt (url cfg)) || negb (truthy_opt (username cfg))
     || negb (truthy_opt (password cfg))
  then throw WebDAVConfigIncomplete
  else
    let* response := fetch in
    if ok response then
      show (ShowInformationMessage "downloaded from cloud") ;;
      ret (Some (text response))
    else if (status response =? 404)%Z then ret None
    else throw (WebDAVDownloadFailed (statusText response)).

Definition uploadToGitHub (fileName : string) (content : Content) : M bool :=
  let* cfg := get config in
  if negb (truthy_opt (url cfg)) || negb (truthy_opt (token cfg))
  then throw GitHubConfigIncomplete
  else
    let* stored := get secrets in
    if negb (truthy_opt (stored !! "sync.token")) then throw GitHubTokenMissing
    else
      let* sha :=
        try_catch
          (let* getResponse := fetch in
           if ok getResponse then
             match json getResponse with
             | Some data => ret (sha data)
             | None => throw SyntaxError
             end
           else ret None)
          (fun error => ret None) in
      let* response := fetch in
      if ok response then
        show (ShowInformationMessage "uploaded to GitHub") ;; ret true
      else throw GitHubUploadFailed.

Definition downloadFromGitHub (fileName : string) : M (option Content) :=
  let* cfg := get config in
  if negb (truthy_opt (url cfg)) || negb (truthy_opt (token cfg))
  then throw GitHubConfigIncomplete
  else
    let* stored := get secrets in
    if negb (truthy_opt (stored !! "sync.token")) then throw GitHubTokenMissing
    else
      let* response := fetch in
      if ok response then
        match json response with
        | None => throw SyntaxError
        | Some data =>
            match content data with
            | None => throw TypeError
            | Some decoded =>
                show (ShowInformationMessage "downloaded from GitHub") ;;
                ret (Some decoded)
            end
        end
      else if (status response =? 404)%Z then ret None
      else throw (GitHubDownloadFailed (statusText response)).

Definition uploadToCustom (fileName : string) (content : Content) : M bool :=
  show (ShowInformationMessage "custom sync under development") ;;
  ret false.

Definition downloadFromCustom (fileName : string) : M (option Content) :=
  ret None.

(** The [try] block of [uploadToCloud]. *)
Definition uploadAttempt (localFilePath currentUser : string) : M bool :=
  let* cfg := get config in
  let* fileContent := readFileSync localFilePath in
  let fileName := fileNameOf currentUser in
  match provider cfg with
  | WebDAV => uploadToWebDAV fileName fileContent
  | GitHub => uploadToGitHub fileName fileContent
  | Custom => uploadToCustom fileName fileContent
  | ProviderNone => ret false
  end.

Definition uploadToCloud (localFilePath currentUser : string) : M bool :=
  let* cfg := get config in
  match provider cfg with
  | ProviderNone => ret false
  | _ =>
      let* busy := get syncInProgress in
      if busy then
        show (ShowWarningMessage "sync in progress") ;; ret false
      else
        modify (set_syncInProgress true) ;;
        try_finally
          (try_catch
             (uploadAttempt localFilePath currentUser)
             (fun error =>
                show (ShowErrorMessage "upload failed" (Some error)) ;;
                ret false))
          (set_syncInProgress false)
  end.

(** The [switch] over the provider that picks the download; it is written out
    in [downloadFromCloud] and again in [smartMerge], and leaves the content
    [null] when no case applies. *)
Definition downloadAttempt (fileName : string) : M (option Content) :=
  let* cfg := get config in
  match provider cfg with
  | WebDAV => downloadFromWebDAV fileName
  | GitHub => downloadFromGitHub fileName
  | Custom => downloadFromCustom fileName
  | ProviderNone => ret None
  end.

Definition downloadFromCloud (localFilePath currentUser : string) : M bool :=
  let* cfg := get config in
  match provider cfg with
  | ProviderNone => ret false
  | _ =>
      let* busy := get syncInProgress in
      if busy then
        show (ShowWarningMessage "sync in progress") ;; ret false
      else
        modify (set_syncInProgress true) ;;
        try_finally
          (try_catch
             (let fileName := fileNameOf currentUser in
              let* content := downloadAttempt fileName in
              match content with
              | Some c =>
                  if truthy_content c then
                    writeFileSync localFilePath c ;; ret true
                  else ret false
              | None => ret false
              end)
             (fun error =>
                show (ShowErrorMessage "download failed" (Some error)) ;;
                ret false))
          (set_syncInProgress false)
  end.

(** Step 3 of [smartMerge]: the map seeded with the local notes, then each
    cloud note set when its id is new or its [updatedAt] is later than that
    of the note the map holds. *)
Definition seedLocal (localNotes : list EncryptedNote.t)
  : JsMap.t EncryptedNote.t :=
  fold_left (fun m note => JsMap.set (EncryptedNote.id note) note m)
            localNotes [].

Definition mergeCloudNote (m : JsMap.t EncryptedNote.t)
           (cloudNote : EncryptedNote.t) : JsMap.t EncryptedNote.t :=
  match JsMap.get (EncryptedNote.id cloudNote) m with
  | None => JsMap.set (EncryptedNote.id cloudNote) cloudNote m
  | Some localNote =>
      if (EncryptedNote.updatedAt cloudNote >? EncryptedNote.updatedAt localNote)%Z
      then JsMap.set (EncryptedNote.id cloudNote) cloudNote m
      else m
  end.

Definition mergedNotesMap (localNotes cloudNotes : list EncryptedNote.t)
  : JsMap.t EncryptedNote.t :=
  fold_left mergeCloudNote cloudNotes (seedLocal localNotes).

Definition mergedNotes (localNotes cloudNotes : list EncryptedNote.t)
  : list EncryptedNote.t :=
  JsMap.values (mergedNotesMap localNotes cloudNotes).

(** Step 4: the set of the folder names of both sides. *)
Definition allFolders (localFolders cloudFolders : list Folder.t) : JsSet.t :=
  fold_left (fun s f => JsSet.add (Folder.name f) s) cloudFolders
    (fold_left (fun s f => JsSet.add (Folder.name f) s) localFolders []).

(** [Array.from(allFolders).map(name => ({ name, createdAt: Date.now() }))] *)
Fixpoint stampFolders (names : list string) : M (list Folder.t) :=
  match names with
  | [] => ret []
  | name :: rest =>
      let* now := Date_now in
      let* stamped := stampFolders rest in
      ret (Folder.mk name now :: stamped)
  end.

Definition smartMerge (localFilePath currentUser : string) : M unit :=
  try_catch
    (let fileName := fileNameOf currentUser in
     let* cloudContent := downloadAttempt fileName in
     match cloudContent with
     | Some cloudText =>
         if truthy_content cloudText then
           let* localText := readFileSync localFilePath in
           let* localData := JSON_parse localText in
           let* cloudData := JSON_parse cloudText in
           let* localNotes := notesOf localData in
           let* cloudNotes := notesOf cloudData in
           let* localFolders := foldersOf localData in
           let* cloudFolders := foldersOf cloudData in
           let* mergedFolders :=
             stampFolders (allFolders localFolders cloudFolders) in
           let mergedData :=
             EncryptedStorage.mk mergedFolders
                                 (mergedNotes localNotes cloudNotes) in
           writeFileSync localFilePath (JsonObject mergedData) ;;
           let* uploaded := uploadToCloud localFilePath currentUser in
           show (ShowInformationMessage "smart merge done")
         else
           show (ShowInformationMessage "cloud empty, uploading local") ;;
           let* uploaded := uploadToCloud localFilePath currentUser in
           ret tt
     | None =>
         show (ShowInformationMessage "cloud empty, uploading local") ;;
         let* uploaded := uploadToCloud localFilePath currentUser in
         ret tt
     end)
    (fun error => show (ShowErrorMessage "smart merge failed" (Some error))).
End WithHost.
End SyncService.

(** ** The callers of the core *)

(** [loadConfig] of SyncService: the configuration the constructor builds
    from the workspace settings.  It reads the provider (['none'] when unset),
    the url and the user name; the password and the token are not among the
    settings, and it does not read them from the secret storage. *)
Record Settings : Type := mkSettings {
  sync_provider : option SyncProvider;
  sync_url : option string;
  sync_username : option string }.

Definition loadConfig (settings : Settings) : SyncConfig :=
  mkSyncConfig (default ProviderNone (sync_provider settings))
               (sync_url settings) (sync_username settings) None None.

(** The commands of [UserCommands.ts]. *)
Module UserCommands.
Section WithHost.
Context `{Host}.

(** The path the login command tests:
    [path.join(notesManager.getStoragePath(), `notes_${username}.encrypted`)]. *)
Definition userFilePath (username : string) : M string :=
  let* dir := get storagePath in
  ret (dir +:+ "/notes_" +:+ username +:+ ".encrypted").

(** The command 'secureNotes.setPassword', one invocation of it; the answers
    of its two input boxes are the arguments ([None] for a dismissed box).
    The error thrown on an empty test decryption is caught four lines on and
    never looked at.  The 'retry' button of the final message starts the
    command again: another invocation. *)
Definition setPassword (usernameAnswer passwordAnswer : option string) : M unit :=
  if negb (truthy_opt usernameAnswer) then ret tt
  else
    let username := default "" usernameAnswer in
    let* path := userFilePath username in
    let* fs := get files in
    let userExists := bool_decide (is_Some (fs !! path)) in
    if negb (truthy_opt passwordAnswer) then ret tt
    else
      let password := default "" passwordAnswer in
      if userExists then
        try_catch
          (EncryptionService.setCurrentUser username password ;;
           let* storage := NotesManager.loadStorage in
           match EncryptedStorage.notes storage with
           | first :: _ =>
               let* testDecrypt :=
                 EncryptionService.decrypt (EncryptedNote.encryptedTitle first) in
               if negb (truthy testDecrypt) then throw DecryptFailed else ret tt
           | [] => ret tt
           end ;;
           show (ShowInformationMessage "logged in"))
          (fun error =>
             EncryptionService.logout ;;
             show (ShowErrorMessage "wrong password" None))
      else
        EncryptionService.setCurrentUser username password ;;
        show (ShowInformationMessage "new user created").

(** The command 'secureNotes.logout'. *)
Definition logout : M unit :=
  let* currentUser := EncryptionService.getCurrentUser in
  if truthy_opt currentUser then
    EncryptionService.logout ;;
    show (ShowInformationMessage "logged out")
  else ret tt.
End WithHost.
End UserCommands.

(** [saveNote] of the editor panel ([NoteEditor.ts]).  The panel's fields
    [noteId] and [folder] are arguments; the result is [noteId] as the method
    leaves it. *)
Module NoteEditorPanel.
Section WithHost.
Context `{Host}.

(** The test for another note of the same folder under the new title. *)
Definition renameClash (noteId title : string) (currentNote n : Note.t) : bool :=
  negb (Note.id n =? noteId) && (Note.folder n =? Note.folder currentNote)
  && (Note.title n =? title).

Definition saveNote (noteId : option string) (folder title content : string)
  : M (option string) :=
  try_catch
    (let* unlocked := EncryptionService.hasPassword in
     if negb unlocked then
       show (ShowErrorMessage "set the password first" None) ;; ret noteId
     else if truthy_opt noteId then
       let id := default "" noteId in
       let* currentNote := NotesManager.getNote id in
       let* refused :=
         match currentNote with
         | Some current =>
             if negb (Note.title current =? title) then
               let* allNotes := NotesManager.getAllNotes in
               match List.find (renameClash id title current) allNotes with
               | Some duplicate =>
                   show (ShowErrorMessage "title taken" None) ;; ret true
               | None => ret false
               end
             else ret false
         | None => ret false
         end in
       if (refused : bool) then ret noteId
       else
         NotesManager.updateNote id title content ;;
         show (ShowInformationMessage "note saved") ;;
         ret noteId
     else
       let* note := NotesManager.createNote title content folder in
       show (ShowInformationMessage "note created") ;;
       ret (Some (Note.id note)))
    (fun error =>
       show (ShowErrorMessage "save failed" (Some error)) ;; ret noteId).
End WithHost.
End NoteEditorPanel.

(** [getChildren] of the tree view ([NotesTreeProvider.ts]). *)
Inductive TreeItem : Type :=
  | PasswordPromptItem
  | FolderItem (label : string) (noteCount : nat)
  | NoteItem (id label : string).

Module NotesTreeProvider.
Section WithHost.
Context `{Host}.

(** [noteCountMap]: one more for the folder of each note. *)
Definition noteCountMap (notes : list Note.t) : JsMap.t nat :=
  fold_left
    (fun m note =>
       JsMap.set (Note.folder note)
                 (default 0%nat (JsMap.get (Note.folder note) m) + 1)%nat m)
    notes [].

(** [allFolderNames]: the names of the folders, then the folders of the
    notes. *)
Definition allFolderNames (folders : list Folder.t) (notes : list Note.t)
  : JsSet.t :=
  fold_left (fun s n => JsSet.add (Note.folder n) s) notes
    (fold_left (fun s f => JsSet.add (Folder.name f) s) folders []).

Definition getChildren (element : option TreeItem) : M (list TreeItem) :=
  let* unlocked := EncryptionService.hasPassword in
  if negb unlocked then
    match element with
    | None => ret [PasswordPromptItem]
    | Some _ => ret []
    end
  else
    let* notes := NotesManager.getAllNotes in
    let* folders := NotesManager.getFolders in
    match element with
    | None =>
        let counts := noteCountMap notes in
        ret (List.map
               (fun folderName =>
                  FolderItem folderName (default 0%nat (JsMap.get folderName counts)))
               (allFolderNames folders notes))
    | Some (FolderItem label _) =>
        ret (List.map (fun note => NoteItem (Note.id note) (Note.title note))
                      (List.filter (fun n => Note.folder n =? label) notes))
    | Some _ => ret []
    end.
End WithHost.
End NotesTreeProvider.

(** ** Colour utilities ([utils/colorUtils.ts]) *)

Module ColorUtils.
Record RGB : Type := mkRGB { r : Z; g : Z; b : Z }.

(** The value of a character of the class [[a-f\d]] under the [i] flag. *)
Definition hexValue (c : ascii) : option Z :=
  let n := Z.of_N (N_of_ascii c) in
  if Z.leb 48 n && Z.leb n 57 then Some (n - 48)
  else if Z.leb 97 n && Z.leb n 102 then Some (n - 87)
  else if Z.leb 65 n && Z.leb n 70 then Some (n - 55)
  else None.

Definition isHexDigit (c : ascii) : bool :=
  match hexValue c with Some _ => true | None => false end.

(** [/^#?([a-f\d]{2})([a-f\d]{2})([a-f\d]{2})$/i.exec(hex)]: the three
    groups, or [null].  A leading [#] is consumed when there is one: it is no
    hex digit, so the match cannot succeed by leaving it to the first group. *)
Definition exec (hex : string) : option (string * string * string) :=
  let body :=
    match hex with
    | String c rest => if (c =? "#")%char then rest else hex
    | EmptyString => hex
    end in
  match body with
  | String c1 (String c2 (String c3 (String c4 (String c5 (String c6 EmptyString))))) =>
      if forallb isHexDigit [c1; c2; c3; c4; c5; c6]
      then Some (String c1 (String c2 EmptyString),
                 String c3 (String c4 EmptyString),
                 String c5 (String c6 EmptyString))
      else None
  | _ => None
  end.

(** [parseInt(s, 16)] on a string that begins with a hex digit and is not
    prefixed by [0x]: the digits up to the first character that is none. *)
Fixpoint parseDigits (acc : Z) (s : string) : Z :=
  match s with
  | EmptyString => acc
  | String c rest =>
      match hexValue c with
      | Some d => parseDigits (16 * acc + d) rest
      | None => acc
      end
  end.

Definition parseInt16 (s : string) : Z := parseDigits 0 s.

Definition hexToRgb (hex : string) : RGB :=
  match exec hex with
  | Some (g1, g2, g3) => mkRGB (parseInt16 g1) (parseInt16 g2) (parseInt16 g3)
  | None => mkRGB 255 255 255
  end.

(** The quotient as the exact rational.  The number JavaScript computes is
    the double nearest to it; the channels being integers, the numerator is
    exact, and the double compares with 0, 128 and 255 as the rational does,
    these being doubles themselves. *)
Definition calculateBrightness (rgb : RGB) : QArith_base.Q :=
  QArith_base.Qmake (r rgb * 299 + g rgb * 587 + b rgb * 114) 1000.

Definition getContrastColor (bgColor : string) : string :=
  let rgb := hexToRgb bgColor in
  let brightness := calculateBrightness rgb in
  if negb (QArith_base.Qle_bool brightness (QArith_base.Qmake 128 1))
  then "#000000" else "#ffffff".
End ColorUtils.

(** ** A host to run the model on *)

(** A host whose cipher is a one-byte XOR pad derived from the salt and the
    password.  It stands for CryptoJS only in that it honours the round-trip
    contract; it lets the methods be evaluated on concrete worlds. *)
Module XorHost.
Definition xor_ascii (a b : ascii) : ascii :=
  match a, b with
  | Ascii a0 a1 a2 a3 a4 a5 a6 a7, Ascii b0 b1 b2 b3 b4 b5 b6 b7 =>
      Ascii (xorb a0 b0) (xorb a1 b1) (xorb a2 b2) (xorb a3 b3)
            (xorb a4 b4) (xorb a5 b5) (xorb a6 b6) (xorb a7 b7)
  end.

Fixpoint key_byte (password : string) : ascii :=
  match password with
  | EmptyString => Ascii.zero
  | String c rest => xor_ascii c (key_byte rest)
  end.

Fixpoint mask (pad : ascii) (s : string) : string :=
  match s with
  | EmptyString => EmptyString
  | String c rest => String (xor_ascii pad c) (mask pad rest)
  end.

Definition aes_encrypt (salt : ascii) (text password : string) : string :=
  String salt (mask (xor_ascii salt (key_byte password)) text).

Definition aes_decrypt_utf8 (c password : string) : option string :=
  match c with
  | EmptyString => None
  | String salt body => Some (mask (xor_ascii salt (key_byte password)) body)
  end.

(** The host; its round-trip law holds since the pad is its own inverse. *)
Definition host : Host.
Proof.
  refine {| Salt := ascii;
            AES_encrypt := aes_encrypt;
            AES_decrypt_utf8 := aes_decrypt_utf8;
            AES_roundtrip := _;
            Date_clock := fun n => (1700000000000 + Z.of_nat n)%Z;
            salt_source := fun n => ascii_of_nat (65 + n) |}.
  intros salt text password. unfold aes_decrypt_utf8, aes_encrypt. f_equal.
  generalize (xor_ascii salt (key_byte password)). intros pad.
  induction text as [|c rest IH]; simpl; [reflexivity|].
  rewrite IH. f_equal. destruct pad, c; simpl.
  rewrite <- !xorb_assoc, !xorb_nilpotent, !xorb_false_l. reflexivity.
Defined.

Definition noConfig : SyncConfig :=
  mkSyncConfig ProviderNone None None None None.

(** A fresh process: nobody logged in, nothing on disk. *)
Definition fresh : World :=
  mkWorld (mkSession None ∅) "/notes" ∅ noConfig false ∅ [] 0 0 [].
End XorHost.

(** alice logged in under the key "k1", nothing on disk. *)
Definition alice_world : World :=
  snd (EncryptionService.setCurrentUser "alice" "k1" XorHost.fresh).

(** alice logged in, her file holding the given content. *)
Definition alice_file (data : Content) : World :=
  set_files {[ "/notes/notes_alice.encrypted" := data ]} alice_world.

(** A note stored without a folder, its fields encrypted under alice's key. *)
Definition folderless_note : EncryptedNote.t :=
  EncryptedNote.mk "7" None
                   (XorHost.aes_encrypt "S" "groceries" "k1")
                   (XorHost.aes_encrypt "T" "milk, eggs" "k1")
                   10 20.

(** alice's file on disk, a complete WebDAV configuration, and a network that
    will answer the requests to come as given. *)
Definition webdav_world (answers : list FetchOutcome) : World :=
  mkWorld (mkSession None ∅) "/notes"
          {[ "/notes/notes_alice.encrypted" := JsonObject NotesManager.emptyStorage ]}
          (mkSyncConfig WebDAV (Some "https://dav.example/notes")
                        (Some "alice") (Some "secret") None)
          false ∅ answers 0 0 [].

Definition server_error : Response :=
  mkResponse false 500 "Internal Server Error" (Unparseable "") None.

(** ** Vocabulary of the properties *)

(** A world in which [u] is logged in with key [k]. *)
Definition keyed (w : World) (u k : string) : Prop :=
  currentUser (session w) = Some u /\ u <> "" /\
  userPasswords (session w) !! u = Some k.

(** The password [encrypt] and [decrypt] use in a world, if their guard
    lets them through. *)
Definition sessionKey (w : World) : option string :=
  match currentUser (session w) with
  | Some u => if truthy u then userPasswords (session w) !! u else None
  | None => None
  end.

(** What [hasPassword] returns in a world. *)
Definition unlocked (w : World) : bool :=
  match currentUser (session w) with
  | Some u => bool_decide (is_Some (userPasswords (session w) !! u))
  | None => false
  end.

(** The path [getStorageFile] computes in a world. *)
Definition storageFileOf (w : World) : string :=
  storagePath w +:+ "/notes_" +:+
  (if truthy_opt (currentUser (session w))
   then default "" (currentUser (session w)) else "default")
  +:+ ".encrypted".

(** The document [loadStorage] returns in a world. *)
Definition storedDocument (w : World) : EncryptedStorage.t :=
  match files w !! storageFileOf w with
  | Some (JsonArray arr) => EncryptedStorage.mk [] arr
  | Some (JsonObject doc) => doc
  | Some (Unparseable _) | None => NotesManager.emptyStorage
  end.

(** Two worlds with the same session, storage path and files. *)
Definition same_store (w w' : World) : Prop :=
  session w' = session w /\ storagePath w' = storagePath w /\
  files w' = files w.

(** The document [deleteFolder] writes. *)
Definition withoutFolder (name : string) (doc : EncryptedStorage.t)
  : EncryptedStorage.t :=
  EncryptedStorage.mk
    (List.filter (fun f => negb (Folder.name f =? name))
                 (EncryptedStorage.folders doc))
    (List.filter (NotesManager.folder_differs name)
                 (EncryptedStorage.notes doc)).

(** The document [createNote] writes. *)
Definition withNote (enc : EncryptedNote.t) (doc : EncryptedStorage.t)
  : EncryptedStorage.t :=
  EncryptedStorage.mk (EncryptedStorage.folders doc)
                      (EncryptedStorage.notes doc ++ [enc]).

(** The test of [createNote] for a note of the same folder and title. *)
Definition sameTitle (folder title : string) (n : Note.t) : bool :=
  (Note.folder n =? folder) && (Note.title n =? title).

Definition folderTitle (n : Note.t) : string * string :=
  (Note.folder n, Note.title n).

(** No two of the notes share folder and title. *)
Definition titles_unique (listed : list Note.t) : Prop :=
  NoDup (List.map folderTitle listed).

(** The ids of the notes of a document, in order. *)
Definition ids (notes : list EncryptedNote.t) : list string :=
  List.map EncryptedNote.id notes.

(** Every note of the map stands under its own id, and no key twice. *)
Definition keyed_by_id (m : JsMap.t EncryptedNote.t) : Prop :=
  NoDup (JsMap.keys m) /\
  Forall (fun kv => EncryptedNote.id (snd kv) = fst kv) m.

Section Reading.
Context `{Host}.

(** What [decrypt] returns under the key of the session. *)
Definition decryptOutcome (key : option string) (c : string) : Result string :=
  match key with
  | None => Throw NoPasswordSet
  | Some k =>
      match AES_decrypt_utf8 c k with
      | None => Throw MalformedUtf8
      | Some decrypted =>
          if truthy decrypted then Ok decrypted else Throw DecryptFailed
      end
  end.

(** What the object literal of the readers evaluates to. *)
Definition noteOutcome (key : option string) (e : EncryptedNote.t)
  : Result Note.t :=
  match decryptOutcome key (EncryptedNote.encryptedTitle e) with
  | Throw err => Throw err
  | Ok title =>
      match decryptOutcome key (EncryptedNote.encryptedContent e) with
      | Throw err => Throw err
      | Ok content =>
          Ok (Note.mk (EncryptedNote.id e) (NotesManager.folderOrDefault e)
                      title content
                      (EncryptedNote.createdAt e) (EncryptedNote.updatedAt e))
      end
  end.

(** The note the readers build from a stored note, when both fields
    decrypt. *)
Definition readable (key : option string) (e : EncryptedNote.t)
  : option Note.t :=
  match noteOutcome key e with
  | Ok n => Some n
  | Throw _ => None
  end.

(** The notes [getAllNotes] lists in a world with a key. *)
Definition visible (w : World) : list Note.t :=
  omap (readable (sessionKey w)) (EncryptedStorage.notes (storedDocument w)).

(** What [getAllNotes] returns in a world. *)
Definition listing (w : World) : list Note.t :=
  if unlocked w then visible w else [].

(** A sequence of [createNote] calls, each given as (title, content,
    folder); a call that throws leaves the caller to go on with the next. *)
Definition createNotes (calls : list (string * string * string)) (w : World)
  : World :=
  fold_left
    (fun w call =>
       snd (NotesManager.createNote call.1.1 call.1.2 call.2 w))
    calls w.
End Reading.

(** [w'] is [w] but for the messages shown. *)
Definition talks (w w' : World) : Prop := exists l, w' = set_shown l w.

(** [w'] is [w] after a write of [doc] to the file of the current user. *)
Definition writes (w w' : World) (doc : EncryptedStorage.t) : Prop :=
  session w' = session w /\ storagePath w' = storagePath w /\
  files w' = <[storageFileOf w := JsonObject doc]> (files w).

(** The document [deleteNote] writes. *)
Definition withoutNote (id : string) (doc : EncryptedStorage.t)
  : EncryptedStorage.t :=
  EncryptedStorage.mk
    (EncryptedStorage.folders doc)
    (List.filter (fun n => negb (EncryptedNote.id n =? id))
                 (EncryptedStorage.notes doc)).

(** The document [createFolder] writes. *)
Definition withFolder (f : Folder.t) (doc : EncryptedStorage.t)
  : EncryptedStorage.t :=
  EncryptedStorage.mk (EncryptedStorage.folders doc ++ [f])
                      (EncryptedStorage.notes doc).

(** The assignments of [updateNote] to the note it found. *)
Definition reencrypted (encryptedTitle encryptedContent : string) (now : Z)
           (n : EncryptedNote.t) : EncryptedNote.t :=
  EncryptedNote.mk (EncryptedNote.id n) (EncryptedNote.folder n)
                   encryptedTitle encryptedContent
                   (EncryptedNote.createdAt n) now.

(** The document [updateNote] writes. *)
Definition withUpdate (id encryptedTitle encryptedContent : string) (now : Z)
           (doc : EncryptedStorage.t) : EncryptedStorage.t :=
  EncryptedStorage.mk
    (EncryptedStorage.folders doc)
    (NotesManager.assignFirst id (reencrypted encryptedTitle encryptedContent now)
                              (EncryptedStorage.notes doc)).

(** The first stored note of an id, as [find] returns it. *)
Definition findNote (id : string) (doc : EncryptedStorage.t)
  : option EncryptedNote.t :=
  List.find (fun n => EncryptedNote.id n =? id) (EncryptedStorage.notes doc).

Definition folderNames (doc : EncryptedStorage.t) : list string :=
  List.map Folder.name (EncryptedStorage.folders doc).

(** The methods of NotesManager that write, as calls. *)
Inductive Call : Type :=
  | CreateFolder (name : string)
  | DeleteFolder (name : string)
  | CreateNote (title content folder : string)
  | UpdateNote (id title content : string)
  | DeleteNote (id : string).

Section Calls.
Context `{Host}.

(** The world a call leaves, whether it returned or threw. *)
Definition perform (c : Call) (w : World) : World :=
  match c with
  | CreateFolder name => snd (NotesManager.createFolder name w)
  | DeleteFolder name => snd (NotesManager.deleteFolder name w)
  | CreateNote title content folder =>
      snd (NotesManager.createNote title content folder w)
  | UpdateNote id title content =>
      snd (NotesManager.updateNote id title content w)
  | DeleteNote id => snd (NotesManager.deleteNote id w)
  end.

Definition performAll (calls : list Call) (w : World) : World :=
  fold_left (fun w c => perform c w) calls w.
End Calls.

(** The file of a user under the storage path of a world. *)
Definition fileOfUser (w : World) (user : string) : string :=
  storagePath w +:+ "/notes_" +:+ user +:+ ".encrypted".

(** The notes [loadStorage] finds in what a file holds, if there is a file. *)
Definition storedNotesOf (data : option Content) : list EncryptedNote.t :=
  match data with
  | Some (JsonArray arr) => arr
  | Some (JsonObject doc) => EncryptedStorage.notes doc
  | Some (Unparseable _) | None => []
  end.

(** The session after [setCurrentUser]. *)
Definition loggedIn (username password : string) (w : World) : World :=
  set_session
    (mkSession (Some username)
               (<[username := password]> (userPasswords (session w)))) w.

(** The map holds, under the id of [r], a note at least as recent as [r]. *)
Definition covered (m : JsMap.t EncryptedNote.t) (r : EncryptedNote.t) : Prop :=
  exists e, JsMap.get (EncryptedNote.id r) m = Some e /\
            (EncryptedNote.updatedAt r <= EncryptedNote.updatedAt e)%Z.

Section Stamping.
Context `{Host}.

(** The folders [stampFolders] builds when the clock has been read [t]
    times: one reading for each name, in order. *)
Fixpoint stampedFrom (t : nat) (names : list string) : list Folder.t :=
  match names with
  | [] => []
  | name :: rest => Folder.mk name (Date_clock t) :: stampedFrom (S t) rest
  end.
End Stamping.

(** The items the tree view puts under a folder item. *)
Definition noteItems (label : string) (listed : list Note.t) : list TreeItem :=
  List.map (fun note => NoteItem (Note.id note) (Note.title note))
           (List.filter (fun n => Note.folder n =? label) listed).

(** A group of the colour pattern: two hex digits. *)
Definition twoHexDigits (group : string) : Prop :=
  exists c1 c2 d1 d2,
    group = String c1 (String c2 EmptyString) /\
    ColorUtils.hexValue c1 = Some d1 /\ ColorUtils.hexValue c2 = Some d2.

(** A colour channel: an integer from 0 to 255. *)
Definition channel (v : Z) : Prop := 0 <= v <= 255.

(** * Properties *)

(** Unfolding of the monad's combinators. *)
Ltac run :=
  unfold bind, ret, throw, get, modify, try_catch, try_finally, show,
         Date_now, draw_salt in *; simpl in *.

Lemma truthy_nonempty (s : string) : s <> "" -> truthy s = true.
Proof.
  intros Hs. unfold truthy. destruct (String.eqb_spec s ""); [contradiction|reflexivity].
Qed.

Lemma truthy_true_nonempty (s : string) : truthy s = true -> s <> "".
Proof. intros Ht ->. discriminate Ht. Qed.

(** ** EncryptionService *)

Section EncryptionFacts.
Context `{Host}.

Lemma activePassword_keyed (w : World) (u k : string) :
  keyed w u k -> EncryptionService.activePassword w = (Ok k, w).
Proof.
  intros (Hu & Hne & Hk). unfold EncryptionService.activePassword.
  rewrite Hu, (truthy_nonempty u Hne), Hk. reflexivity.
Qed.

Lemma encrypt_keyed (w : World) (u k s : string) :
  keyed w u k ->
  EncryptionService.encrypt s w =
    (Ok (AES_encrypt (salt_source (draws w)) s k), set_draws (S (draws w)) w).
Proof.
  intros Hk. unfold EncryptionService.encrypt, bind.
  rewrite (activePassword_keyed w u k Hk). reflexivity.
Qed.

Lemma decrypt_keyed (w : World) (u k c : string) :
  keyed w u k ->
  EncryptionService.decrypt c w =
    match AES_decrypt_utf8 c k with
    | None => (Throw MalformedUtf8, w)
    | Some decrypted =>
        if truthy decrypted then (Ok decrypted, w) else (Throw DecryptFailed, w)
    end.
Proof.
  intros Hk. unfold EncryptionService.decrypt, bind.
  rewrite (activePassword_keyed w u k Hk).
  destruct (AES_decrypt_utf8 c k) as [d|]; [|reflexivity].
  destruct (truthy d); reflexivity.
Qed.

Lemma keyed_set_draws (w : World) (u k : string) (n : nat) :
  keyed w u k -> keyed (set_draws n w) u k.
Proof. intros Hk. exact Hk. Qed.

(** The empty plaintext does not come back: [decrypt] takes the empty
    result of the cipher for a wrong key. *)
Lemma decrypt_encrypt_empty (w : World) (u k : string) :
  keyed w u k ->
  (let* c := EncryptionService.encrypt "" in EncryptionService.decrypt c) w
  = (Throw DecryptFailed, set_draws (S (draws w)) w).
Proof.
  intros Hk. unfold bind at 1. rewrite (encrypt_keyed w u k _ Hk).
  rewrite (decrypt_keyed _ u k _ (keyed_set_draws w u k _ Hk)).
  rewrite AES_roundtrip. reflexivity.
Qed.
End EncryptionFacts.

(** C1 (as amended).  For every plaintext [s] and every key [k] the session
    holds for the logged-in user, encrypting [s] and decrypting the result
    under the same key returns [s] when [s] is not empty, and throws the
    decryption error when [s] is empty. *)
Theorem decrypt_encrypt_roundtrip `{Host} (w : World) (u k s : string) :
  keyed w u k ->
  (let* c := EncryptionService.encrypt s in EncryptionService.decrypt c) w
  = (if truthy s then Ok s else Throw DecryptFailed, set_draws (S (draws w)) w).
Proof.
  intros Hk. unfold bind at 1. rewrite (encrypt_keyed w u k _ Hk).
  rewrite (decrypt_keyed _ u k _ (keyed_set_draws w u k _ Hk)).
  rewrite AES_roundtrip. destruct (truthy s); reflexivity.
Qed.

Lemma alice_keyed : keyed alice_world "alice" "k1".
Proof. split; [reflexivity | split; [discriminate | vm_compute; reflexivity]]. Qed.

Lemma decrypt_encrypt_roundtrip_witness :
  fst ((let* c := EncryptionService.encrypt (H := XorHost.host) "hello" in
        EncryptionService.decrypt (H := XorHost.host) c) alice_world)
  = Ok "hello".
Proof.
  assert (K : keyed alice_world "alice" "k1").
  { split; [reflexivity | split; [discriminate | vm_compute; reflexivity]]. }
  rewrite (decrypt_encrypt_roundtrip (H := XorHost.host)
             alice_world "alice" "k1" "hello" K).
  reflexivity.
Defined.

(** C1 (as stated) fails: the round trip does not hold for every plaintext,
    whatever the cipher; the empty plaintext is the exception. *)
Lemma decrypt_encrypt_roundtrip_counterexample :
  ~ (forall (H : Host) (w : World) (u k s : string),
       keyed w u k ->
       fst ((let* c := EncryptionService.encrypt s in
             EncryptionService.decrypt c) w) = Ok s).
Proof.
  intros Hall.
  specialize (Hall XorHost.host alice_world "alice" "k1" "" alice_keyed).
  rewrite (decrypt_encrypt_empty alice_world "alice" "k1" alice_keyed) in Hall.
  discriminate Hall.
Qed.

(** ** The JavaScript Map *)

Section JsMapFacts.
Context {V : Type}.
Implicit Types (m : JsMap.t V) (k : string) (v : V).

Lemma JsMap_get_set_eq m k v : JsMap.get k (JsMap.set k v m) = Some v.
Proof.
  induction m as [|[k' v'] rest IH]; simpl.
  - rewrite String.eqb_refl. reflexivity.
  - destruct (k' =? k) eqn:E; simpl; rewrite E; [reflexivity | exact IH].
Qed.

Lemma JsMap_get_set_ne m k k' v :
  k <> k' -> JsMap.get k' (JsMap.set k v m) = JsMap.get k' m.
Proof.
  intros Hne. induction m as [|[k0 v0] rest IH]; simpl.
  - destruct (String.eqb_spec k k'); [contradiction | reflexivity].
  - destruct (String.eqb_spec k0 k) as [->|Hk0]; simpl.
    + destruct (String.eqb_spec k k'); [contradiction | reflexivity].
    + destruct (k0 =? k'); [reflexivity | exact IH].
Qed.

Lemma JsMap_get_None_keys m k : JsMap.get k m = None <-> k ∉ JsMap.keys m.
Proof.
  induction m as [|[k' v'] rest IH]; simpl.
  - split; [intros _; apply not_elem_of_nil | reflexivity].
  - rewrite not_elem_of_cons.
    destruct (String.eqb_spec k' k) as [->|Hne].
    + split; [discriminate | intros [Hn _]; contradiction].
    + split.
      * intros Hg. split; [congruence | apply IH; exact Hg].
      * intros [_ Hn]. apply IH. exact Hn.
Qed.

Lemma JsMap_keys_set m k v :
  JsMap.keys (JsMap.set k v m) =
    match JsMap.get k m with
    | Some _ => JsMap.keys m
    | None => JsMap.keys m ++ [k]
    end.
Proof.
  induction m as [|[k' v'] rest IH]; simpl; [reflexivity|].
  destruct (k' =? k); simpl; [reflexivity|].
  rewrite IH. destruct (JsMap.get k rest); reflexivity.
Qed.

Lemma JsMap_keys_set_NoDup m k v :
  NoDup (JsMap.keys m) -> NoDup (JsMap.keys (JsMap.set k v m)).
Proof.
  intros Hnd. rewrite JsMap_keys_set.
  destruct (JsMap.get k m) eqn:E; [exact Hnd|].
  apply JsMap_get_None_keys in E.
  apply NoDup_app. split; [exact Hnd | split].
  - intros x Hx Hx'. apply list_elem_of_singleton in Hx'. subst x.
    contradiction.
  - apply NoDup_singleton.
Qed.

(** The values whose key is [k], in a map of distinct keys: the one [get]
    returns. *)
Lemma JsMap_filter_key m k :
  NoDup (JsMap.keys m) ->
  List.map snd (List.filter (fun kv => fst kv =? k) m) =
    match JsMap.get k m with Some v => [v] | None => [] end.
Proof.
  induction m as [|[k' v'] rest IH]; simpl; intros Hnd; [reflexivity|].
  inversion Hnd as [|? ? Hnotin Hnd']; subst.
  destruct (String.eqb_spec k' k) as [->|Hne]; simpl.
  - f_equal. apply JsMap_get_None_keys in Hnotin.
    specialize (IH Hnd'). rewrite Hnotin in IH. exact IH.
  - apply IH; exact Hnd'.
Qed.
End JsMapFacts.

(** ** The merge of [smartMerge] *)

Section MergeFacts.
Implicit Types (m : JsMap.t EncryptedNote.t) (n l r : EncryptedNote.t).
Implicit Types (localNotes cloudNotes : list EncryptedNote.t).

Lemma keyed_by_id_set m n :
  keyed_by_id m -> keyed_by_id (JsMap.set (EncryptedNote.id n) n m).
Proof.
  intros [Hnd Hall]. split; [apply JsMap_keys_set_NoDup; exact Hnd|].
  clear Hnd. induction m as [|[k v] rest IH]; simpl.
  - repeat constructor.
  - inversion Hall as [|? ? Hkv Hrest]; subst.
    destruct (k =? EncryptedNote.id n) eqn:E.
    + apply String.eqb_eq in E. constructor; [simpl; congruence | exact Hrest].
    + constructor; [exact Hkv | apply IH; exact Hrest].
Qed.

Lemma keyed_by_id_mergeCloudNote m n :
  keyed_by_id m -> keyed_by_id (SyncService.mergeCloudNote m n).
Proof.
  intros Hm. unfold SyncService.mergeCloudNote.
  destruct (JsMap.get (EncryptedNote.id n) m) as [l|].
  - destruct (EncryptedNote.updatedAt n >? EncryptedNote.updatedAt l)%Z;
      [apply keyed_by_id_set|]; exact Hm.
  - apply keyed_by_id_set; exact Hm.
Qed.

Lemma keyed_by_id_seed localNotes m :
  keyed_by_id m ->
  keyed_by_id
    (fold_left (fun m note => JsMap.set (EncryptedNote.id note) note m)
               localNotes m).
Proof.
  revert m. induction localNotes as [|a rest IH]; simpl; intros m Hm.
  - exact Hm.
  - apply IH, keyed_by_id_set, Hm.
Qed.

Lemma keyed_by_id_merged localNotes cloudNotes :
  keyed_by_id (SyncService.mergedNotesMap localNotes cloudNotes).
Proof.
  unfold SyncService.mergedNotesMap.
  assert (Hseed : keyed_by_id (SyncService.seedLocal localNotes)).
  { apply keyed_by_id_seed. split; constructor. }
  revert Hseed. generalize (SyncService.seedLocal localNotes).
  induction cloudNotes as [|c rest IH]; simpl; intros m Hm.
  - exact Hm.
  - apply IH, keyed_by_id_mergeCloudNote, Hm.
Qed.

(** The notes of a given id among the values of such a map. *)
Lemma values_of_id m (i : string) :
  keyed_by_id m ->
  List.filter (fun n => EncryptedNote.id n =? i) (JsMap.values m) =
    match JsMap.get i m with Some v => [v] | None => [] end.
Proof.
  intros [Hnd Hall]. rewrite <- (JsMap_filter_key m i Hnd).
  clear Hnd. unfold JsMap.values.
  induction m as [|[k v] rest IH]; simpl; [reflexivity|].
  inversion Hall as [|? ? Hkv Hrest]; subst. simpl in Hkv. rewrite Hkv.
  destruct (k =? i); simpl; rewrite (IH Hrest); reflexivity.
Qed.

(** Seeding: what the map holds for an id after the local notes are set. *)
Lemma get_seed_other localNotes m (i : string) :
  i ∉ ids localNotes ->
  JsMap.get i (fold_left (fun m note => JsMap.set (EncryptedNote.id note) note m)
                         localNotes m) = JsMap.get i m.
Proof.
  revert m. induction localNotes as [|a rest IH]; simpl; intros m Hi.
  - reflexivity.
  - apply not_elem_of_cons in Hi as [Hne Hi].
    rewrite (IH _ Hi). apply JsMap_get_set_ne. congruence.
Qed.

Lemma get_seed_member localNotes m l :
  NoDup (ids localNotes) -> l ∈ localNotes ->
  JsMap.get (EncryptedNote.id l)
    (fold_left (fun m note => JsMap.set (EncryptedNote.id note) note m)
               localNotes m) = Some l.
Proof.
  revert m. induction localNotes as [|a rest IH]; simpl; intros m Hnd Hl.
  - apply elem_of_nil in Hl. contradiction.
  - apply NoDup_cons in Hnd as [Ha Hnd].
    apply elem_of_cons in Hl as [->|Hl].
    + rewrite (get_seed_other rest _ _ Ha). apply JsMap_get_set_eq.
    + apply IH; assumption.
Qed.

(** One cloud note: the entry of its id, and the others. *)
Lemma get_mergeCloudNote_other m r (i : string) :
  EncryptedNote.id r <> i ->
  JsMap.get i (SyncService.mergeCloudNote m r) = JsMap.get i m.
Proof.
  intros Hne. unfold SyncService.mergeCloudNote.
  destruct (JsMap.get (EncryptedNote.id r) m) as [l|].
  - destruct (EncryptedNote.updatedAt r >? EncryptedNote.updatedAt l)%Z;
      [apply JsMap_get_set_ne; exact Hne | reflexivity].
  - apply JsMap_get_set_ne; exact Hne.
Qed.

Lemma get_mergeCloudNote_same m r :
  JsMap.get (EncryptedNote.id r) (SyncService.mergeCloudNote m r) =
    match JsMap.get (EncryptedNote.id r) m with
    | None => Some r
    | Some l =>
        if (EncryptedNote.updatedAt r >? EncryptedNote.updatedAt l)%Z
        then Some r else Some l
    end.
Proof.
  unfold SyncService.mergeCloudNote.
  destruct (JsMap.get (EncryptedNote.id r) m) as [l|] eqn:E.
  - destruct (EncryptedNote.updatedAt r >? EncryptedNote.updatedAt l)%Z;
      [apply JsMap_get_set_eq | exact E].
  - apply JsMap_get_set_eq.
Qed.

Lemma get_merge_other cloudNotes m (i : string) :
  i ∉ ids cloudNotes ->
  JsMap.get i (fold_left SyncService.mergeCloudNote cloudNotes m) = JsMap.get i m.
Proof.
  revert m. induction cloudNotes as [|c rest IH]; simpl; intros m Hi.
  - reflexivity.
  - apply not_elem_of_cons in Hi as [Hne Hi].
    rewrite (IH _ Hi). apply get_mergeCloudNote_other. congruence.
Qed.

Lemma get_merge_member cloudNotes m r :
  NoDup (ids cloudNotes) -> r ∈ cloudNotes ->
  JsMap.get (EncryptedNote.id r) (fold_left SyncService.mergeCloudNote cloudNotes m) =
    match JsMap.get (EncryptedNote.id r) m with
    | None => Some r
    | Some l =>
        if (EncryptedNote.updatedAt r >? EncryptedNote.updatedAt l)%Z
        then Some r else Some l
    end.
Proof.
  revert m. induction cloudNotes as [|c rest IH]; simpl; intros m Hnd Hr.
  - apply elem_of_nil in Hr. contradiction.
  - apply NoDup_cons in Hnd as [Hc Hnd].
    apply elem_of_cons in Hr as [->|Hr].
    + rewrite (get_merge_other rest _ _ Hc). apply get_mergeCloudNote_same.
    + rewrite (IH _ Hnd Hr).
      assert (Hne : EncryptedNote.id c <> EncryptedNote.id r).
      { intros Heq. apply Hc. rewrite Heq.
        apply (list_elem_of_fmap_2 EncryptedNote.id). exact Hr. }
      rewrite (get_mergeCloudNote_other m c _ Hne). reflexivity.
Qed.
End MergeFacts.

(** C2.  Where the ids are distinct within each document, for a local note
    [l] and a cloud note [r] of the same id the merged notes hold exactly one
    note of that id: [r] when [r.updatedAt > l.updatedAt], and [l] otherwise
    (so also on a tie). *)
Theorem smartMerge_last_writer_wins
        (localNotes cloudNotes : list EncryptedNote.t) (l r : EncryptedNote.t) :
  NoDup (ids localNotes) -> NoDup (ids cloudNotes) ->
  l ∈ localNotes -> r ∈ cloudNotes ->
  EncryptedNote.id l = EncryptedNote.id r ->
  List.filter (fun n => EncryptedNote.id n =? EncryptedNote.id r)
              (SyncService.mergedNotes localNotes cloudNotes)
  = [if (EncryptedNote.updatedAt r >? EncryptedNote.updatedAt l)%Z then r else l].
Proof.
  intros Hl Hc Hinl Hinr Hid. unfold SyncService.mergedNotes.
  rewrite (values_of_id _ _ (keyed_by_id_merged localNotes cloudNotes)).
  unfold SyncService.mergedNotesMap.
  rewrite (get_merge_member cloudNotes _ r Hc Hinr).
  unfold SyncService.seedLocal. rewrite <- Hid.
  rewrite (get_seed_member localNotes [] l Hl Hinl).
  destruct (EncryptedNote.updatedAt r >? EncryptedNote.updatedAt l)%Z; reflexivity.
Qed.

Lemma smartMerge_last_writer_wins_witness :
  let l := EncryptedNote.mk "1" (Some "x") "tl" "cl" 1 100 in
  let r := EncryptedNote.mk "1" (Some "x") "tr" "cr" 1 200 in
  let tie := EncryptedNote.mk "1" (Some "x") "tr" "cr" 1 100 in
  SyncService.mergedNotes [l] [r] = [r] /\
  SyncService.mergedNotes [l] [tie] = [l].
Proof.
  intros l r tie. split.
  - change (List.filter (fun n => EncryptedNote.id n =? EncryptedNote.id r)
                        (SyncService.mergedNotes [l] [r])
            = [if (EncryptedNote.updatedAt r >? EncryptedNote.updatedAt l)%Z
               then r else l]).
    apply smartMerge_last_writer_wins;
      [apply NoDup_singleton | apply NoDup_singleton
      | apply list_elem_of_singleton; reflexivity
      | apply list_elem_of_singleton; reflexivity | reflexivity].
  - change (List.filter (fun n => EncryptedNote.id n =? EncryptedNote.id tie)
                        (SyncService.mergedNotes [l] [tie])
            = [if (EncryptedNote.updatedAt tie >? EncryptedNote.updatedAt l)%Z
               then tie else l]).
    apply smartMerge_last_writer_wins;
      [apply NoDup_singleton | apply NoDup_singleton
      | apply list_elem_of_singleton; reflexivity
      | apply list_elem_of_singleton; reflexivity | reflexivity].
Defined.

(** C9.  Where the cloud ids are distinct, a cloud note [r] whose id no local
    note has is among the merged notes, and is the one note of its id there:
    a note deleted locally comes back. *)
Theorem smartMerge_keeps_cloud_only
        (localNotes cloudNotes : list EncryptedNote.t) (r : EncryptedNote.t) :
  NoDup (ids cloudNotes) -> r ∈ cloudNotes ->
  EncryptedNote.id r ∉ ids localNotes ->
  r ∈ SyncService.mergedNotes localNotes cloudNotes /\
  List.filter (fun n => EncryptedNote.id n =? EncryptedNote.id r)
              (SyncService.mergedNotes localNotes cloudNotes) = [r].
Proof.
  intros Hc Hinr Hnew.
  assert (Hf : List.filter (fun n => EncryptedNote.id n =? EncryptedNote.id r)
                 (SyncService.mergedNotes localNotes cloudNotes) = [r]).
  { unfold SyncService.mergedNotes.
    rewrite (values_of_id _ _ (keyed_by_id_merged localNotes cloudNotes)).
    unfold SyncService.mergedNotesMap.
    rewrite (get_merge_member cloudNotes _ r Hc Hinr).
    unfold SyncService.seedLocal.
    rewrite (get_seed_other localNotes [] _ Hnew). reflexivity. }
  split; [|exact Hf].
  apply list_elem_of_In.
  apply (proj1 (List.filter_In
                  (fun n => EncryptedNote.id n =? EncryptedNote.id r) r _)).
  rewrite Hf. left. reflexivity.
Qed.

Lemma smartMerge_keeps_cloud_only_witness :
  let kept := EncryptedNote.mk "1" (Some "x") "t1" "c1" 1 100 in
  let deleted := EncryptedNote.mk "2" (Some "x") "t2" "c2" 2 50 in
  deleted ∈ SyncService.mergedNotes [kept] [kept; deleted].
Proof.
  intros kept deleted.
  apply (smartMerge_keeps_cloud_only [kept] [kept; deleted] deleted).
  - apply (bool_decide_unpack _). vm_compute. exact I.
  - apply list_elem_of_In. right. left. reflexivity.
  - apply (bool_decide_unpack _). vm_compute. exact I.
Defined.

(** ** uploadToCloud *)

Section UploadFacts.
Implicit Types (w : World) (localFilePath currentUser : string).

Lemma fetch_keeps w r w1 :
  SyncService.fetch w = (r, w1) ->
  syncInProgress w1 = syncInProgress w /\ files w1 = files w /\
  config w1 = config w /\ secrets w1 = secrets w /\ session w1 = session w.
Proof.
  unfold SyncService.fetch. intros Hf.
  destruct (network w) as [|[|resp] rest]; inversion Hf; subst; simpl; tauto.
Qed.

(** The attempt touches neither the flag nor the files. *)
Lemma uploadAttempt_keeps w localFilePath currentUser r w1 :
  SyncService.uploadAttempt localFilePath currentUser w = (r, w1) ->
  syncInProgress w1 = syncInProgress w /\ files w1 = files w.
Proof.
  unfold SyncService.uploadAttempt, SyncService.readFileSync,
    SyncService.uploadToWebDAV, SyncService.uploadToGitHub,
    SyncService.uploadToCustom.
  run. intros Hr.
  repeat (case_match; simplify_eq; simpl in *);
    repeat match goal with
           | Hf : SyncService.fetch _ = _ |- _ =>
               apply fetch_keeps in Hf; simpl in Hf;
               destruct Hf as (? & ? & ? & ? & ?)
           end;
    split; congruence.
Qed.

(** What [uploadToCloud] returns, by cases. *)
Lemma uploadToCloud_cases w localFilePath currentUser :
  SyncService.uploadToCloud localFilePath currentUser w =
    match provider (config w) with
    | ProviderNone => (Ok false, w)
    | _ =>
        if syncInProgress w then
          (Ok false,
           set_shown (shown w ++ [ShowWarningMessage "sync in progress"]) w)
        else
          match SyncService.uploadAttempt localFilePath currentUser
                  (set_syncInProgress true w) with
          | (Ok b, w1) => (Ok b, set_syncInProgress false w1)
          | (Throw e, w1) =>
              (Ok false,
               set_syncInProgress false
                 (set_shown
                    (shown w1 ++ [ShowErrorMessage "upload failed" (Some e)])
                    w1))
          end
    end.
Proof.
  unfold SyncService.uploadToCloud. run.
  destruct (provider (config w)); try reflexivity;
    destruct (syncInProgress w); try reflexivity;
    destruct (SyncService.uploadAttempt _ _ _) as [[b|e] w1]; reflexivity.
Qed.
End UploadFacts.

(** C6 (as amended).  [uploadToCloud] never throws.  It returns false, and
    leaves the world as it was, when no backend is configured.  When the
    attempt fails (the file cannot be read, the backend's settings are
    incomplete, the request is rejected or answered with an error status) it
    shows the error and returns false.  A call that set [syncInProgress]
    (the flag was clear on entry) has cleared it on return, and in every case
    the flag is on return what it was on entry. *)
Theorem uploadToCloud_returns_false_on_failure
        (w : World) (localFilePath currentUser : string) :
  (provider (config w) = ProviderNone ->
   SyncService.uploadToCloud localFilePath currentUser w = (Ok false, w)) /\
  (forall e w1,
     provider (config w) <> ProviderNone -> syncInProgress w = false ->
     SyncService.uploadAttempt localFilePath currentUser
       (set_syncInProgress true w) = (Throw e, w1) ->
     SyncService.uploadToCloud localFilePath currentUser w =
       (Ok false,
        set_syncInProgress false
          (set_shown (shown w1 ++ [ShowErrorMessage "upload failed" (Some e)])
                     w1))) /\
  (exists b, fst (SyncService.uploadToCloud localFilePath currentUser w) = Ok b) /\
  syncInProgress (snd (SyncService.uploadToCloud localFilePath currentUser w))
  = syncInProgress w.
Proof.
  rewrite uploadToCloud_cases. repeat split.
  - intros ->. reflexivity.
  - intros e w1 Hp Hbusy Hthrow. rewrite Hbusy, Hthrow.
    destruct (provider (config w)); [contradiction | reflexivity..].
  - destruct (provider (config w)); [exists false; reflexivity | ..];
      (destruct (syncInProgress w); [exists false; reflexivity|]);
      (destruct (SyncService.uploadAttempt _ _ _) as [[b|e] w1];
       [exists b | exists false]; reflexivity).
  - destruct (provider (config w)); [reflexivity | ..];
      (destruct (syncInProgress w) eqn:Hbusy; [exact Hbusy|]);
      (destruct (SyncService.uploadAttempt _ _ _) as [[b|e] w1]; reflexivity).
Qed.

Lemma uploadToCloud_returns_false_on_failure_witness :
  let w := webdav_world [Responded server_error] in
  SyncService.uploadToCloud "/notes/notes_alice.encrypted" "alice" w
  = (Ok false,
     set_shown [ShowErrorMessage "upload failed"
                  (Some (WebDAVUploadFailed "Internal Server Error"))]
               (webdav_world [])).
Proof.
  intros w.
  destruct (uploadToCloud_returns_false_on_failure
              w "/notes/notes_alice.encrypted" "alice") as (_ & Hfail & _).
  rewrite (Hfail (WebDAVUploadFailed "Internal Server Error")
                 (set_syncInProgress true (webdav_world []))).
  - reflexivity.
  - discriminate.
  - reflexivity.
  - vm_compute. reflexivity.
Defined.

(** C6 (as stated) fails: with WebDAV configured and the request rejected by
    the network, the attempt throws, and [uploadToCloud] returns false to its
    caller instead of throwing. *)
Lemma uploadToCloud_raises_counterexample :
  let w := webdav_world [Rejected] in
  SyncService.uploadAttempt "/notes/notes_alice.encrypted" "alice"
    (set_syncInProgress true w)
  = (Throw FetchFailed, set_syncInProgress true (webdav_world [])) /\
  SyncService.uploadToCloud "/notes/notes_alice.encrypted" "alice" w
  = (Ok false,
     set_shown [ShowErrorMessage "upload failed" (Some FetchFailed)]
               (webdav_world [])).
Proof. split; vm_compute; reflexivity. Qed.

(** ** NotesManager: loading *)

Section LoadFacts.
Implicit Types (w : World).

Lemma same_store_refl w : same_store w w.
Proof. repeat split. Qed.

Lemma same_store_trans w1 w2 w3 :
  same_store w1 w2 -> same_store w2 w3 -> same_store w1 w3.
Proof. unfold same_store. intros (? & ? & ?) (? & ? & ?). repeat split; congruence. Qed.

Lemma storageFileOf_same w w' : same_store w w' -> storageFileOf w' = storageFileOf w.
Proof. intros (Hs & Hp & _). unfold storageFileOf. rewrite Hs, Hp. reflexivity. Qed.

Lemma storedDocument_same w w' :
  same_store w w' -> storedDocument w' = storedDocument w.
Proof.
  intros Hsame. unfold storedDocument.
  rewrite (storageFileOf_same w w' Hsame).
  destruct Hsame as (_ & _ & ->). reflexivity.
Qed.

Lemma getStorageFile_run w :
  NotesManager.getStorageFile w = (Ok (storageFileOf w), w).
Proof. reflexivity. Qed.

Lemma loadStorage_unparseable w raw :
  files w !! storageFileOf w = Some (Unparseable raw) ->
  NotesManager.loadStorage w =
    (Ok NotesManager.emptyStorage,
     set_shown (shown w ++ [ConsoleError "load failed"]) w).
Proof.
  intros Hf. unfold NotesManager.loadStorage, NotesManager.getStorageFile,
    EncryptionService.getCurrentUser.
  run. fold (storageFileOf w). rewrite Hf. reflexivity.
Qed.

Lemma loadStorage_run w :
  exists w', NotesManager.loadStorage w = (Ok (storedDocument w), w') /\
             same_store w w'.
Proof.
  unfold NotesManager.loadStorage, NotesManager.getStorageFile,
    EncryptionService.getCurrentUser, storedDocument.
  run. fold (storageFileOf w).
  destruct (files w !! storageFileOf w) as [[raw|arr|doc]|];
    eexists; (split; [reflexivity | repeat split]).
Qed.

Lemma saveStorage_run w doc :
  NotesManager.saveStorage doc w =
    (Ok tt, set_files (<[storageFileOf w := JsonObject doc]> (files w)) w).
Proof. reflexivity. Qed.

Lemma storedDocument_saved w doc :
  storedDocument
    (set_files (<[storageFileOf w := JsonObject doc]> (files w)) w) = doc.
Proof.
  unfold storedDocument.
  change (storageFileOf (set_files _ w)) with (storageFileOf w). simpl.
  rewrite lookup_insert_eq. reflexivity.
Qed.
End LoadFacts.

(** C3 (as amended).  When the file of the current user holds text that
    [JSON.parse] rejects, [loadStorage] does not throw: it writes the error to
    the console and returns the empty document, leaving the file as it is. *)
Theorem loadStorage_swallows_malformed_json (w : World) (raw : string) :
  files w !! storageFileOf w = Some (Unparseable raw) ->
  NotesManager.loadStorage w =
    (Ok NotesManager.emptyStorage,
     set_shown (shown w ++ [ConsoleError "load failed"]) w) /\
  files (snd (NotesManager.loadStorage w)) = files w.
Proof.
  intros Hf. rewrite (loadStorage_unparseable w raw Hf). split; reflexivity.
Qed.

Lemma loadStorage_swallows_malformed_json_witness :
  fst (NotesManager.loadStorage (alice_file (Unparseable "{oops")))
  = Ok NotesManager.emptyStorage.
Proof.
  destruct (loadStorage_swallows_malformed_json
              (alice_file (Unparseable "{oops")) "{oops") as [Hrun _].
  - vm_compute. reflexivity.
  - rewrite Hrun. reflexivity.
Defined.

(** C3 (as stated) fails: on a file holding [{oops], which is not JSON,
    [loadStorage] returns the empty document and throws nothing. *)
Lemma loadStorage_corruption_counterexample :
  NotesManager.loadStorage (alice_file (Unparseable "{oops"))
  = (Ok (EncryptedStorage.mk [] []),
     set_shown [ConsoleError "load failed"] (alice_file (Unparseable "{oops"))).
Proof. vm_compute. reflexivity. Qed.

(** C8.  When the file of the current user parses to a bare array,
    [loadStorage] returns the document whose folders are empty and whose
    notes are that array. *)
Theorem loadStorage_legacy_array (w : World) (arr : list EncryptedNote.t) :
  files w !! storageFileOf w = Some (JsonArray arr) ->
  NotesManager.loadStorage w = (Ok (EncryptedStorage.mk [] arr), w).
Proof.
  intros Hf. unfold NotesManager.loadStorage, NotesManager.getStorageFile,
    EncryptionService.getCurrentUser.
  run. fold (storageFileOf w). rewrite Hf. reflexivity.
Qed.

Lemma loadStorage_legacy_array_witness :
  let legacy := [EncryptedNote.mk "1" (Some "x") "..." "..." 1 1] in
  fst (NotesManager.loadStorage (alice_file (JsonArray legacy)))
  = Ok (EncryptedStorage.mk [] legacy).
Proof.
  intros legacy.
  rewrite (loadStorage_legacy_array (alice_file (JsonArray legacy)) legacy).
  - reflexivity.
  - vm_compute. reflexivity.
Defined.

(** ** NotesManager: reading *)

Section ReadFacts.
Context `{Host}.
Implicit Types (w : World) (e : EncryptedNote.t).

Lemma sessionKey_same w w' : same_store w w' -> sessionKey w' = sessionKey w.
Proof. intros (Hs & _). unfold sessionKey. rewrite Hs. reflexivity. Qed.

Lemma unlocked_same w w' : same_store w w' -> unlocked w' = unlocked w.
Proof. intros (Hs & _). unfold unlocked. rewrite Hs. reflexivity. Qed.

Lemma visible_same w w' : same_store w w' -> visible w' = visible w.
Proof.
  intros Hsame. unfold visible.
  rewrite (sessionKey_same w w' Hsame), (storedDocument_same w w' Hsame).
  reflexivity.
Qed.

Lemma keyed_sessionKey w u k : keyed w u k -> sessionKey w = Some k.
Proof.
  intros (Hu & Hne & Hk). unfold sessionKey.
  rewrite Hu, (truthy_nonempty u Hne). exact Hk.
Qed.

Lemma keyed_unlocked w u k : keyed w u k -> unlocked w = true.
Proof.
  intros (Hu & Hne & Hk). unfold unlocked. rewrite Hu, Hk.
  apply bool_decide_eq_true. eexists; reflexivity.
Qed.

Lemma hasPassword_run w : EncryptionService.hasPassword w = (Ok (unlocked w), w).
Proof. reflexivity. Qed.

Lemma activePassword_run w :
  EncryptionService.activePassword w =
    (match sessionKey w with Some k => Ok k | None => Throw NoPasswordSet end, w).
Proof.
  unfold EncryptionService.activePassword, sessionKey.
  destruct (currentUser (session w)) as [u|]; [|reflexivity].
  destruct (truthy u); [|reflexivity].
  destruct (userPasswords (session w) !! u); reflexivity.
Qed.

Lemma decrypt_run w c :
  EncryptionService.decrypt c w = (decryptOutcome (sessionKey w) c, w).
Proof.
  unfold EncryptionService.decrypt, bind, decryptOutcome.
  rewrite activePassword_run.
  destruct (sessionKey w) as [k|]; [|reflexivity].
  destruct (AES_decrypt_utf8 c k) as [d|]; [|reflexivity].
  destruct (truthy d); reflexivity.
Qed.

Lemma decryptNote_run w e :
  NotesManager.decryptNote e w = (noteOutcome (sessionKey w) e, w).
Proof.
  unfold NotesManager.decryptNote, bind, noteOutcome.
  rewrite decrypt_run.
  destruct (decryptOutcome (sessionKey w) (EncryptedNote.encryptedTitle e));
    [|reflexivity].
  rewrite decrypt_run.
  destruct (decryptOutcome (sessionKey w) (EncryptedNote.encryptedContent e));
    reflexivity.
Qed.

(** The loop of [getAllNotes] appends the readable notes, in order. *)
Lemma decryptEach_run (es : list EncryptedNote.t) (acc : list Note.t) w :
  exists w', NotesManager.decryptEach es acc w
             = (Ok (acc ++ omap (readable (sessionKey w)) es), w') /\
             same_store w w'.
Proof.
  revert acc w. induction es as [|e rest IH]; intros acc w; simpl.
  - exists w. rewrite app_nil_r. split; [reflexivity | apply same_store_refl].
  - unfold bind at 1. unfold try_catch, bind at 1.
    rewrite decryptNote_run. unfold readable at 1.
    destruct (noteOutcome (sessionKey w) e) as [n|err]; run.
    + destruct (IH (acc ++ [n]) w) as (w' & -> & Hsame).
      exists w'. rewrite <- app_assoc. split; [reflexivity | exact Hsame].
    + destruct (IH acc (set_shown (shown w ++ [ConsoleError "decrypt failed"]) w))
        as (w' & -> & Hsame).
      exists w'. split; [reflexivity|].
      destruct Hsame as (? & ? & ?). repeat split; assumption.
Qed.

Lemma getAllNotes_run w :
  exists w', NotesManager.getAllNotes w
             = (Ok (if unlocked w then visible w else []), w') /\
             same_store w w'.
Proof.
  unfold NotesManager.getAllNotes, bind. rewrite hasPassword_run.
  destruct (unlocked w); simpl.
  - destruct (loadStorage_run w) as (w1 & -> & Hs1).
    destruct (decryptEach_run (EncryptedStorage.notes (storedDocument w)) [] w1)
      as (w2 & -> & Hs2).
    exists w2. simpl. unfold visible.
    rewrite (sessionKey_same w w1 Hs1).
    split; [reflexivity | exact (same_store_trans _ _ _ Hs1 Hs2)].
  - exists w. split; [reflexivity | apply same_store_refl].
Qed.

Lemma getNote_run w (id : string) :
  exists w', NotesManager.getNote id w
             = (if unlocked w then
                  match List.find (fun n => EncryptedNote.id n =? id)
                                  (EncryptedStorage.notes (storedDocument w)) with
                  | None => Ok None
                  | Some e =>
                      match readable (sessionKey w) e with
                      | Some n => Ok (Some n)
                      | None => Throw DecryptFailed
                      end
                  end
                else Ok None, w') /\
             same_store w w'.
Proof.
  unfold NotesManager.getNote, bind. rewrite hasPassword_run.
  destruct (unlocked w); simpl.
  - destruct (loadStorage_run w) as (w1 & -> & Hs1).
    destruct (List.find _ _) as [e|].
    + unfold try_catch, bind. rewrite decryptNote_run.
      rewrite (sessionKey_same w w1 Hs1). unfold readable.
      destruct (noteOutcome (sessionKey w) e); run;
        exists w1; (split; [reflexivity | exact Hs1]).
    + exists w1. split; [reflexivity | exact Hs1].
  - exists w. split; [reflexivity | apply same_store_refl].
Qed.
End ReadFacts.

Section FallbackFacts.
Context `{Host}.

Lemma sessionKey_unlocked (w : World) (k : string) :
  sessionKey w = Some k -> unlocked w = true.
Proof.
  unfold sessionKey, unlocked.
  destruct (currentUser (session w)) as [u|]; [|discriminate].
  destruct (truthy u); [|discriminate].
  intros ->. apply bool_decide_eq_true. eexists; reflexivity.
Qed.

Lemma decrypt_Ok_outcome (w : World) (c p : string) :
  fst (EncryptionService.decrypt c w) = Ok p ->
  decryptOutcome (sessionKey w) c = Ok p /\ exists k, sessionKey w = Some k.
Proof.
  rewrite decrypt_run. simpl. intros Hd. split; [exact Hd|].
  destruct (sessionKey w) as [k|]; [exists k; reflexivity | discriminate Hd].
Qed.

Lemma folderOrDefault_missing (e : EncryptedNote.t) :
  EncryptedNote.folder e = None \/ EncryptedNote.folder e = Some "" ->
  NotesManager.folderOrDefault e = "default".
Proof.
  unfold NotesManager.folderOrDefault. intros [-> | ->]; reflexivity.
Qed.

(** The folder the readers show is never empty. *)
Lemma folderOrDefault_nonempty (e : EncryptedNote.t) :
  NotesManager.folderOrDefault e <> "".
Proof.
  unfold NotesManager.folderOrDefault.
  destruct (EncryptedNote.folder e) as [f|]; [|discriminate].
  destruct (truthy f) eqn:E; [apply truthy_true_nonempty; exact E | discriminate].
Qed.
End FallbackFacts.

(** C10.  For a stored note whose [folder] is missing or empty and whose
    title and content decrypt under the key of the session, [getAllNotes]
    lists that note with folder "default", and [getNote] on its id (when it
    is the note [find] meets first) returns it with folder "default"; neither
    changes a file. *)
Theorem folder_default_on_read `{Host}
        (w : World) (doc : EncryptedStorage.t) (e : EncryptedNote.t)
        (title content : string) :
  fst (NotesManager.loadStorage w) = Ok doc ->
  e ∈ EncryptedStorage.notes doc ->
  EncryptedNote.folder e = None \/ EncryptedNote.folder e = Some "" ->
  fst (EncryptionService.decrypt (EncryptedNote.encryptedTitle e) w) = Ok title ->
  fst (EncryptionService.decrypt (EncryptedNote.encryptedContent e) w) = Ok content ->
  let n := Note.mk (EncryptedNote.id e) "default" title content
                   (EncryptedNote.createdAt e) (EncryptedNote.updatedAt e) in
  (exists listed w',
      NotesManager.getAllNotes w = (Ok listed, w') /\ n ∈ listed /\
      files w' = files w) /\
  (List.find (fun x => EncryptedNote.id x =? EncryptedNote.id e)
             (EncryptedStorage.notes doc) = Some e ->
   exists w',
      NotesManager.getNote (EncryptedNote.id e) w = (Ok (Some n), w') /\
      files w' = files w).
Proof.
  intros Hload Hin Hfolder Ht Hc n.
  destruct (loadStorage_run w) as (w0 & Hrun & _).
  rewrite Hrun in Hload. simpl in Hload. injection Hload as <-.
  apply decrypt_Ok_outcome in Ht as [Ht [k Hk]].
  apply decrypt_Ok_outcome in Hc as [Hc _].
  assert (Hread : readable (sessionKey w) e = Some n).
  { unfold readable, noteOutcome. rewrite Ht, Hc.
    rewrite (folderOrDefault_missing e Hfolder). reflexivity. }
  pose proof (sessionKey_unlocked w k Hk) as Hun.
  split.
  - destruct (getAllNotes_run w) as (w' & Hget & Hsame).
    rewrite Hun in Hget. exists (visible w), w'.
    split; [exact Hget | split; [|apply Hsame]].
    unfold visible. apply list_elem_of_omap. exists e. split; assumption.
  - intros Hfind.
    destruct (getNote_run w (EncryptedNote.id e)) as (w' & Hget & Hsame).
    rewrite Hun, Hfind, Hread in Hget.
    exists w'. split; [exact Hget | apply Hsame].
Qed.

Lemma folder_default_on_read_witness :
  let w := alice_file (JsonObject (EncryptedStorage.mk [] [folderless_note])) in
  fst (NotesManager.getNote (H := XorHost.host) "7" w)
  = Ok (Some (Note.mk "7" "default" "groceries" "milk, eggs" 10 20)).
Proof.
  intros w.
  destruct (folder_default_on_read (H := XorHost.host) w
              (EncryptedStorage.mk [] [folderless_note]) folderless_note
              "groceries" "milk, eggs") as [_ Hget].
  - vm_compute. reflexivity.
  - apply list_elem_of_singleton. reflexivity.
  - left. reflexivity.
  - vm_compute. reflexivity.
  - vm_compute. reflexivity.
  - destruct Hget as (w' & Hrun & _); [vm_compute; reflexivity|].
    change (EncryptedNote.id folderless_note) with "7" in Hrun.
    rewrite Hrun. reflexivity.
Defined.

(** ** NotesManager: deleting *)

Section DeleteFacts.
Context `{Host}.
Implicit Types (w : World) (name : string).

Lemma deleteFolder_run w name :
  exists w', NotesManager.deleteFolder name w = (Ok tt, w') /\
             session w' = session w /\ storagePath w' = storagePath w /\
             files w' = <[storageFileOf w :=
                           JsonObject (withoutFolder name (storedDocument w))]>
                        (files w) /\
             storedDocument w' = withoutFolder name (storedDocument w).
Proof.
  unfold NotesManager.deleteFolder, bind.
  destruct (loadStorage_run w) as (w0 & -> & Hsame).
  rewrite saveStorage_run. eexists. split; [reflexivity|].
  pose proof (storageFileOf_same w w0 Hsame) as Hfile.
  pose proof (storedDocument_saved w0
                (withoutFolder name (storedDocument w))) as Hdoc.
  destruct Hsame as (Hs & Hp & Hf). simpl.
  rewrite <- Hfile, <- Hf. repeat split; try assumption.
Qed.

Lemma withoutFolder_folders name doc (f : Folder.t) :
  f ∈ EncryptedStorage.folders (withoutFolder name doc) -> Folder.name f <> name.
Proof.
  simpl. intros Hin. apply list_elem_of_In, List.filter_In in Hin as [_ Hne].
  apply negb_true_iff, String.eqb_neq in Hne. exact Hne.
Qed.

Lemma withoutFolder_notes name doc (e : EncryptedNote.t) :
  e ∈ EncryptedStorage.notes (withoutFolder name doc) ->
  EncryptedNote.folder e <> Some name.
Proof.
  simpl. intros Hin. apply list_elem_of_In, List.filter_In in Hin as [_ Hne].
  unfold NotesManager.folder_differs in Hne. intros Heq. rewrite Heq in Hne.
  rewrite String.eqb_refl in Hne. discriminate Hne.
Qed.

Lemma readable_fields key (e : EncryptedNote.t) (n : Note.t) :
  readable key e = Some n ->
  Note.id n = EncryptedNote.id e /\
  Note.folder n = NotesManager.folderOrDefault e.
Proof.
  unfold readable, noteOutcome.
  destruct (decryptOutcome key (EncryptedNote.encryptedTitle e)); [|discriminate].
  destruct (decryptOutcome key (EncryptedNote.encryptedContent e)); [|discriminate].
  intros [= <-]. split; reflexivity.
Qed.

(** A note whose stored folder is not [name] is not shown under [name],
    unless [name] is the fallback. *)
Lemma folderOrDefault_differs name (e : EncryptedNote.t) :
  name <> "default" -> EncryptedNote.folder e <> Some name ->
  NotesManager.folderOrDefault e <> name.
Proof.
  intros Hdef Hne. unfold NotesManager.folderOrDefault.
  destruct (EncryptedNote.folder e) as [f|]; [|congruence].
  destruct (truthy f); congruence.
Qed.

Lemma listed_after_deleteFolder w name (n : Note.t) :
  name <> "default" ->
  n ∈ visible (snd (NotesManager.deleteFolder name w)) ->
  Note.folder n <> name.
Proof.
  intros Hdef Hin.
  destruct (deleteFolder_run w name) as (w' & Hrun & _ & _ & _ & Hdoc).
  rewrite Hrun in Hin. simpl in Hin. unfold visible in Hin. rewrite Hdoc in Hin.
  apply list_elem_of_omap in Hin as (e & He & Hread).
  apply readable_fields in Hread as [_ ->].
  apply folderOrDefault_differs; [exact Hdef|].
  exact (withoutFolder_notes name _ e He).
Qed.
End DeleteFacts.

(** C7.  After [deleteFolder(name)], in any world, the stored document has no
    folder of that name and no note whose [folder] is that name.  After
    [createFolder("F")], [createNote("t","c","F")], [deleteFolder("F")], in
    any world, [getFolders] returns no folder named "F" and [getAllNotes]
    lists no note whose folder is "F". *)
Theorem deleteFolder_cascade `{Host} (w : World) (name : string) :
  (exists w' doc,
      NotesManager.deleteFolder name w = (Ok tt, w') /\
      fst (NotesManager.loadStorage w') = Ok doc /\
      (forall f, f ∈ EncryptedStorage.folders doc -> Folder.name f <> name) /\
      (forall e, e ∈ EncryptedStorage.notes doc ->
                 EncryptedNote.folder e <> Some name)) /\
  (let w1 := snd (NotesManager.createFolder "F" w) in
   let w2 := snd (NotesManager.createNote "t" "c" "F" w1) in
   let w3 := snd (NotesManager.deleteFolder "F" w2) in
   exists listedFolders listedNotes,
     fst (NotesManager.getFolders w3) = Ok listedFolders /\
     fst (NotesManager.getAllNotes w3) = Ok listedNotes /\
     (forall f, f ∈ listedFolders -> Folder.name f <> "F") /\
     (forall n, n ∈ listedNotes -> Note.folder n <> "F")).
Proof.
  split.
  - destruct (deleteFolder_run w name) as (w' & Hrun & _ & _ & _ & Hdoc).
    exists w', (storedDocument w'). split; [exact Hrun|].
    destruct (loadStorage_run w') as (w'' & -> & _).
    split; [reflexivity|]. rewrite Hdoc.
    split; [apply withoutFolder_folders | apply withoutFolder_notes].
  - intros w1 w2 w3.
    destruct (deleteFolder_run w2 "F") as (w' & Hrun & _ & _ & _ & Hdoc).
    assert (Hw3 : w3 = w') by (unfold w3; rewrite Hrun; reflexivity).
    exists (EncryptedStorage.folders (storedDocument w3)),
           (if unlocked w3 then visible w3 else []).
    split; [|split; [|split]].
    + unfold NotesManager.getFolders, bind.
      destruct (loadStorage_run w3) as (w4 & -> & _). reflexivity.
    + destruct (getAllNotes_run w3) as (w4 & -> & _). reflexivity.
    + rewrite Hw3, Hdoc. apply withoutFolder_folders.
    + intros n Hn. destruct (unlocked w3); [|apply elem_of_nil in Hn; contradiction].
      apply (listed_after_deleteFolder w2 "F" n); [discriminate | exact Hn].
Qed.

(** ** NotesManager: creating *)

Section CreateFacts.
Context `{Host}.
Implicit Types (w : World) (title content folder : string).

Lemma keyed_same w w' u k : same_store w w' -> keyed w u k -> keyed w' u k.
Proof. intros (Hs & _) Hk. unfold keyed. rewrite Hs. exact Hk. Qed.

Lemma createNote_duplicate w u k title content folder (dup : Note.t) :
  keyed w u k ->
  List.find (sameTitle folder title) (visible w) = Some dup ->
  exists w', NotesManager.createNote title content folder w
             = (Throw (DuplicateTitle folder title), w') /\
             same_store w w'.
Proof.
  intros Hk Hfind. unfold NotesManager.createNote, bind.
  rewrite hasPassword_run, (keyed_unlocked w u k Hk). simpl.
  destruct (getAllNotes_run w) as (w1 & -> & Hs1).
  rewrite (keyed_unlocked w u k Hk).
  fold (sameTitle folder title). rewrite Hfind.
  exists w1. split; [reflexivity | exact Hs1].
Qed.

Lemma createNote_fresh w u k title content folder :
  keyed w u k ->
  List.find (sameTitle folder title) (visible w) = None ->
  exists w' (t_id t_created t_updated : Z) (salt1 salt2 : Salt),
    let enc := EncryptedNote.mk (pretty t_id) (Some folder)
                 (AES_encrypt salt1 title k) (AES_encrypt salt2 content k)
                 t_created t_updated in
    NotesManager.createNote title content folder w
    = (Ok (Note.mk (pretty t_id) folder title content t_created t_updated), w') /\
    session w' = session w /\ storagePath w' = storagePath w /\
    files w' = <[storageFileOf w := JsonObject (withNote enc (storedDocument w))]>
               (files w) /\
    storedDocument w' = withNote enc (storedDocument w).
Proof.
  intros Hk Hfind. unfold NotesManager.createNote, bind.
  rewrite hasPassword_run, (keyed_unlocked w u k Hk). simpl.
  destruct (getAllNotes_run w) as (w1 & -> & Hs1).
  rewrite (keyed_unlocked w u k Hk).
  fold (sameTitle folder title). rewrite Hfind.
  unfold Date_now. simpl.
  set (w2 := set_ticks _ (set_ticks _ (set_ticks _ w1))).
  assert (Hs2 : same_store w w2) by (destruct Hs1 as (? & ? & ?); repeat split; assumption).
  pose proof (keyed_same w w2 u k Hs2 Hk) as Hk2.
  rewrite (encrypt_keyed w2 u k title Hk2).
  set (w3 := set_draws _ w2).
  assert (Hs3 : same_store w w3) by (destruct Hs2 as (? & ? & ?); repeat split; assumption).
  pose proof (keyed_same w w3 u k Hs3 Hk) as Hk3.
  rewrite (encrypt_keyed w3 u k content Hk3).
  set (w4 := set_draws _ w3).
  assert (Hs4 : same_store w w4) by (destruct Hs3 as (? & ? & ?); repeat split; assumption).
  destruct (loadStorage_run w4) as (w5 & -> & Hs45).
  pose proof (same_store_trans _ _ _ Hs4 Hs45) as Hs5.
  fold (storageFileOf w5). unfold ret.
  rewrite (storedDocument_same w w4 Hs4).
  pose proof (storageFileOf_same w w5 Hs5) as Hfile.
  pose proof (storedDocument_saved w5) as Hdoc.
  destruct Hs5 as (Hs & Hp & Hf).
  do 6 eexists. split; [reflexivity|]. simpl.
  rewrite <- Hfile, <- Hf. repeat split; try assumption. apply Hdoc.
Qed.

(** What the readers make of the note [createNote] stored. *)
Lemma readable_created k title content folder (id : string) (tc tu : Z)
      (salt1 salt2 : Salt) :
  readable (Some k)
    (EncryptedNote.mk id (Some folder) (AES_encrypt salt1 title k)
                      (AES_encrypt salt2 content k) tc tu)
  = if truthy title && truthy content
    then Some (Note.mk id (if truthy folder then folder else "default")
                       title content tc tu)
    else None.
Proof.
  unfold readable, noteOutcome, decryptOutcome. simpl.
  rewrite !AES_roundtrip.
  destruct (truthy title); [|reflexivity].
  destruct (truthy content); reflexivity.
Qed.
End CreateFacts.

Section UniquenessFacts.
Context `{Host}.
Implicit Types (w : World) (title content folder : string).

Lemma sameTitle_spec folder title (n : Note.t) :
  sameTitle folder title n = true <-> folderTitle n = (folder, title).
Proof.
  unfold sameTitle, folderTitle. rewrite andb_true_iff, !String.eqb_eq.
  split; [intros [-> ->]; reflexivity | intros [= -> ->]; split; reflexivity].
Qed.

Lemma find_sameTitle_None folder title (listed : list Note.t) :
  List.find (sameTitle folder title) listed = None ->
  (folder, title) ∉ List.map folderTitle listed.
Proof.
  intros Hfind Hin. apply list_elem_of_In, List.in_map_iff in Hin as (n & Hn & Hin).
  pose proof (List.find_none _ _ Hfind n Hin) as Hfalse.
  apply sameTitle_spec in Hn. congruence.
Qed.

Lemma find_sameTitle_Some folder title (listed : list Note.t) (n : Note.t) :
  n ∈ listed -> folderTitle n = (folder, title) ->
  exists dup, List.find (sameTitle folder title) listed = Some dup.
Proof.
  intros Hin Hn. destruct (List.find _ _) as [dup|] eqn:Hfind; [eauto|].
  apply list_elem_of_In in Hin.
  pose proof (List.find_none _ _ Hfind n Hin) as Hfalse.
  apply sameTitle_spec in Hn. congruence.
Qed.

(** One call, made with a folder that is not empty, keeps the listing free
    of duplicates. *)
Lemma createNote_keeps_unique w u k title content folder :
  keyed w u k -> folder <> "" -> titles_unique (visible w) ->
  keyed (snd (NotesManager.createNote title content folder w)) u k /\
  titles_unique (visible (snd (NotesManager.createNote title content folder w))).
Proof.
  intros Hk Hfolder Huniq.
  destruct (List.find (sameTitle folder title) (visible w)) as [dup|] eqn:Hfind.
  - destruct (createNote_duplicate w u k title content folder dup Hk Hfind)
      as (w' & -> & Hsame). simpl.
    split; [exact (keyed_same w w' u k Hsame Hk)|].
    rewrite (visible_same w w' Hsame). exact Huniq.
  - destruct (createNote_fresh w u k title content folder Hk Hfind)
      as (w' & t_id & tc & tu & s1 & s2 & Hrun & Hs & Hp & Hf & Hdoc).
    simpl in Hrun. rewrite Hrun. simpl.
    assert (Hk' : keyed w' u k) by (unfold keyed; rewrite Hs; exact Hk).
    split; [exact Hk'|].
    unfold visible at 1. rewrite Hdoc. simpl.
    rewrite omap_app. simpl.
    rewrite (keyed_sessionKey w' u k Hk'), readable_created.
    rewrite (truthy_nonempty folder Hfolder).
    fold (omap (readable (Some k)) (EncryptedStorage.notes (storedDocument w))).
    rewrite <- (keyed_sessionKey w u k Hk). fold (visible w).
    destruct (truthy title && truthy content); simpl.
    + unfold titles_unique. rewrite List.map_app. simpl.
      apply NoDup_app. split; [exact Huniq | split; [|apply NoDup_singleton]].
      intros pair Hin Hin'. apply list_elem_of_singleton in Hin'. subst pair.
      exact (find_sameTitle_None folder title _ Hfind Hin).
    + rewrite app_nil_r. exact Huniq.
Qed.

(** Without a usable key [createNote] writes nothing. *)
Lemma createNote_no_key w title content folder :
  sessionKey w = None ->
  same_store w (snd (NotesManager.createNote title content folder w)).
Proof.
  intros Hkey. unfold NotesManager.createNote, bind.
  rewrite hasPassword_run. simpl.
  destruct (unlocked w) eqn:Hun; simpl; [|apply same_store_refl].
  destruct (getAllNotes_run w) as (w1 & -> & Hs1). rewrite Hun.
  assert (Hnone : visible w = []).
  { unfold visible. rewrite Hkey.
    induction (EncryptedStorage.notes (storedDocument w)) as [|e rest IH];
      [reflexivity | exact IH]. }
  rewrite Hnone. simpl. unfold Date_now. simpl.
  unfold EncryptionService.encrypt, bind. rewrite activePassword_run.
  match goal with
  | |- context [sessionKey ?w2] =>
      assert (Hs2 : same_store w w2)
        by (destruct Hs1 as (? & ? & ?); repeat split; assumption);
      rewrite (sessionKey_same w w2 Hs2), Hkey
  end.
  simpl. exact Hs2.
Qed.

Lemma sessionKey_keyed w k : sessionKey w = Some k -> exists u, keyed w u k.
Proof.
  unfold sessionKey, keyed.
  destruct (currentUser (session w)) as [u|]; [|discriminate].
  destruct (truthy u) eqn:Hu; [|discriminate].
  intros Hk. exists u. split; [reflexivity|].
  split; [apply truthy_true_nonempty; exact Hu | exact Hk].
Qed.

Lemma listing_same w w' : same_store w w' -> listing w' = listing w.
Proof.
  intros Hsame. unfold listing.
  rewrite (unlocked_same w w' Hsame), (visible_same w w' Hsame). reflexivity.
Qed.

Lemma listing_keyed w u k : keyed w u k -> listing w = visible w.
Proof. intros Hk. unfold listing. rewrite (keyed_unlocked w u k Hk). reflexivity. Qed.

Lemma getAllNotes_listing w : fst (NotesManager.getAllNotes w) = Ok (listing w).
Proof. destruct (getAllNotes_run w) as (w' & -> & _). reflexivity. Qed.

(** One call in any world. *)
Lemma createNote_keeps_listing_unique w title content folder :
  folder <> "" -> titles_unique (listing w) ->
  titles_unique (listing (snd (NotesManager.createNote title content folder w))).
Proof.
  intros Hfolder Huniq. destruct (sessionKey w) as [k|] eqn:Hkey.
  - destruct (sessionKey_keyed w k Hkey) as [u Hk].
    rewrite (listing_keyed w u k Hk) in Huniq.
    destruct (createNote_keeps_unique w u k title content folder Hk Hfolder Huniq)
      as [Hk' Huniq'].
    rewrite (listing_keyed _ u k Hk'). exact Huniq'.
  - rewrite (listing_same w _ (createNote_no_key w title content folder Hkey)).
    exact Huniq.
Qed.

Lemma createNotes_keep_listing_unique
      (calls : list (string * string * string)) w :
  Forall (fun call => call.2 <> "") calls ->
  titles_unique (listing w) -> titles_unique (listing (createNotes calls w)).
Proof.
  revert w. induction calls as [|[[title content] folder] rest IH];
    intros w Hcalls Huniq; simpl.
  - exact Huniq.
  - apply Forall_cons in Hcalls as [Hfolder Hrest]. simpl in Hfolder.
    apply IH; [exact Hrest|].
    apply createNote_keeps_listing_unique; assumption.
Qed.

(** In a listing that is not empty the session has a usable key. *)
Lemma listing_member_keyed w (n : Note.t) :
  n ∈ listing w -> exists u k, keyed w u k.
Proof.
  unfold listing, visible. intros Hin.
  destruct (unlocked w); [|apply elem_of_nil in Hin; contradiction].
  destruct (sessionKey w) as [k|] eqn:Hkey.
  - destruct (sessionKey_keyed w k Hkey) as [u Hk]. exists u, k. exact Hk.
  - apply list_elem_of_omap in Hin as (e & _ & Hread). discriminate Hread.
Qed.
End UniquenessFacts.

(** C5 (as amended).  Where [getAllNotes] lists no two notes of the same
    folder and title, it still lists no two such notes after any sequence of
    [createNote] calls whose folder argument is not the empty string; and a
    [createNote] call whose folder and title are those of a listed note
    throws the duplicate-title error and changes no file. *)
Theorem createNote_titles_unique `{Host}
        (w : World) (calls : list (string * string * string)) :
  (exists listed,
      fst (NotesManager.getAllNotes w) = Ok listed /\ titles_unique listed) ->
  Forall (fun call => call.2 <> "") calls ->
  (exists listed,
      fst (NotesManager.getAllNotes (createNotes calls w)) = Ok listed /\
      titles_unique listed) /\
  (forall title content folder listed n,
      fst (NotesManager.getAllNotes w) = Ok listed ->
      n ∈ listed -> Note.folder n = folder -> Note.title n = title ->
      exists w',
        NotesManager.createNote title content folder w
        = (Throw (DuplicateTitle folder title), w') /\
        files w' = files w).
Proof.
  intros (listed0 & Hl0 & Huniq) Hcalls.
  rewrite getAllNotes_listing in Hl0. injection Hl0 as <-.
  split.
  - exists (listing (createNotes calls w)).
    split; [apply getAllNotes_listing|].
    apply createNotes_keep_listing_unique; assumption.
  - intros title content folder listed n Hl Hin Hf Ht.
    rewrite getAllNotes_listing in Hl. injection Hl as <-.
    destruct (listing_member_keyed w n Hin) as (u & k & Hk).
    rewrite (listing_keyed w u k Hk) in Hin.
    destruct (find_sameTitle_Some folder title (visible w) n Hin) as [dup Hdup].
    { unfold folderTitle. rewrite Hf, Ht. reflexivity. }
    destruct (createNote_duplicate w u k title content folder dup Hk Hdup)
      as (w' & Hrun & Hsame).
    exists w'. split; [exact Hrun | apply Hsame].
Qed.

Lemma createNote_titles_unique_witness :
  (exists listed,
    fst (NotesManager.getAllNotes (H := XorHost.host)
           (createNotes (H := XorHost.host)
              [("t", "c", "F"); ("t", "c2", "F"); ("u", "c", "F")] alice_world))
    = Ok listed /\
    titles_unique listed) /\
  fst (NotesManager.createNote (H := XorHost.host) "t" "c2" "F"
         (createNotes (H := XorHost.host) [("t", "c", "F")] alice_world))
  = Throw (DuplicateTitle "F" "t").
Proof.
  split.
  - destruct (createNote_titles_unique (H := XorHost.host) alice_world
                [("t", "c", "F"); ("t", "c2", "F"); ("u", "c", "F")])
      as [Hlisted _].
    + exists []. split; [vm_compute; reflexivity | constructor].
    + repeat constructor; discriminate.
    + exact Hlisted.
  - destruct (createNote_titles_unique (H := XorHost.host)
                (createNotes (H := XorHost.host) [("t", "c", "F")] alice_world) [])
      as [_ Hdup].
    + eexists. split; [vm_compute; reflexivity | apply NoDup_singleton].
    + constructor.
    + destruct (Hdup "t" "c2" "F"
                  [Note.mk "1700000000000" "F" "t" "c" 1700000000001 1700000000002]
                  (Note.mk "1700000000000" "F" "t" "c" 1700000000001 1700000000002))
        as (w' & Hrun & _).
      * vm_compute. reflexivity.
      * apply list_elem_of_singleton. reflexivity.
      * reflexivity.
      * reflexivity.
      * rewrite Hrun. reflexivity.
Defined.

(** C5 (as stated) fails, in two ways.  A note created with empty content is
    stored and does not decrypt, so it is not listed and a second call with
    its folder and title is let through: the file then holds two notes of
    folder "F" whose titles both decrypt to "t".  And two calls with title
    "t" and the empty folder both succeed, after which [getAllNotes] lists
    two notes of folder "default" and title "t". *)
Lemma createNote_uniqueness_counterexample :
  (let w1 := snd (NotesManager.createNote (H := XorHost.host) "t" "" "F" alice_world) in
   let w2 := snd (NotesManager.createNote (H := XorHost.host) "t" "" "F" w1) in
   fst (NotesManager.createNote (H := XorHost.host) "t" "" "F" alice_world)
   = Ok (Note.mk "1700000000000" "F" "t" "" 1700000000001 1700000000002) /\
   fst (NotesManager.createNote (H := XorHost.host) "t" "" "F" w1)
   = Ok (Note.mk "1700000000003" "F" "t" "" 1700000000004 1700000000005) /\
   List.map (fun e => (EncryptedNote.folder e,
                       XorHost.aes_decrypt_utf8 (EncryptedNote.encryptedTitle e) "k1"))
            (EncryptedStorage.notes (storedDocument w2))
   = [(Some "F", Some "t"); (Some "F", Some "t")]) /\
  (let w1 := snd (NotesManager.createNote (H := XorHost.host) "t" "c" "" alice_world) in
   let w2 := snd (NotesManager.createNote (H := XorHost.host) "t" "c" "" w1) in
   let n1 := Note.mk "1700000000000" "default" "t" "c" 1700000000001 1700000000002 in
   let n2 := Note.mk "1700000000003" "default" "t" "c" 1700000000004 1700000000005 in
   fst (NotesManager.createNote (H := XorHost.host) "t" "c" "" alice_world)
   = Ok (Note.mk "1700000000000" "" "t" "c" 1700000000001 1700000000002) /\
   fst (NotesManager.createNote (H := XorHost.host) "t" "c" "" w1)
   = Ok (Note.mk "1700000000003" "" "t" "c" 1700000000004 1700000000005) /\
   fst (NotesManager.getAllNotes (H := XorHost.host) w2) = Ok [n1; n2] /\
   ~ titles_unique [n1; n2]).
Proof.
  split.
  - repeat split; vm_compute; reflexivity.
  - intros w1 w2 n1 n2.
    split; [vm_compute; reflexivity|].
    split; [vm_compute; reflexivity|].
    split; [vm_compute; reflexivity|].
    unfold titles_unique. simpl. intros Hnd.
    apply NoDup_cons in Hnd as [Hnotin _]. apply Hnotin.
    apply list_elem_of_singleton. reflexivity.
Qed.

(** The sequence of C7 run for alice: the note is listed under "F" before
    [deleteFolder], and neither the folder nor the note is there after. *)
Example deleteFolder_cascade_run :
  let w1 := snd (NotesManager.createFolder (H := XorHost.host) "F" alice_world) in
  let w2 := snd (NotesManager.createNote (H := XorHost.host) "t" "c" "F" w1) in
  let w3 := snd (NotesManager.deleteFolder "F" w2) in
  fst (NotesManager.getFolders w2) = Ok [Folder.mk "F" 1700000000000] /\
  fst (NotesManager.getAllNotes (H := XorHost.host) w2)
  = Ok [Note.mk "1700000000001" "F" "t" "c" 1700000000002 1700000000003] /\
  fst (NotesManager.getFolders w3) = Ok [] /\
  fst (NotesManager.getAllNotes (H := XorHost.host) w3) = Ok [].
Proof. repeat split; vm_compute; reflexivity. Qed.

(** ** The gate of the session *)

Section GateFacts.
Context `{Host}.
Implicit Types (w : World) (id title content folder : string).

(** The four methods that test [hasPassword] stop there without a key. *)
Lemma gated_methods_fail_closed w id title content folder :
  unlocked w = false ->
  NotesManager.getAllNotes w = (Ok [], w) /\
  NotesManager.getNote id w = (Ok None, w) /\
  NotesManager.createNote title content folder w = (Throw PasswordRequired, w) /\
  NotesManager.updateNote id title content w = (Throw PasswordRequired, w).
Proof.
  intros Hlocked.
  unfold NotesManager.getAllNotes, NotesManager.getNote,
    NotesManager.createNote, NotesManager.updateNote, bind.
  rewrite hasPassword_run, Hlocked. repeat split.
Qed.

(** [deleteNote] makes no such test: whatever the session, it rewrites the
    file without the notes of that id. *)
Lemma deleteNote_run w id :
  exists w', NotesManager.deleteNote id w = (Ok tt, w') /\
    files w' =
      <[storageFileOf w :=
          JsonObject
            (EncryptedStorage.mk
               (EncryptedStorage.folders (storedDocument w))
               (List.filter (fun n => negb (EncryptedNote.id n =? id))
                            (EncryptedStorage.notes (storedDocument w))))]>
        (files w).
Proof.
  unfold NotesManager.deleteNote, bind.
  destruct (loadStorage_run w) as (w0 & -> & Hsame).
  rewrite saveStorage_run. eexists. split; [reflexivity|].
  pose proof (storageFileOf_same w w0 Hsame) as Hfile.
  destruct Hsame as (Hs & Hp & Hf). simpl.
  rewrite <- Hfile, <- Hf. reflexivity.
Qed.
End GateFacts.

(** C4: the code departs from the claim.  The user "default" logs in,
    creates a note in folder "F" and logs out.  With no key active,
    [deleteNote] on the note's id returns normally and rewrites the user's
    file without the note; so does [deleteFolder("F")]. *)
Theorem deleteNote_without_key_mutates :
  let w1 := snd (EncryptionService.setCurrentUser "default" "pw" XorHost.fresh) in
  let w2 := snd (NotesManager.createNote (H := XorHost.host) "t" "c" "F" w1) in
  let w3 := snd (EncryptionService.logout w2) in
  let file := "/notes/notes_default.encrypted" in
  let stored := EncryptedNote.mk "1700000000000" (Some "F")
                                 (XorHost.aes_encrypt "A" "t" "pw")
                                 (XorHost.aes_encrypt "B" "c" "pw")
                                 1700000000001 1700000000002 in
  fst (EncryptionService.hasPassword w3) = Ok false /\
  files w3 !! file = Some (JsonObject (EncryptedStorage.mk [] [stored])) /\
  fst (NotesManager.deleteNote "1700000000000" w3) = Ok tt /\
  files (snd (NotesManager.deleteNote "1700000000000" w3)) !! file
  = Some (JsonObject (EncryptedStorage.mk [] [])) /\
  fst (NotesManager.deleteFolder "F" w3) = Ok tt /\
  files (snd (NotesManager.deleteFolder "F" w3)) !! file
  = Some (JsonObject (EncryptedStorage.mk [] [])).
Proof. repeat split; vm_compute; reflexivity. Qed.

(** ** smartMerge, end to end *)

Section SmartMergeFacts.
Context `{Host}.
Implicit Types (w : World) (localFilePath currentUser : string).

Lemma stampFolders_run (names : list string) w :
  exists stamped w',
    SyncService.stampFolders names w = (Ok stamped, w') /\
    List.map Folder.name stamped = names /\
    files w' = files w /\ config w' = config w /\
    syncInProgress w' = syncInProgress w.
Proof.
  revert w. induction names as [|name rest IH]; intros w; simpl.
  - exists [], w. repeat split.
  - run. destruct (IH (set_ticks (S (ticks w)) w))
      as (stamped & w' & -> & Hnames & Hf & Hc & Hb).
    exists (Folder.mk name (Date_clock (ticks w)) :: stamped), w'.
    simpl. rewrite Hnames. repeat split; assumption.
Qed.

Lemma uploadToCloud_keeps_files w localFilePath currentUser :
  exists b w',
    SyncService.uploadToCloud localFilePath currentUser w = (Ok b, w') /\
    files w' = files w.
Proof.
  rewrite uploadToCloud_cases.
  destruct (provider (config w)); [exists false, w; split; reflexivity | ..];
    (destruct (syncInProgress w);
     [eexists _, _; split; reflexivity|]);
    (destruct (SyncService.uploadAttempt _ _ _) as [[b|e] w1] eqn:Hup;
     apply uploadAttempt_keeps in Hup as [_ Hf];
     eexists _, _; (split; [reflexivity | exact Hf])).
Qed.

(** When the download yields a document and the local file holds one,
    [smartMerge] writes to the local file the document whose notes are
    [mergedNotes] of the two and whose folders bear the names of
    [allFolders]. *)
Lemma smartMerge_writes_merged w localFilePath currentUser
      (localDoc cloudDoc : EncryptedStorage.t) (w1 : World) :
  SyncService.downloadAttempt (SyncService.fileNameOf currentUser) w
  = (Ok (Some (JsonObject cloudDoc)), w1) ->
  files w1 !! localFilePath = Some (JsonObject localDoc) ->
  exists stamped w',
    SyncService.smartMerge localFilePath currentUser w = (Ok tt, w') /\
    List.map Folder.name stamped
    = SyncService.allFolders (EncryptedStorage.folders localDoc)
                             (EncryptedStorage.folders cloudDoc) /\
    files w' !! localFilePath
    = Some (JsonObject
              (EncryptedStorage.mk stamped
                 (SyncService.mergedNotes (EncryptedStorage.notes localDoc)
                                          (EncryptedStorage.notes cloudDoc)))).
Proof.
  intros Hdown Hlocal.
  unfold SyncService.smartMerge, try_catch, bind at 1. rewrite Hdown. simpl.
  unfold bind at 1, SyncService.readFileSync, bind at 1, get. rewrite Hlocal.
  unfold ret at 1. simpl. unfold bind at 1, ret at 1. simpl.
  destruct (stampFolders_run
              (SyncService.allFolders (EncryptedStorage.folders localDoc)
                                      (EncryptedStorage.folders cloudDoc)) w1)
    as (stamped & w2 & Hstamp & Hnames & Hf2 & _).
  unfold bind. run. rewrite Hstamp.
  unfold SyncService.writeFileSync. run.
  match goal with
  | |- context [SyncService.uploadToCloud ?p ?u ?w0] =>
      destruct (uploadToCloud_keeps_files w0 p u) as (b & w3 & -> & Hf3)
  end.
  exists stamped. eexists. split; [reflexivity|]. split; [exact Hnames|].
  simpl. rewrite Hf3. simpl. apply lookup_insert_eq.
Qed.
End SmartMergeFacts.

(** A run over WebDAV: the cloud holds a later version of note "1" and a
    note "2" the local file lacks; the local file holds a note "3" of its
    own.  After [smartMerge] the local file holds the cloud's "1" where the
    local one stood, then "3", then "2". *)
Example smartMerge_run :
  let l1 := EncryptedNote.mk "1" (Some "x") "tl" "cl" 1 100 in
  let l3 := EncryptedNote.mk "3" (Some "y") "t3" "c3" 3 30 in
  let r1 := EncryptedNote.mk "1" (Some "x") "tr" "cr" 1 200 in
  let r2 := EncryptedNote.mk "2" (Some "x") "t2" "c2" 2 50 in
  let localDoc := EncryptedStorage.mk [Folder.mk "y" 3] [l1; l3] in
  let cloudDoc := EncryptedStorage.mk [Folder.mk "x" 1] [r1; r2] in
  let w :=
    set_files {[ "/notes/notes_alice.encrypted" := JsonObject localDoc ]}
      (webdav_world
         [Responded (mkResponse true 200 "OK" (JsonObject cloudDoc) None);
          Responded (mkResponse true 201 "Created" (Unparseable "") None)]) in
  let w' := snd (SyncService.smartMerge (H := XorHost.host)
                   "/notes/notes_alice.encrypted" "alice" w) in
  files w' !! "/notes/notes_alice.encrypted"
  = Some (JsonObject
            (EncryptedStorage.mk
               [Folder.mk "y" 1700000000000; Folder.mk "x" 1700000000001]
               [r1; l3; r2])) /\
  syncInProgress w' = false /\ network w' = [].
Proof. repeat split; vm_compute; reflexivity. Qed.

(** * Further properties of the code *)

(** ** The session *)

Section SessionFacts.
Context `{Host}.
Implicit Types (w : World).

Lemma logout_run w :
  EncryptionService.logout w =
    (Ok tt,
     match currentUser (session w) with
     | Some u =>
         if truthy u
         then set_session (mkSession None (delete u (userPasswords (session w)))) w
         else w
     | None => w
     end).
Proof. reflexivity. Qed.


End SessionFacts.



(** X2.  [logout] removes the password of the current user only.  When [b]
    logs in while [a] is logged in, and then logs out, nobody is logged in
    and the password of [a] is still in [userPasswords]. *)
Theorem logout_keeps_other_passwords
        (w : World) (a pa b pb : string) :
  a <> b -> b <> "" ->
  let w' :=
    snd (EncryptionService.logout
           (snd (EncryptionService.setCurrentUser b pb
                   (snd (EncryptionService.setCurrentUser a pa w))))) in
  currentUser (session w') = None /\
  userPasswords (session w') !! a = Some pa /\
  userPasswords (session w') !! b = None.
Proof.
  intros Hab Hb w'. unfold w'. rewrite logout_run. simpl.
  rewrite (truthy_nonempty b Hb). simpl.
  split; [reflexivity|]. split.
  - rewrite lookup_delete_ne by congruence.
    rewrite lookup_insert_ne by congruence. apply lookup_insert_eq.
  - apply lookup_delete_eq.
Qed.

Lemma logout_keeps_other_passwords_witness :
  let w' :=
    snd (EncryptionService.logout
           (snd (EncryptionService.setCurrentUser "bob" "k2" alice_world))) in
  currentUser (session w') = None /\
  userPasswords (session w') !! "alice" = Some "k1".
Proof.
  destruct (logout_keeps_other_passwords XorHost.fresh "alice" "k1" "bob" "k2")
    as (Hnone & Ha & _); [discriminate | discriminate |].
  split; [exact Hnone | exact Ha].
Defined.

(** ** Reading and writing, with the whole world accounted for *)

Section WorldFacts.
Context `{Host}.
Implicit Types (w : World).

Lemma talks_refl w : talks w w.
Proof. exists (shown w). destruct w; reflexivity. Qed.

Lemma talks_trans w1 w2 w3 : talks w1 w2 -> talks w2 w3 -> talks w1 w3.
Proof. intros [l1 ->] [l2 ->]. exists l2. reflexivity. Qed.

Lemma talks_show w (m : Message) : talks w (set_shown (shown w ++ [m]) w).
Proof. eexists; reflexivity. Qed.

Lemma talks_same_store w w' : talks w w' -> same_store w w'.
Proof. intros [l ->]. repeat split. Qed.

Lemma talks_fields w w' :
  talks w w' ->
  files w' = files w /\ session w' = session w /\ ticks w' = ticks w /\
  draws w' = draws w /\ network w' = network w /\ config w' = config w /\
  syncInProgress w' = syncInProgress w /\ secrets w' = secrets w.
Proof. intros [l ->]. repeat split. Qed.

Lemma writes_storedDocument w w' (doc : EncryptedStorage.t) :
  writes w w' doc -> storedDocument w' = doc.
Proof.
  intros (Hs & Hp & Hf). unfold storedDocument, storageFileOf.
  rewrite Hs, Hp, Hf. fold (storageFileOf w). rewrite lookup_insert_eq. reflexivity.
Qed.


Lemma writes_sessionKey w w' (doc : EncryptedStorage.t) :
  writes w w' doc -> sessionKey w' = sessionKey w /\ unlocked w' = unlocked w.
Proof. intros (Hs & _). unfold sessionKey, unlocked. rewrite Hs. split; reflexivity. Qed.

Lemma loadStorage_talks w :
  exists w', NotesManager.loadStorage w = (Ok (storedDocument w), w') /\ talks w w'.
Proof.
  unfold NotesManager.loadStorage, NotesManager.getStorageFile,
    EncryptionService.getCurrentUser, storedDocument.
  run. fold (storageFileOf w).
  destruct (files w !! storageFileOf w) as [[raw|arr|doc]|];
    eexists; (split; [reflexivity |]);
    first [apply talks_refl | apply talks_show].
Qed.

Lemma decryptEach_talks (es : list EncryptedNote.t) (acc : list Note.t) w :
  exists w', NotesManager.decryptEach es acc w
             = (Ok (acc ++ omap (readable (sessionKey w)) es), w') /\
             talks w w'.
Proof.
  revert acc w. induction es as [|e rest IH]; intros acc w; simpl.
  - exists w. rewrite app_nil_r. split; [reflexivity | apply talks_refl].
  - unfold bind at 1. unfold try_catch, bind at 1.
    rewrite decryptNote_run. unfold readable at 1.
    destruct (noteOutcome (sessionKey w) e) as [n|err]; run.
    + destruct (IH (acc ++ [n]) w) as (w' & -> & Htalks).
      exists w'. rewrite <- app_assoc. split; [reflexivity | exact Htalks].
    + destruct (IH acc (set_shown (shown w ++ [ConsoleError "decrypt failed"]) w))
        as (w' & -> & Htalks).
      exists w'. split; [reflexivity|].
      exact (talks_trans _ _ _ (talks_show w _) Htalks).
Qed.

Lemma getAllNotes_talks w :
  exists w', NotesManager.getAllNotes w = (Ok (listing w), w') /\ talks w w'.
Proof.
  unfold NotesManager.getAllNotes, bind, listing. rewrite hasPassword_run.
  destruct (unlocked w); simpl.
  - destruct (loadStorage_talks w) as (w1 & -> & Ht1).
    destruct (decryptEach_talks (EncryptedStorage.notes (storedDocument w)) [] w1)
      as (w2 & -> & Ht2).
    exists w2. simpl. unfold visible.
    rewrite (sessionKey_same w w1 (talks_same_store _ _ Ht1)).
    split; [reflexivity | exact (talks_trans _ _ _ Ht1 Ht2)].
  - exists w. split; [reflexivity | apply talks_refl].
Qed.

(** What [getNote] returns in a world. *)
Lemma getNote_result w (id : string) :
  fst (NotesManager.getNote id w)
  = if unlocked w then
      match List.find (fun x => EncryptedNote.id x =? id)
                      (EncryptedStorage.notes (storedDocument w)) with
      | None => Ok None
      | Some e =>
          match readable (sessionKey w) e with
          | Some n => Ok (Some n)
          | None => Throw DecryptFailed
          end
      end
    else Ok None.
Proof. destruct (getNote_run w id) as (w' & -> & _). reflexivity. Qed.

Lemma getNote_talks w (id : string) :
  exists r w', NotesManager.getNote id w = (r, w') /\ talks w w'.
Proof.
  unfold NotesManager.getNote, bind. rewrite hasPassword_run.
  destruct (unlocked w); simpl.
  - destruct (loadStorage_talks w) as (w1 & -> & Ht1).
    destruct (List.find _ _) as [e|].
    + unfold try_catch, bind. rewrite decryptNote_run.
      destruct (noteOutcome (sessionKey w1) e); run;
        eexists _, _; (split; [reflexivity | exact Ht1]).
    + eexists _, _. split; [reflexivity | exact Ht1].
  - eexists _, _. split; [reflexivity | apply talks_refl].
Qed.

Lemma getFolders_talks w :
  exists w', NotesManager.getFolders w
             = (Ok (EncryptedStorage.folders (storedDocument w)), w') /\
             talks w w'.
Proof.
  unfold NotesManager.getFolders, bind.
  destruct (loadStorage_talks w) as (w1 & -> & Ht1).
  exists w1. split; [reflexivity | exact Ht1].
Qed.
End WorldFacts.

(** ** What each method of NotesManager does to the world *)

Section EffectFacts.
Context `{Host}.
Implicit Types (w : World) (id name title content folder : string).

Lemma createFolder_effect w name :
  exists r w', NotesManager.createFolder name w = (r, w') /\
    if existsb (fun f => Folder.name f =? name)
               (EncryptedStorage.folders (storedDocument w))
    then r = Throw FolderExists /\ talks w w'
    else r = Ok tt /\
         writes w w' (withFolder (Folder.mk name (Date_clock (ticks w)))
                                 (storedDocument w)).
Proof.
  unfold NotesManager.createFolder, bind.
  destruct (loadStorage_talks w) as (w1 & -> & [l ->]).
  destruct (existsb _ _).
  - eexists _, _. split; [reflexivity|]. split; [reflexivity | eexists; reflexivity].
  - eexists _, _. split; [reflexivity|]. split; [reflexivity | repeat split].
Qed.

Lemma deleteFolder_effect w name :
  exists w', NotesManager.deleteFolder name w = (Ok tt, w') /\
             writes w w' (withoutFolder name (storedDocument w)).
Proof.
  unfold NotesManager.deleteFolder, bind.
  destruct (loadStorage_talks w) as (w1 & -> & [l ->]).
  eexists. split; [reflexivity | repeat split].
Qed.

Lemma deleteNote_effect w id :
  exists w', NotesManager.deleteNote id w = (Ok tt, w') /\
             writes w w' (withoutNote id (storedDocument w)).
Proof.
  unfold NotesManager.deleteNote, bind.
  destruct (loadStorage_talks w) as (w1 & -> & [l ->]).
  eexists. split; [reflexivity | repeat split].
Qed.

Lemma updateNote_effect w id title content :
  exists r w', NotesManager.updateNote id title content w = (r, w') /\
    if unlocked w then
      match findNote id (storedDocument w) with
      | None => r = Ok tt /\ talks w w'
      | Some e =>
          match sessionKey w with
          | None => r = Throw NoPasswordSet /\ same_store w w'
          | Some k =>
              r = Ok tt /\
              writes w w'
                (withUpdate id
                   (AES_encrypt (salt_source (draws w)) title k)
                   (AES_encrypt (salt_source (S (draws w))) content k)
                   (Date_clock (ticks w)) (storedDocument w))
          end
      end
    else r = Throw PasswordRequired /\ w' = w.
Proof.
  unfold NotesManager.updateNote, bind. rewrite hasPassword_run. simpl.
  destruct (unlocked w); simpl; [|eexists _, _; repeat split].
  destruct (loadStorage_talks w) as (w1 & -> & [l ->]).
  unfold findNote.
  destruct (List.find _ _) as [e|];
    [|eexists _, _; split; [reflexivity|]; split; [reflexivity | eexists; reflexivity]].
  unfold EncryptionService.encrypt, bind. rewrite activePassword_run.
  change (sessionKey (set_shown l w)) with (sessionKey w).
  destruct (sessionKey w) as [k|] eqn:Hk;
    [|eexists _, _; split; [reflexivity|]; split; [reflexivity | repeat split]].
  run. rewrite activePassword_run.
  change (sessionKey (set_draws _ (set_shown l w))) with (sessionKey w).
  rewrite Hk. simpl.
  eexists _, _. split; [reflexivity|]. split; [reflexivity | repeat split].
Qed.
End EffectFacts.

Section CreateEffect.
Context `{Host}.
Implicit Types (w : World) (id name title content folder : string).

(** The stored note [createNote] appends in a world with key [k]. *)
Lemma createNote_effect w title content folder :
  exists r w', NotesManager.createNote title content folder w = (r, w') /\
    if unlocked w then
      match List.find (sameTitle folder title) (visible w) with
      | Some dup => r = Throw (DuplicateTitle folder title) /\ talks w w'
      | None =>
          match sessionKey w with
          | None => r = Throw NoPasswordSet /\ same_store w w'
          | Some k =>
              r = Ok (Note.mk (pretty (Date_clock (ticks w))) folder title content
                              (Date_clock (S (ticks w)))
                              (Date_clock (S (S (ticks w))))) /\
              writes w w'
                (withNote
                   (EncryptedNote.mk (pretty (Date_clock (ticks w))) (Some folder)
                      (AES_encrypt (salt_source (draws w)) title k)
                      (AES_encrypt (salt_source (S (draws w))) content k)
                      (Date_clock (S (ticks w))) (Date_clock (S (S (ticks w)))))
                   (storedDocument w))
          end
      end
    else r = Throw PasswordRequired /\ w' = w.
Proof.
  unfold NotesManager.createNote, bind. rewrite hasPassword_run. simpl.
  destruct (unlocked w) eqn:Hun; simpl; [|eexists _, _; repeat split].
  destruct (getAllNotes_talks w) as (w1 & -> & [l ->]).
  unfold listing. rewrite Hun. fold (sameTitle folder title).
  destruct (List.find _ _) as [dup|];
    [eexists _, _; split; [reflexivity|]; split; [reflexivity | eexists; reflexivity]|].
  unfold Date_now. simpl.
  unfold EncryptionService.encrypt, bind. rewrite activePassword_run.
  match goal with
  | |- context [sessionKey ?w2] => change (sessionKey w2) with (sessionKey w)
  end.
  destruct (sessionKey w) as [k|] eqn:Hk;
    [|eexists _, _; split; [reflexivity|]; split; [reflexivity | repeat split]].
  run. rewrite activePassword_run.
  match goal with
  | |- context [sessionKey ?w2] => change (sessionKey w2) with (sessionKey w)
  end.
  rewrite Hk. simpl.
  match goal with
  | |- context [NotesManager.loadStorage ?w4] =>
      destruct (loadStorage_talks w4) as (w5 & -> & [l5 ->]);
      change (storedDocument w4) with (storedDocument w)
  end.
  eexists _, _. split; [reflexivity|]. split; [reflexivity | repeat split].
Qed.
End CreateEffect.

(** ** Lookups in the stored notes *)

Section FindFacts.
Implicit Types (id : string) (notes : list EncryptedNote.t) (e : EncryptedNote.t).

Lemma find_id_None id notes :
  List.find (fun n => EncryptedNote.id n =? id) notes = None <-> id ∉ ids notes.
Proof.
  induction notes as [|a rest IH]; simpl.
  - split; [intros _; apply not_elem_of_nil | reflexivity].
  - rewrite not_elem_of_cons.
    destruct (String.eqb_spec (EncryptedNote.id a) id) as [Heq|Hne].
    + split; [discriminate | intros [Hn _]; congruence].
    + split.
      * intros Hf. split; [congruence | apply IH; exact Hf].
      * intros [_ Hn]. apply IH. exact Hn.
Qed.

Lemma find_id_Some id notes e :
  List.find (fun n => EncryptedNote.id n =? id) notes = Some e ->
  EncryptedNote.id e = id /\ e ∈ notes.
Proof.
  intros Hf. apply List.find_some in Hf as [Hin Heq].
  split; [apply String.eqb_eq; exact Heq | apply list_elem_of_In; exact Hin].
Qed.

Lemma find_assignFirst_same id notes (f : EncryptedNote.t -> EncryptedNote.t) :
  (forall n, EncryptedNote.id (f n) = EncryptedNote.id n) ->
  List.find (fun n => EncryptedNote.id n =? id) (NotesManager.assignFirst id f notes)
  = option_map f (List.find (fun n => EncryptedNote.id n =? id) notes).
Proof.
  intros Hid. induction notes as [|a rest IH]; simpl; [reflexivity|].
  destruct (EncryptedNote.id a =? id) eqn:E; simpl.
  - rewrite Hid, E. reflexivity.
  - rewrite E. exact IH.
Qed.

Lemma find_assignFirst_other id id' notes (f : EncryptedNote.t -> EncryptedNote.t) :
  (forall n, EncryptedNote.id (f n) = EncryptedNote.id n) -> id' <> id ->
  List.find (fun n => EncryptedNote.id n =? id') (NotesManager.assignFirst id f notes)
  = List.find (fun n => EncryptedNote.id n =? id') notes.
Proof.
  intros Hid Hne. induction notes as [|a rest IH]; simpl; [reflexivity|].
  destruct (String.eqb_spec (EncryptedNote.id a) id) as [Ha|Ha]; simpl.
  - rewrite Hid.
    destruct (String.eqb_spec (EncryptedNote.id a) id'); [congruence | reflexivity].
  - destruct (EncryptedNote.id a =? id'); [reflexivity | exact IH].
Qed.



End FindFacts.

Section SourceLevel.
Context `{Host}.
Implicit Types (w : World).

Lemma loadStorage_result w : fst (NotesManager.loadStorage w) = Ok (storedDocument w).
Proof. destruct (loadStorage_run w) as (w' & -> & _). reflexivity. Qed.

Lemma hasPassword_result w : fst (EncryptionService.hasPassword w) = Ok (unlocked w).
Proof. reflexivity. Qed.

Lemma getFolders_result w :
  fst (NotesManager.getFolders w) = Ok (EncryptedStorage.folders (storedDocument w)).
Proof. destruct (getFolders_talks w) as (w' & -> & _). reflexivity. Qed.

Lemma getStorageFile_result w : fst (NotesManager.getStorageFile w) = Ok (storageFileOf w).
Proof. reflexivity. Qed.


Lemma writes_getNote w w' (doc : EncryptedStorage.t) (id : string) :
  writes w w' doc ->
  fst (NotesManager.getNote id w')
  = if unlocked w then
      match findNote id doc with
      | None => Ok None
      | Some e =>
          match readable (sessionKey w) e with
          | Some n => Ok (Some n)
          | None => Throw DecryptFailed
          end
      end
    else Ok None.
Proof.
  intros Hw. rewrite getNote_result.
  destruct (writes_sessionKey w w' doc Hw) as [-> ->].
  rewrite (writes_storedDocument w w' doc Hw). reflexivity.
Qed.

Lemma writes_listing w w' (doc : EncryptedStorage.t) :
  writes w w' doc ->
  listing w' = if unlocked w
               then omap (readable (sessionKey w)) (EncryptedStorage.notes doc)
               else [].
Proof.
  intros Hw. unfold listing, visible.
  destruct (writes_sessionKey w w' doc Hw) as [-> ->].
  rewrite (writes_storedDocument w w' doc Hw). reflexivity.
Qed.

Lemma same_store_getNote w w' (id : string) :
  same_store w w' -> fst (NotesManager.getNote id w') = fst (NotesManager.getNote id w).
Proof.
  intros Hs. rewrite !getNote_result.
  rewrite (unlocked_same w w' Hs), (sessionKey_same w w' Hs),
    (storedDocument_same w w' Hs). reflexivity.
Qed.
End SourceLevel.

(** ** Folders *)

Section FolderFacts.
Context `{Host}.
Implicit Types (w : World) (name : string).

Lemma existsb_folder_name name (folders : list Folder.t) :
  existsb (fun f => Folder.name f =? name) folders = true
  <-> name ∈ List.map Folder.name folders.
Proof.
  rewrite List.existsb_exists, list_elem_of_In, List.in_map_iff. split.
  - intros (f & Hin & Heq). apply String.eqb_eq in Heq. exists f. split; assumption.
  - intros (f & Heq & Hin). exists f. split; [exact Hin | apply String.eqb_eq; exact Heq].
Qed.

Lemma withFolder_names_NoDup (f : Folder.t) (doc : EncryptedStorage.t) :
  Folder.name f ∉ folderNames doc -> NoDup (folderNames doc) ->
  NoDup (folderNames (withFolder f doc)).
Proof.
  intros Hnew Hnd. unfold folderNames, withFolder. simpl.
  rewrite List.map_app. simpl. apply NoDup_app.
  split; [exact Hnd | split; [|apply NoDup_singleton]].
  intros x Hx Hx'. apply list_elem_of_singleton in Hx'. subst x. contradiction.
Qed.

Lemma withoutFolder_names_NoDup name (doc : EncryptedStorage.t) :
  NoDup (folderNames doc) -> NoDup (folderNames (withoutFolder name doc)).
Proof.
  unfold folderNames, withoutFolder. simpl.
  induction (EncryptedStorage.folders doc) as [|f rest IH]; simpl; intros Hnd.
  - constructor.
  - apply NoDup_cons in Hnd as [Hf Hnd].
    destruct (negb (Folder.name f =? name)); simpl; [|apply IH; exact Hnd].
    apply NoDup_cons. split; [|apply IH; exact Hnd].
    intros Hin. apply Hf.
    apply list_elem_of_In, List.in_map_iff in Hin as (g & Hg & Hin).
    apply List.filter_In in Hin as [Hin _].
    apply list_elem_of_In, List.in_map_iff. exists g. split; assumption.
Qed.

(** A call keeps the session and the storage path, and leaves the stored
    document as it was or writes one of the five documents. *)
Lemma perform_effect (c : Call) w :
  same_store w (perform c w) \/
  exists doc, writes w (perform c w) doc /\
    ((exists f, doc = withFolder f (storedDocument w) /\
                Folder.name f ∉ folderNames (storedDocument w)) \/
     (exists name, doc = withoutFolder name (storedDocument w)) \/
     EncryptedStorage.folders doc = EncryptedStorage.folders (storedDocument w)).
Proof.
  destruct c as [name|name|title content folder|id title content|id]; simpl.
  - destruct (createFolder_effect w name) as (r & w' & -> & Hcase). simpl.
    destruct (existsb _ _) eqn:Hex.
    + left. apply talks_same_store, Hcase.
    + right. eexists. split; [apply Hcase|]. left. eexists. split; [reflexivity|].
      simpl. intros Hin. apply existsb_folder_name in Hin. congruence.
  - destruct (deleteFolder_effect w name) as (w' & -> & Hw). simpl.
    right. eexists. split; [exact Hw|]. right. left. eexists. reflexivity.
  - destruct (createNote_effect w title content folder) as (r & w' & -> & Hcase).
    simpl. destruct (unlocked w); [|destruct Hcase as [_ ->]; left; apply same_store_refl].
    destruct (List.find _ _); [left; apply talks_same_store, Hcase|].
    destruct (sessionKey w); [|left; apply Hcase].
    right. eexists. split; [apply Hcase|]. right. right. reflexivity.
  - destruct (updateNote_effect w id title content) as (r & w' & -> & Hcase).
    simpl. destruct (unlocked w); [|destruct Hcase as [_ ->]; left; apply same_store_refl].
    destruct (findNote _ _); [|left; apply talks_same_store, Hcase].
    destruct (sessionKey w); [|left; apply Hcase].
    right. eexists. split; [apply Hcase|]. right. right. reflexivity.
  - destruct (deleteNote_effect w id) as (w' & -> & Hw). simpl.
    right. eexists. split; [exact Hw|]. right. right. reflexivity.
Qed.

Lemma perform_keeps_names_distinct (c : Call) w :
  NoDup (folderNames (storedDocument w)) ->
  NoDup (folderNames (storedDocument (perform c w))).
Proof.
  intros Hnd. destruct (perform_effect c w) as [Hs | (doc & Hw & Hdoc)].
  - rewrite (storedDocument_same w _ Hs). exact Hnd.
  - rewrite (writes_storedDocument w _ doc Hw).
    destruct Hdoc as [(f & -> & Hnew) | [(name & ->) | Hsame]].
    + apply withFolder_names_NoDup; assumption.
    + apply withoutFolder_names_NoDup; exact Hnd.
    + unfold folderNames. rewrite Hsame. exact Hnd.
Qed.

Lemma performAll_keeps_names_distinct (calls : list Call) w :
  NoDup (folderNames (storedDocument w)) ->
  NoDup (folderNames (storedDocument (performAll calls w))).
Proof.
  revert w. induction calls as [|c rest IH]; intros w Hnd; simpl; [exact Hnd|].
  apply IH, perform_keeps_names_distinct, Hnd.
Qed.
End FolderFacts.


(** X4.  The folder names of the stored document stay distinct: when
    [getFolders] returns no name twice, it returns no name twice after any
    sequence of [createFolder], [deleteFolder], [createNote], [updateNote]
    and [deleteNote] calls, whatever each call returned or threw. *)
Theorem folder_names_stay_distinct `{Host}
        (w : World) (calls : list Call) (folders0 : list Folder.t) :
  fst (NotesManager.getFolders w) = Ok folders0 ->
  NoDup (List.map Folder.name folders0) ->
  exists folders1,
    fst (NotesManager.getFolders (performAll calls w)) = Ok folders1 /\
    NoDup (List.map Folder.name folders1).
Proof.
  intros Hget Hnd. rewrite getFolders_result in Hget. injection Hget as <-.
  exists (EncryptedStorage.folders (storedDocument (performAll calls w))).
  split; [apply getFolders_result|].
  apply (performAll_keeps_names_distinct calls w Hnd).
Qed.

Lemma folder_names_stay_distinct_witness :
  exists folders1,
    fst (NotesManager.getFolders
           (performAll (H := XorHost.host)
              [CreateFolder "a"; CreateFolder "b"; CreateFolder "a";
               CreateNote "t" "c" "a"; DeleteFolder "b"; CreateFolder "b"]
              alice_world))
    = Ok folders1 /\
    NoDup (List.map Folder.name folders1).
Proof.
  apply (folder_names_stay_distinct (H := XorHost.host) alice_world _ []).
  - vm_compute. reflexivity.
  - constructor.
Defined.

(** ** Notes: update, delete, create and read back *)

Section NoteFacts.
Context `{Host}.
Implicit Types (w : World) (id title content folder : string).

Lemma reencrypted_id (c1 c2 : string) (now : Z) (n : EncryptedNote.t) :
  EncryptedNote.id (reencrypted c1 c2 now n) = EncryptedNote.id n.
Proof. reflexivity. Qed.

(** What the readers make of a stored note whose fields were encrypted
    under the key. *)
Lemma readable_encrypted (k title content : string) (salt1 salt2 : Salt)
      (id : string) (fld : option string) (tc tu : Z) :
  readable (Some k)
    (EncryptedNote.mk id fld (AES_encrypt salt1 title k)
                      (AES_encrypt salt2 content k) tc tu)
  = if truthy title && truthy content
    then Some (Note.mk id
                 (NotesManager.folderOrDefault
                    (EncryptedNote.mk id fld "" "" tc tu))
                 title content tc tu)
    else None.
Proof.
  unfold readable, noteOutcome, decryptOutcome. simpl.
  rewrite !AES_roundtrip.
  destruct (truthy title); [|reflexivity].
  destruct (truthy content); reflexivity.
Qed.

End NoteFacts.

(** X5.  [updateNote] on an id no stored note has returns normally and does
    nothing: no file changes, nothing is encrypted and the clock is not
    read. *)
Theorem updateNote_unknown_id_is_silent `{Host}
        (w : World) (id title content : string) (doc : EncryptedStorage.t) :
  fst (EncryptionService.hasPassword w) = Ok true ->
  fst (NotesManager.loadStorage w) = Ok doc ->
  id ∉ ids (EncryptedStorage.notes doc) ->
  exists w', NotesManager.updateNote id title content w = (Ok tt, w') /\
             files w' = files w /\ draws w' = draws w /\ ticks w' = ticks w.
Proof.
  intros Hun Hdoc Hnew.
  rewrite hasPassword_result in Hun. injection Hun as Hun.
  rewrite loadStorage_result in Hdoc. injection Hdoc as <-.
  destruct (updateNote_effect w id title content) as (r & w' & Hrun & Hcase).
  rewrite Hun in Hcase. unfold findNote in Hcase.
  apply find_id_None in Hnew. rewrite Hnew in Hcase.
  destruct Hcase as [-> Ht]. exists w'. split; [exact Hrun|].
  destruct (talks_fields w w' Ht) as (Hf & _ & Htk & Hd & _).
  repeat split; assumption.
Qed.

Lemma updateNote_unknown_id_is_silent_witness :
  exists w',
    NotesManager.updateNote (H := XorHost.host) "42" "t" "c"
      (alice_file (JsonObject (EncryptedStorage.mk [] [folderless_note])))
    = (Ok tt, w') /\
    files w' = files (alice_file (JsonObject (EncryptedStorage.mk [] [folderless_note]))).
Proof.
  destruct (updateNote_unknown_id_is_silent (H := XorHost.host)
              (alice_file (JsonObject (EncryptedStorage.mk [] [folderless_note])))
              "42" "t" "c" (EncryptedStorage.mk [] [folderless_note]))
    as (w' & Hrun & Hf & _).
  - vm_compute. reflexivity.
  - vm_compute. reflexivity.
  - apply (bool_decide_unpack _). vm_compute. exact I.
  - exists w'. split; assumption.
Defined.

(** X6.  After [updateNote(id, title, content)] with a key, for an id some
    stored note has and a title and content that are not empty, [getNote(id)]
    returns the note with the new title and content, its id, folder and
    [createdAt] as before and [updatedAt] the clock reading; [getNote] of
    every other id returns what it returned before. *)
Theorem updateNote_then_getNote `{Host}
        (w : World) (u k id title content : string)
        (doc : EncryptedStorage.t) (e : EncryptedNote.t) :
  keyed w u k ->
  fst (NotesManager.loadStorage w) = Ok doc ->
  List.find (fun n => EncryptedNote.id n =? id) (EncryptedStorage.notes doc) = Some e ->
  title <> "" -> content <> "" ->
  let w' := snd (NotesManager.updateNote id title content w) in
  fst (NotesManager.updateNote id title content w) = Ok tt /\
  fst (NotesManager.getNote id w')
  = Ok (Some (Note.mk id (NotesManager.folderOrDefault e) title content
                      (EncryptedNote.createdAt e) (Date_clock (ticks w)))) /\
  (forall id', id' <> id ->
     fst (NotesManager.getNote id' w') = fst (NotesManager.getNote id' w)).
Proof.
  intros Hk Hdoc Hfind Ht Hc w'.
  rewrite loadStorage_result in Hdoc. injection Hdoc as <-.
  destruct (updateNote_effect w id title content) as (r & w1 & Hrun & Hcase).
  unfold w'. rewrite Hrun. simpl. clear w'.
  rewrite (keyed_unlocked w u k Hk), (keyed_sessionKey w u k Hk) in Hcase.
  unfold findNote in Hcase. rewrite Hfind in Hcase. destruct Hcase as [-> Hw].
  split; [reflexivity|].
  destruct (find_id_Some id _ e Hfind) as [Hid _].
  split.
  - rewrite (writes_getNote w w1 _ id Hw).
    rewrite (keyed_unlocked w u k Hk), (keyed_sessionKey w u k Hk).
    unfold findNote, withUpdate. simpl.
    rewrite (find_assignFirst_same id _ _ (reencrypted_id _ _ _)), Hfind. simpl.
    unfold reencrypted. rewrite readable_encrypted.
    rewrite (truthy_nonempty title Ht), (truthy_nonempty content Hc), Hid.
    reflexivity.
  - intros id' Hne. rewrite (writes_getNote w w1 _ id' Hw), getNote_result.
    unfold findNote, withUpdate. simpl.
    rewrite (find_assignFirst_other id id' _ _ (reencrypted_id _ _ _) Hne).
    reflexivity.
Qed.

Lemma updateNote_then_getNote_witness :
  let w := alice_file (JsonObject (EncryptedStorage.mk [] [folderless_note])) in
  fst (NotesManager.getNote (H := XorHost.host) "7"
         (snd (NotesManager.updateNote (H := XorHost.host) "7" "shopping" "bread" w)))
  = Ok (Some (Note.mk "7" "default" "shopping" "bread" 10 1700000000000)).
Proof.
  intros w.
  destruct (updateNote_then_getNote (H := XorHost.host) w "alice" "k1" "7"
              "shopping" "bread" (EncryptedStorage.mk [] [folderless_note])
              folderless_note) as (_ & Hget & _).
  - split; [reflexivity | split; [discriminate | vm_compute; reflexivity]].
  - vm_compute. reflexivity.
  - vm_compute. reflexivity.
  - discriminate.
  - discriminate.
  - exact Hget.
Defined.






(** X10.  When the file of the current user holds text that is not JSON, the
    methods that write replace it: after [deleteNote] or [deleteFolder] the
    file holds the empty document, after [createFolder] a document with that
    one folder; the text is gone.  [getAllNotes] and [updateNote] leave the
    file as it is. *)
Theorem write_replaces_unparseable_file `{Host}
        (w : World) (path raw : string) :
  fst (NotesManager.getStorageFile w) = Ok path ->
  files w !! path = Some (Unparseable raw) ->
  (forall id, files (snd (NotesManager.deleteNote id w)) !! path
              = Some (JsonObject (EncryptedStorage.mk [] []))) /\
  (forall name, files (snd (NotesManager.deleteFolder name w)) !! path
                = Some (JsonObject (EncryptedStorage.mk [] []))) /\
  (forall name, files (snd (NotesManager.createFolder name w)) !! path
                = Some (JsonObject
                          (EncryptedStorage.mk
                             [Folder.mk name (Date_clock (ticks w))] []))) /\
  files (snd (NotesManager.getAllNotes w)) !! path = Some (Unparseable raw) /\
  (forall id title content,
     files (snd (NotesManager.updateNote id title content w)) !! path
     = Some (Unparseable raw)).
Proof.
  intros Hpath Hfile. rewrite getStorageFile_result in Hpath. injection Hpath as <-.
  assert (Hdoc : storedDocument w = NotesManager.emptyStorage).
  { unfold storedDocument. rewrite Hfile. reflexivity. }
  split; [|split; [|split; [|split]]].
  - intros id. destruct (deleteNote_effect w id) as (w' & -> & (_ & _ & Hf)).
    simpl. rewrite Hf, lookup_insert_eq, Hdoc. reflexivity.
  - intros name. destruct (deleteFolder_effect w name) as (w' & -> & (_ & _ & Hf)).
    simpl. rewrite Hf, lookup_insert_eq, Hdoc. reflexivity.
  - intros name. destruct (createFolder_effect w name) as (r & w' & -> & Hcase).
    rewrite Hdoc in Hcase. simpl in Hcase.
    destruct Hcase as [_ (_ & _ & Hf)]. simpl. rewrite Hf, lookup_insert_eq.
    reflexivity.
  - destruct (getAllNotes_talks w) as (w' & -> & Ht). simpl.
    destruct (talks_fields w w' Ht) as (-> & _). exact Hfile.
  - intros id title content.
    destruct (updateNote_effect w id title content) as (r & w' & -> & Hcase).
    simpl. rewrite Hdoc in Hcase. simpl in Hcase.
    destruct (unlocked w).
    + destruct Hcase as [_ Ht]. destruct (talks_fields w w' Ht) as (-> & _).
      exact Hfile.
    + destruct Hcase as [_ ->]. exact Hfile.
Qed.

Lemma write_replaces_unparseable_file_witness :
  files (snd (NotesManager.deleteNote "1" (alice_file (Unparseable "{oops"))))
    !! "/notes/notes_alice.encrypted"
  = Some (JsonObject (EncryptedStorage.mk [] [])).
Proof.
  destruct (write_replaces_unparseable_file (H := XorHost.host)
              (alice_file (Unparseable "{oops"))
              "/notes/notes_alice.encrypted" "{oops") as (Hdel & _).
  - vm_compute. reflexivity.
  - vm_compute. reflexivity.
  - apply Hdel.
Defined.

(** ** One file for each user *)

Section IsolationFacts.
Context `{Host}.
Implicit Types (w : World).







End IsolationFacts.





(** ** The login command *)

Section LoginFacts.
Context `{Host}.
Implicit Types (w : World) (username password : string).

Lemma decryptOutcome_Ok_truthy (key : option string) (c p : string) :
  decryptOutcome key c = Ok p -> truthy p = true.
Proof.
  unfold decryptOutcome. destruct key as [k|]; [|discriminate].
  destruct (AES_decrypt_utf8 c k) as [d|]; [|discriminate].
  destruct (truthy d) eqn:E; [intros [= <-]; exact E | discriminate].
Qed.

Lemma loggedIn_keyed w username password :
  username <> "" -> keyed (loggedIn username password w) username password.
Proof.
  intros Hne. split; [reflexivity | split; [exact Hne | apply lookup_insert_eq]].
Qed.

Lemma storedDocument_loggedIn w username password :
  username <> "" ->
  EncryptedStorage.notes (storedDocument (loggedIn username password w))
  = storedNotesOf (files w !! fileOfUser w username).
Proof.
  intros Hne. unfold storedDocument, storageFileOf, fileOfUser, storedNotesOf. simpl.
  rewrite (truthy_nonempty username Hne).
  destruct (files w !! _) as [[raw|arr|doc]|]; reflexivity.
Qed.

(** One invocation of the login command with both boxes answered. *)
Lemma setPassword_effect w username password :
  username <> "" -> password <> "" ->
  exists w', UserCommands.setPassword (Some username) (Some password) w = (Ok tt, w') /\
    match storedNotesOf (files w !! fileOfUser w username) with
    | [] => talks (loggedIn username password w) w'
    | first :: _ =>
        match decryptOutcome (Some password) (EncryptedNote.encryptedTitle first) with
        | Ok _ => talks (loggedIn username password w) w'
        | Throw _ =>
            talks (set_session
                     (mkSession None
                        (delete username
                           (<[username := password]> (userPasswords (session w)))))
                     w) w'
        end
    end.
Proof.
  intros Hu Hp.
  pose proof (storedDocument_loggedIn w username password Hu) as Hnotes.
  match goal with
  | |- exists w', _ = _ /\ ?Q => set (after := fun w' : World => Q)
  end.
  change (exists w', UserCommands.setPassword (Some username) (Some password) w
                     = (Ok tt, w') /\ after w').
  unfold UserCommands.setPassword, UserCommands.userFilePath. simpl.
  rewrite (truthy_nonempty username Hu), (truthy_nonempty password Hp). simpl.
  unfold bind at 1. unfold bind at 1. unfold get at 1, ret at 1. simpl.
  unfold bind at 1, get at 1. simpl. fold (fileOfUser w username).
  destruct (files w !! fileOfUser w username) as [data|] eqn:Hfile.
  - rewrite bool_decide_eq_true_2 by (eexists; reflexivity).
    cbv beta iota.
    unfold try_catch, bind at 1. unfold bind at 1.
    unfold EncryptionService.setCurrentUser, modify. fold (loggedIn username password w).
    destruct (loadStorage_talks (loggedIn username password w)) as (w1 & -> & [l ->]).
    rewrite Hnotes. unfold after. clear after.
    destruct (storedNotesOf (Some data)) as [|first rest].
    + simpl. eexists. split; [reflexivity | eexists; reflexivity].
    + unfold bind at 1. unfold bind at 1. rewrite decrypt_run.
      change (sessionKey (set_shown l (loggedIn username password w)))
        with (sessionKey (loggedIn username password w)).
      rewrite (keyed_sessionKey _ username password (loggedIn_keyed w username password Hu)).
      destruct (decryptOutcome (Some password) (EncryptedNote.encryptedTitle first))
        as [p|err] eqn:Hd.
      * rewrite (decryptOutcome_Ok_truthy _ _ _ Hd). simpl.
        eexists. split; [reflexivity | eexists; reflexivity].
      * simpl. unfold bind, EncryptionService.logout, modify, show. simpl.
        rewrite (truthy_nonempty username Hu).
        eexists. split; [reflexivity | eexists; reflexivity].
  - rewrite bool_decide_eq_false_2 by (apply is_Some_None).
    unfold after. simpl.
    eexists. split; [reflexivity | eexists; reflexivity].
Qed.
End LoginFacts.

Section LoginOutcomes.
Context `{Host}.
Implicit Types (w : World) (username password : string).

Lemma talks_keyed w w' (u k : string) : talks w w' -> keyed w u k -> keyed w' u k.
Proof. intros Ht. apply keyed_same, talks_same_store, Ht. Qed.

Lemma userFilePath_result w username :
  fst (UserCommands.userFilePath username w) = Ok (fileOfUser w username).
Proof. reflexivity. Qed.
End LoginOutcomes.

(** X13.  For a user whose file holds notes, the login command decides on the
    title of the first stored note alone: when that title decrypts under the
    password to text that is not empty the user is logged in with that
    password; when it does not, or decrypts to the empty text, nobody is
    logged in afterwards and the password is dropped. *)
Theorem setPassword_checks_first_title `{Host}
        (w : World) (username password path : string)
        (first : EncryptedNote.t) (rest : list EncryptedNote.t) :
  username <> "" -> password <> "" ->
  fst (UserCommands.userFilePath username w) = Ok path ->
  storedNotesOf (files w !! path) = first :: rest ->
  let w' := snd (UserCommands.setPassword (Some username) (Some password) w) in
  let title := AES_decrypt_utf8 (EncryptedNote.encryptedTitle first) password in
  (forall t, title = Some t -> t <> "" ->
     keyed w' username password /\
     fst (EncryptionService.hasPassword w') = Ok true) /\
  (title = None \/ title = Some "" ->
     currentUser (session w') = None /\
     userPasswords (session w') !! username = None /\
     fst (EncryptionService.hasPassword w') = Ok false).
Proof.
  intros Hu Hp Hpath Hnotes w' title.
  rewrite userFilePath_result in Hpath. injection Hpath as <-.
  destruct (setPassword_effect w username password Hu Hp) as (w1 & Hrun & Hcase).
  unfold w'. rewrite Hrun. cbn [snd]. clear w'.
  rewrite Hnotes in Hcase. unfold decryptOutcome in Hcase. fold title in Hcase.
  split.
  - intros t Ht Hne. rewrite Ht, (truthy_nonempty t Hne) in Hcase.
    pose proof (talks_keyed _ _ _ _ Hcase (loggedIn_keyed w username password Hu)) as Hk.
    split; [exact Hk|].
    rewrite hasPassword_result, (keyed_unlocked w1 username password Hk). reflexivity.
  - intros Hfail.
    assert (Hout : talks (set_session
                     (mkSession None
                        (delete username
                           (<[username := password]> (userPasswords (session w)))))
                     w) w1).
    { destruct Hfail as [Hnone | Hempty].
      - rewrite Hnone in Hcase. exact Hcase.
      - rewrite Hempty in Hcase. exact Hcase. }
    destruct Hout as [l ->]. simpl.
    split; [reflexivity | split; [apply lookup_delete_eq | reflexivity]].
Qed.

Lemma setPassword_checks_first_title_witness :
  let w := set_files {[ "/notes/notes_alice.encrypted" :=
                          JsonObject (EncryptedStorage.mk [] [folderless_note]) ]}
                     XorHost.fresh in
  keyed (snd (UserCommands.setPassword (H := XorHost.host)
                (Some "alice") (Some "k1") w)) "alice" "k1".
Proof.
  intros w.
  destruct (setPassword_checks_first_title (H := XorHost.host) w "alice" "k1"
              "/notes/notes_alice.encrypted" folderless_note [])
    as [Hok _].
  - discriminate.
  - discriminate.
  - reflexivity.
  - vm_compute. reflexivity.
  - apply (Hok "groceries"); [vm_compute; reflexivity | discriminate].
Defined.

(** X14.  For a user with no file, or whose file holds no note or text that
    is not JSON, the login command accepts every password: the user is logged
    in with the password given. *)
Theorem setPassword_accepts_any_password_without_notes `{Host}
        (w : World) (username password path : string) :
  username <> "" -> password <> "" ->
  fst (UserCommands.userFilePath username w) = Ok path ->
  storedNotesOf (files w !! path) = [] ->
  let w' := snd (UserCommands.setPassword (Some username) (Some password) w) in
  keyed w' username password /\
  fst (EncryptionService.hasPassword w') = Ok true /\
  files w' = files w.
Proof.
  intros Hu Hp Hpath Hnotes w'.
  rewrite userFilePath_result in Hpath. injection Hpath as <-.
  destruct (setPassword_effect w username password Hu Hp) as (w1 & Hrun & Hcase).
  unfold w'. rewrite Hrun. cbn [snd]. clear w'.
  rewrite Hnotes in Hcase.
  pose proof (talks_keyed _ _ _ _ Hcase (loggedIn_keyed w username password Hu)) as Hk.
  split; [exact Hk|]. split.
  - rewrite hasPassword_result, (keyed_unlocked w1 username password Hk). reflexivity.
  - destruct Hcase as [l ->]. reflexivity.
Qed.

Lemma setPassword_accepts_any_password_without_notes_witness :
  let w := set_files {[ "/notes/notes_alice.encrypted" := Unparseable "{oops" ]}
                     XorHost.fresh in
  keyed (snd (UserCommands.setPassword (H := XorHost.host)
                (Some "alice") (Some "anything") w)) "alice" "anything".
Proof.
  intros w.
  destruct (setPassword_accepts_any_password_without_notes (H := XorHost.host)
              w "alice" "anything" "/notes/notes_alice.encrypted") as [Hk _].
  - discriminate.
  - discriminate.
  - reflexivity.
  - vm_compute. reflexivity.
  - exact Hk.
Defined.



(** ** Download and merge, end to end *)

Section SyncFacts.
Context `{Host}.
Implicit Types (w : World) (localFilePath currentUser fileName : string).



(** What [downloadFromCloud] returns, by cases. *)
Lemma downloadFromCloud_cases w localFilePath currentUser :
  SyncService.downloadFromCloud localFilePath currentUser w =
    match provider (config w) with
    | ProviderNone => (Ok false, w)
    | _ =>
        if syncInProgress w then
          (Ok false,
           set_shown (shown w ++ [ShowWarningMessage "sync in progress"]) w)
        else
          match SyncService.downloadAttempt (SyncService.fileNameOf currentUser)
                  (set_syncInProgress true w) with
          | (Ok (Some c), w1) =>
              if SyncService.truthy_content c then
                (Ok true,
                 set_syncInProgress false
                   (set_files (<[localFilePath := c]> (files w1)) w1))
              else (Ok false, set_syncInProgress false w1)
          | (Ok None, w1) => (Ok false, set_syncInProgress false w1)
          | (Throw e, w1) =>
              (Ok false,
               set_syncInProgress false
                 (set_shown
                    (shown w1 ++ [ShowErrorMessage "download failed" (Some e)])
                    w1))
          end
    end.
Proof.
  unfold SyncService.downloadFromCloud, SyncService.writeFileSync. run.
  destruct (provider (config w)); try reflexivity;
    destruct (syncInProgress w); try reflexivity;
    destruct (SyncService.downloadAttempt _ _) as [[[c|]|e] w1]; try reflexivity;
    destruct (SyncService.truthy_content c); reflexivity.
Qed.
End SyncFacts.


Section SmartMergeSafety.
Context `{Host}.
Implicit Types (w : World) (localFilePath currentUser : string).


End SmartMergeSafety.


(** ** The merged notes as a set of ids *)

Section MergeInvariants.
Implicit Types (m : JsMap.t EncryptedNote.t) (n l r : EncryptedNote.t).
Implicit Types (localNotes cloudNotes : list EncryptedNote.t) (i : string).

Lemma values_ids_keys m : keyed_by_id m -> ids (JsMap.values m) = JsMap.keys m.
Proof.
  intros [_ Hall]. unfold ids, JsMap.values, JsMap.keys.
  induction m as [|[k v] rest IH]; simpl; [reflexivity|].
  inversion Hall as [|? ? Hkv Hrest]; subst. simpl in Hkv.
  rewrite Hkv, (IH Hrest). reflexivity.
Qed.

Lemma keys_is_Some m i : i ∈ JsMap.keys m <-> is_Some (JsMap.get i m).
Proof.
  destruct (JsMap.get i m) as [v|] eqn:E.
  - split; [intros _; eexists; reflexivity|]. intros _.
    destruct (decide (i ∈ JsMap.keys m)) as [Hin|Hnot]; [exact Hin|].
    apply JsMap_get_None_keys in Hnot. congruence.
  - split; [|intros [x Hx]; discriminate].
    intros Hin. apply JsMap_get_None_keys in E. contradiction.
Qed.

Lemma value_get m n :
  keyed_by_id m -> n ∈ JsMap.values m -> JsMap.get (EncryptedNote.id n) m = Some n.
Proof.
  intros [Hnd Hall] Hin. unfold JsMap.values in Hin.
  induction m as [|[k v] rest IH]; simpl in *; [apply elem_of_nil in Hin; contradiction|].
  inversion Hall as [|? ? Hkv Hrest]; subst. simpl in Hkv.
  apply NoDup_cons in Hnd as [Hk Hnd].
  apply elem_of_cons in Hin as [->|Hin].
  - rewrite Hkv, String.eqb_refl. reflexivity.
  - destruct (String.eqb_spec k (EncryptedNote.id n)) as [Heq|Hne].
    + exfalso. apply Hk. rewrite Heq.
      rewrite <- (values_ids_keys rest (conj Hnd Hrest)).
      apply (list_elem_of_fmap_2 EncryptedNote.id). exact Hin.
    + apply IH; assumption.
Qed.

Lemma get_value m i n :
  keyed_by_id m -> JsMap.get i m = Some n ->
  n ∈ JsMap.values m /\ EncryptedNote.id n = i.
Proof.
  intros [_ Hall]. unfold JsMap.values.
  induction m as [|[k v] rest IH]; simpl; [discriminate|].
  inversion Hall as [|? ? Hkv Hrest]; subst. simpl in Hkv.
  destruct (String.eqb_spec k i) as [Heq|Hne].
  - intros [= <-]. split; [left | congruence].
  - intros Hg. destruct (IH Hrest Hg) as [Hin Hid]. split; [right; exact Hin | exact Hid].
Qed.

Lemma get_seed_from localNotes m i n :
  JsMap.get i (fold_left (fun m note => JsMap.set (EncryptedNote.id note) note m)
                         localNotes m) = Some n ->
  n ∈ localNotes \/ JsMap.get i m = Some n.
Proof.
  revert m. induction localNotes as [|a rest IH]; simpl; intros m Hg.
  - right. exact Hg.
  - destruct (IH _ Hg) as [Hin | Hset]; [left; right; exact Hin|].
    destruct (String.eqb_spec (EncryptedNote.id a) i) as [Heq|Hne].
    + rewrite <- Heq, JsMap_get_set_eq in Hset. injection Hset as <-. left. left.
    + rewrite (JsMap_get_set_ne _ _ _ _ Hne) in Hset. right. exact Hset.
Qed.

Lemma get_seed_covers localNotes m i :
  i ∈ ids localNotes \/ is_Some (JsMap.get i m) ->
  is_Some (JsMap.get i (fold_left
                          (fun m note => JsMap.set (EncryptedNote.id note) note m)
                          localNotes m)).
Proof.
  revert m. induction localNotes as [|a rest IH]; simpl; intros m Hi.
  - destruct Hi as [Hin | Hs]; [apply elem_of_nil in Hin; contradiction | exact Hs].
  - apply IH.
    destruct (String.eqb_spec (EncryptedNote.id a) i) as [Heq|Hne].
    + right. rewrite <- Heq, JsMap_get_set_eq. eexists; reflexivity.
    + destruct Hi as [Hin | Hs].
      * apply elem_of_cons in Hin as [Heq|Hin]; [congruence | left; exact Hin].
      * right. rewrite (JsMap_get_set_ne _ _ _ _ Hne). exact Hs.
Qed.

Lemma get_mergeCloudNote_from m r i n :
  JsMap.get i (SyncService.mergeCloudNote m r) = Some n ->
  n = r \/ JsMap.get i m = Some n.
Proof.
  destruct (String.eqb_spec (EncryptedNote.id r) i) as [Heq|Hne].
  - rewrite <- Heq, get_mergeCloudNote_same.
    destruct (JsMap.get (EncryptedNote.id r) m) as [old|].
    + destruct (_ >? _)%Z; intros [= <-]; [left | right]; reflexivity.
    + intros [= <-]. left. reflexivity.
  - rewrite (get_mergeCloudNote_other m r i Hne). right. assumption.
Qed.

Lemma get_merge_from cloudNotes m i n :
  JsMap.get i (fold_left SyncService.mergeCloudNote cloudNotes m) = Some n ->
  n ∈ cloudNotes \/ JsMap.get i m = Some n.
Proof.
  revert m. induction cloudNotes as [|c rest IH]; simpl; intros m Hg.
  - right. exact Hg.
  - destruct (IH _ Hg) as [Hin | Hstep]; [left; right; exact Hin|].
    destruct (get_mergeCloudNote_from m c i n Hstep) as [-> | Hm];
      [left; left | right; exact Hm].
Qed.

Lemma get_mergeCloudNote_covers m r i :
  EncryptedNote.id r = i \/ is_Some (JsMap.get i m) ->
  is_Some (JsMap.get i (SyncService.mergeCloudNote m r)).
Proof.
  destruct (String.eqb_spec (EncryptedNote.id r) i) as [Heq|Hne]; intros Hi.
  - rewrite <- Heq, get_mergeCloudNote_same.
    destruct (JsMap.get (EncryptedNote.id r) m) as [old|];
      [destruct (_ >? _)%Z|]; eexists; reflexivity.
  - rewrite (get_mergeCloudNote_other m r i Hne).
    destruct Hi as [Heq | Hs]; [contradiction | exact Hs].
Qed.

Lemma get_merge_covers cloudNotes m i :
  i ∈ ids cloudNotes \/ is_Some (JsMap.get i m) ->
  is_Some (JsMap.get i (fold_left SyncService.mergeCloudNote cloudNotes m)).
Proof.
  revert m. induction cloudNotes as [|c rest IH]; simpl; intros m Hi.
  - destruct Hi as [Hin | Hs]; [apply elem_of_nil in Hin; contradiction | exact Hs].
  - apply IH.
    destruct (String.eqb_spec (EncryptedNote.id c) i) as [Heq|Hne].
    + right. apply get_mergeCloudNote_covers. left. exact Heq.
    + destruct Hi as [Hin | Hs].
      * apply elem_of_cons in Hin as [Heq|Hin]; [congruence | left; exact Hin].
      * right. apply get_mergeCloudNote_covers. right. exact Hs.
Qed.
End MergeInvariants.

(** X18.  Whatever the two documents hold, the merged notes have distinct
    ids, each of them is a local note or a cloud note, and their ids are the
    ids of the local notes together with those of the cloud notes: the merge
    makes no note up and drops no id. *)
Theorem mergedNotes_ids
        (localNotes cloudNotes : list EncryptedNote.t) :
  NoDup (ids (SyncService.mergedNotes localNotes cloudNotes)) /\
  (forall n, n ∈ SyncService.mergedNotes localNotes cloudNotes ->
             n ∈ localNotes \/ n ∈ cloudNotes) /\
  (forall i, i ∈ ids (SyncService.mergedNotes localNotes cloudNotes) <->
             i ∈ ids localNotes \/ i ∈ ids cloudNotes).
Proof.
  pose proof (keyed_by_id_merged localNotes cloudNotes) as Hwf.
  unfold SyncService.mergedNotes.
  assert (Hfrom : forall i n,
             JsMap.get i (SyncService.mergedNotesMap localNotes cloudNotes) = Some n ->
             n ∈ localNotes \/ n ∈ cloudNotes).
  { intros i n Hg. unfold SyncService.mergedNotesMap in Hg.
    destruct (get_merge_from _ _ _ _ Hg) as [Hc | Hseed]; [right; exact Hc|].
    unfold SyncService.seedLocal in Hseed.
    destruct (get_seed_from _ _ _ _ Hseed) as [Hl | Hnil];
      [left; exact Hl | discriminate Hnil]. }
  split; [|split].
  - rewrite (values_ids_keys _ Hwf). apply Hwf.
  - intros n Hin. exact (Hfrom _ n (value_get _ n Hwf Hin)).
  - intros i. rewrite (values_ids_keys _ Hwf), keys_is_Some. split.
    + intros [n Hg]. destruct (get_value _ i n Hwf Hg) as [_ Hid].
      destruct (Hfrom i n Hg) as [Hl | Hc]; [left | right];
        rewrite <- Hid; apply (list_elem_of_fmap_2 EncryptedNote.id); assumption.
    + intros Hi. unfold SyncService.mergedNotesMap. apply get_merge_covers.
      destruct Hi as [Hl | Hc]; [right | left; exact Hc].
      unfold SyncService.seedLocal. apply get_seed_covers. left. exact Hl.
Qed.

Section MergeTwice.
Implicit Types (m : JsMap.t EncryptedNote.t) (n l r : EncryptedNote.t).
Implicit Types (localNotes cloudNotes : list EncryptedNote.t) (i : string).

Lemma JsMap_set_fresh {V : Type} (m : JsMap.t V) (k : string) (v : V) :
  JsMap.get k m = None -> JsMap.set k v m = m ++ [(k, v)].
Proof.
  induction m as [|[k' v'] rest IH]; simpl; [reflexivity|].
  destruct (k' =? k); [discriminate|]. intros Hg. rewrite (IH Hg). reflexivity.
Qed.

(** Seeding a map with its own values, in order, rebuilds it. *)
Lemma seed_values (m0 m1 : JsMap.t EncryptedNote.t) :
  keyed_by_id (m0 ++ m1) ->
  fold_left (fun m note => JsMap.set (EncryptedNote.id note) note m)
            (JsMap.values m1) m0 = m0 ++ m1.
Proof.
  revert m0. induction m1 as [|[k v] rest IH]; intros m0 Hwf; simpl.
  - rewrite app_nil_r. reflexivity.
  - assert (Hkv : EncryptedNote.id v = k).
    { destruct Hwf as [_ Hall]. apply Forall_app in Hall as [_ Hall].
      inversion Hall; subst. assumption. }
    assert (Hfresh : JsMap.get k m0 = None).
    { apply JsMap_get_None_keys. destruct Hwf as [Hnd _].
      unfold JsMap.keys in Hnd. rewrite List.map_app in Hnd.
      apply NoDup_app in Hnd as (_ & Hdisj & _).
      intros Hin. apply (Hdisj k Hin). simpl. left. }
    rewrite Hkv, (JsMap_set_fresh m0 k v Hfresh).
    rewrite IH; rewrite <- app_assoc; [reflexivity | exact Hwf].
Qed.

Lemma covered_self m r : covered (SyncService.mergeCloudNote m r) r.
Proof.
  unfold covered. rewrite get_mergeCloudNote_same.
  destruct (JsMap.get (EncryptedNote.id r) m) as [old|].
  - destruct (Z.gtb_spec (EncryptedNote.updatedAt r) (EncryptedNote.updatedAt old)).
    + eexists. split; [reflexivity | lia].
    + eexists. split; [reflexivity | lia].
  - eexists. split; [reflexivity | lia].
Qed.

Lemma covered_step m r r' : covered m r -> covered (SyncService.mergeCloudNote m r') r.
Proof.
  intros (e & Hg & Hle). unfold covered.
  destruct (String.eqb_spec (EncryptedNote.id r') (EncryptedNote.id r)) as [Heq|Hne].
  - rewrite <- Heq, get_mergeCloudNote_same. rewrite <- Heq in Hg. rewrite Hg.
    destruct (Z.gtb_spec (EncryptedNote.updatedAt r') (EncryptedNote.updatedAt e)).
    + eexists. split; [reflexivity | lia].
    + eexists. split; [reflexivity | lia].
  - rewrite (get_mergeCloudNote_other m r' _ Hne). exists e. split; assumption.
Qed.

Lemma covered_fold cloudNotes m r :
  covered m r -> covered (fold_left SyncService.mergeCloudNote cloudNotes m) r.
Proof.
  revert m. induction cloudNotes as [|c rest IH]; simpl; intros m Hc; [exact Hc|].
  apply IH, covered_step, Hc.
Qed.

Lemma covered_merged cloudNotes m r :
  r ∈ cloudNotes -> covered (fold_left SyncService.mergeCloudNote cloudNotes m) r.
Proof.
  revert m. induction cloudNotes as [|c rest IH]; simpl; intros m Hin.
  - apply elem_of_nil in Hin. contradiction.
  - apply elem_of_cons in Hin as [->|Hin].
    + apply covered_fold, covered_self.
    + apply IH. exact Hin.
Qed.

(** Cloud notes the map covers change nothing. *)
Lemma merge_covered_fixed cloudNotes m :
  (forall r, r ∈ cloudNotes -> covered m r) ->
  fold_left SyncService.mergeCloudNote cloudNotes m = m.
Proof.
  induction cloudNotes as [|c rest IH]; simpl; intros Hall; [reflexivity|].
  assert (Hstep : SyncService.mergeCloudNote m c = m).
  { destruct (Hall c) as (e & Hg & Hle); [left|].
    unfold SyncService.mergeCloudNote. rewrite Hg.
    destruct (Z.gtb_spec (EncryptedNote.updatedAt c) (EncryptedNote.updatedAt e));
      [lia | reflexivity]. }
  rewrite Hstep. apply IH. intros r Hr. apply Hall. right. exact Hr.
Qed.
End MergeTwice.

(** X19.  Merging again against the same cloud document changes nothing:
    the merge of the merged notes with the cloud notes is the merged notes,
    whatever the two documents hold. *)
Theorem mergedNotes_idempotent (localNotes cloudNotes : list EncryptedNote.t) :
  SyncService.mergedNotes (SyncService.mergedNotes localNotes cloudNotes) cloudNotes
  = SyncService.mergedNotes localNotes cloudNotes.
Proof.
  unfold SyncService.mergedNotes at 1.
  unfold SyncService.mergedNotesMap at 1, SyncService.seedLocal, SyncService.mergedNotes.
  rewrite (seed_values [] _ (keyed_by_id_merged localNotes cloudNotes)). simpl.
  rewrite merge_covered_fixed; [reflexivity|]. intros r Hr.
  unfold SyncService.mergedNotesMap. apply covered_merged. exact Hr.
Qed.

(** X20.  Where the local ids are distinct, a local note whose id no cloud
    note has is among the merged notes, and is the one merged note of its
    id: the merge removes nothing the cloud does not know. *)
Theorem smartMerge_keeps_local_only
        (localNotes cloudNotes : list EncryptedNote.t) (l : EncryptedNote.t) :
  NoDup (ids localNotes) -> l ∈ localNotes ->
  EncryptedNote.id l ∉ ids cloudNotes ->
  l ∈ SyncService.mergedNotes localNotes cloudNotes /\
  List.filter (fun n => EncryptedNote.id n =? EncryptedNote.id l)
              (SyncService.mergedNotes localNotes cloudNotes) = [l].
Proof.
  intros Hl Hin Hnew.
  assert (Hg : JsMap.get (EncryptedNote.id l)
                 (SyncService.mergedNotesMap localNotes cloudNotes) = Some l).
  { unfold SyncService.mergedNotesMap.
    rewrite (get_merge_other cloudNotes _ _ Hnew).
    apply (get_seed_member localNotes [] l Hl Hin). }
  split.
  - apply (get_value _ _ l (keyed_by_id_merged localNotes cloudNotes) Hg).
  - unfold SyncService.mergedNotes.
    rewrite (values_of_id _ _ (keyed_by_id_merged localNotes cloudNotes)), Hg.
    reflexivity.
Qed.

Lemma smartMerge_keeps_local_only_witness :
  let mine := EncryptedNote.mk "3" (Some "y") "t3" "c3" 3 30 in
  let shared := EncryptedNote.mk "1" (Some "x") "t1" "c1" 1 100 in
  mine ∈ SyncService.mergedNotes [shared; mine] [shared].
Proof.
  intros mine shared.
  apply (smartMerge_keeps_local_only [shared; mine] [shared] mine).
  - apply (bool_decide_unpack _). vm_compute. exact I.
  - apply list_elem_of_In. right. left. reflexivity.
  - apply (bool_decide_unpack _). vm_compute. exact I.
Defined.

(** ** The merged folders *)

Section FolderMerge.
Context `{Host}.
Implicit Types (s : JsSet.t) (x y : string).

Lemma JsSet_has_elem x s : JsSet.has x s = true <-> x ∈ s.
Proof.
  unfold JsSet.has. rewrite List.existsb_exists, list_elem_of_In. split.
  - intros (y & Hin & Heq). apply String.eqb_eq in Heq. subst y. exact Hin.
  - intros Hin. exists x. split; [exact Hin | apply String.eqb_refl].
Qed.

Lemma JsSet_add_elem x y s : x ∈ JsSet.add y s <-> x = y \/ x ∈ s.
Proof.
  unfold JsSet.add. destruct (JsSet.has y s) eqn:Hhas.
  - apply JsSet_has_elem in Hhas. split; [right; assumption|].
    intros [-> | Hin]; assumption.
  - rewrite elem_of_app, list_elem_of_singleton. tauto.
Qed.

Lemma JsSet_add_NoDup y s : NoDup s -> NoDup (JsSet.add y s).
Proof.
  intros Hnd. unfold JsSet.add. destruct (JsSet.has y s) eqn:Hhas; [exact Hnd|].
  apply NoDup_app. split; [exact Hnd | split; [|apply NoDup_singleton]].
  intros x Hx Hx'. apply list_elem_of_singleton in Hx'. subst x.
  apply JsSet_has_elem in Hx. congruence.
Qed.

Lemma addFolders_spec (folders : list Folder.t) s :
  NoDup s ->
  NoDup (fold_left (fun s f => JsSet.add (Folder.name f) s) folders s) /\
  forall x, x ∈ fold_left (fun s f => JsSet.add (Folder.name f) s) folders s
            <-> x ∈ List.map Folder.name folders \/ x ∈ s.
Proof.
  revert s. induction folders as [|f rest IH]; simpl; intros s Hnd.
  - split; [exact Hnd|]. intros x. split; [right; assumption|].
    intros [Hin | Hin]; [apply elem_of_nil in Hin; contradiction | exact Hin].
  - destruct (IH _ (JsSet_add_NoDup (Folder.name f) s Hnd)) as [Hnd' Hmem].
    split; [exact Hnd'|]. intros x. rewrite Hmem, JsSet_add_elem, elem_of_cons.
    tauto.
Qed.

Lemma stampFolders_exact (names : list string) (w : World) :
  exists w', SyncService.stampFolders names w
             = (Ok (stampedFrom (ticks w) names), w').
Proof.
  revert w. induction names as [|name rest IH]; intros w; simpl.
  - eexists; reflexivity.
  - run. destruct (IH (set_ticks (S (ticks w)) w)) as (w' & ->).
    eexists; reflexivity.
Qed.

Lemma stampedFrom_names (t : nat) (names : list string) :
  List.map Folder.name (stampedFrom t names) = names.
Proof.
  revert t. induction names as [|name rest IH]; intros t; simpl;
    [reflexivity | rewrite IH; reflexivity].
Qed.

Lemma stampedFrom_lookup (t : nat) (names : list string) (i : nat) (f : Folder.t) :
  stampedFrom t names !! i = Some f ->
  Folder.createdAt f = Date_clock (t + i).
Proof.
  revert t i. induction names as [|name rest IH]; intros t i; simpl; [discriminate|].
  destruct i as [|i]; simpl.
  - intros [= <-]. simpl. rewrite Nat.add_0_r. reflexivity.
  - intros Hl. rewrite (IH _ _ Hl). f_equal. lia.
Qed.
End FolderMerge.

(** X21.  The folders [smartMerge] builds: every name of a local or a cloud
    folder once, and no other name; and the
    [createdAt] of the folder at position [i] is the reading of the clock
    taken for it during the merge, not the [createdAt] either side had. *)
Theorem mergedFolders_union_restamped `{Host}
        (w : World) (localFolders cloudFolders : list Folder.t) :
  exists stamped w',
    SyncService.stampFolders (SyncService.allFolders localFolders cloudFolders) w
    = (Ok stamped, w') /\
    NoDup (List.map Folder.name stamped) /\
    (forall x, x ∈ List.map Folder.name stamped <->
               x ∈ List.map Folder.name localFolders \/
               x ∈ List.map Folder.name cloudFolders) /\
    (forall i f, stamped !! i = Some f ->
                 Folder.createdAt f = Date_clock (ticks w + i)).
Proof.
  destruct (stampFolders_exact
              (SyncService.allFolders localFolders cloudFolders) w) as (w' & Hrun).
  eexists _, w'. split; [exact Hrun|].
  rewrite stampedFrom_names. unfold SyncService.allFolders.
  destruct (addFolders_spec localFolders [] (NoDup_nil_2)) as [Hnd1 Hmem1].
  destruct (addFolders_spec cloudFolders _ Hnd1) as [Hnd2 Hmem2].
  split; [exact Hnd2|]. split.
  - intros x. rewrite Hmem2, Hmem1. split.
    + intros [Hc | [Hl | Hnil]]; [right; exact Hc | left; exact Hl
                                  | apply elem_of_nil in Hnil; contradiction].
    + intros [Hl | Hc]; [right; left; exact Hl | left; exact Hc].
  - intros i f. apply stampedFrom_lookup.
Qed.

(** ** A service restored from the settings *)

Section RestoredFacts.
Context `{Host}.
Implicit Types (w : World) (localFilePath currentUser : string).

Lemma restored_uploadAttempt w (settings : Settings) localFilePath currentUser :
  config w = loadConfig settings ->
  exists r w', SyncService.uploadAttempt localFilePath currentUser w = (r, w') /\
               r <> Ok true /\ network w' = network w /\ files w' = files w /\
               syncInProgress w' = syncInProgress w.
Proof.
  intros Hcfg. unfold SyncService.uploadAttempt, SyncService.readFileSync,
    SyncService.uploadToWebDAV, SyncService.uploadToGitHub,
    SyncService.uploadToCustom.
  run.
  destruct (files w !! localFilePath);
    [|eexists _, _; split; [reflexivity | repeat split; discriminate]].
  destruct (provider (config w)); simpl; rewrite ?Hcfg; simpl;
    rewrite ?orb_true_r;
    eexists _, _; (split; [reflexivity | repeat split; discriminate]).
Qed.

Lemma restored_downloadAttempt w (settings : Settings) (fileName : string) :
  config w = loadConfig settings ->
  exists r w', SyncService.downloadAttempt fileName w = (r, w') /\
               (r = Ok None \/ exists e, r = Throw e) /\
               network w' = network w /\ files w' = files w /\
               syncInProgress w' = syncInProgress w /\ config w' = config w.
Proof.
  intros Hcfg. unfold SyncService.downloadAttempt, SyncService.downloadFromWebDAV,
    SyncService.downloadFromGitHub, SyncService.downloadFromCustom.
  run.
  destruct (provider (config w)); simpl; rewrite ?Hcfg; simpl;
    rewrite ?orb_true_r;
    eexists _, _; (split; [reflexivity|]);
    (split; [first [left; reflexivity | right; eexists; reflexivity]
            | repeat split; try assumption]).
Qed.

Lemma restored_uploadToCloud w (settings : Settings) localFilePath currentUser :
  config w = loadConfig settings ->
  exists w', SyncService.uploadToCloud localFilePath currentUser w = (Ok false, w') /\
             network w' = network w /\ files w' = files w.
Proof.
  intros Hcfg. rewrite uploadToCloud_cases.
  destruct (provider (config w)); [exists w; repeat split | ..];
    (destruct (syncInProgress w); [eexists; repeat split|]);
    (destruct (restored_uploadAttempt (set_syncInProgress true w) settings
                 localFilePath currentUser Hcfg)
       as (r & w1 & -> & Hr & Hn & Hf & _);
     destruct r as [[|]|e]; [congruence | ..];
     eexists; (split; [reflexivity | split; assumption])).
Qed.
End RestoredFacts.

(** X22.  A service whose configuration is the one [loadConfig] builds from
    the settings cannot sync: the password and the token are not read back,
    so with WebDAV or GitHub the attempt stops at the incomplete-configuration
    error, and the custom backend is a stub.  Upload and download return
    false, [smartMerge] returns, and none of the three makes a request or
    changes a file. *)
Theorem restored_service_sends_nothing `{Host}
        (w : World) (settings : Settings) (localFilePath currentUser : string) :
  config w = loadConfig settings ->
  (exists w',
      SyncService.uploadToCloud localFilePath currentUser w = (Ok false, w') /\
      network w' = network w /\ files w' = files w) /\
  (exists w',
      SyncService.downloadFromCloud localFilePath currentUser w = (Ok false, w') /\
      network w' = network w /\ files w' = files w) /\
  (exists w',
      SyncService.smartMerge localFilePath currentUser w = (Ok tt, w') /\
      network w' = network w /\ files w' = files w).
Proof.
  intros Hcfg. split; [|split].
  - apply (restored_uploadToCloud w settings); exact Hcfg.
  - rewrite downloadFromCloud_cases.
    destruct (provider (config w)); [exists w; repeat split | ..];
      (destruct (syncInProgress w); [eexists; repeat split|]);
      (destruct (restored_downloadAttempt (set_syncInProgress true w) settings
                   (SyncService.fileNameOf currentUser) Hcfg)
         as (r & w1 & -> & Hr & Hn & Hf & _);
       destruct Hr as [-> | [e ->]];
       eexists; (split; [reflexivity | split; assumption])).
  - unfold SyncService.smartMerge, try_catch. unfold bind at 1.
    destruct (restored_downloadAttempt w settings
                (SyncService.fileNameOf currentUser) Hcfg)
      as (r & w1 & -> & Hr & Hn & Hf & _ & Hc).
    destruct Hr as [-> | [e ->]].
    + unfold bind at 1, show at 1, modify. unfold bind at 1.
      match goal with
      | |- context [SyncService.uploadToCloud ?p ?u ?w0] =>
          destruct (restored_uploadToCloud w0 settings p u) as (w2 & -> & Hn2 & Hf2);
          [simpl; congruence|]
      end.
      simpl in Hn2, Hf2. eexists. split; [reflexivity|].
      split; simpl; congruence.
    + simpl. eexists. split; [reflexivity | split; assumption].
Qed.

Lemma restored_service_sends_nothing_witness :
  let settings := mkSettings (Some WebDAV) (Some "https://dav.example/notes")
                             (Some "alice") in
  let w := mkWorld (mkSession None ∅) "/notes"
             {[ "/notes/notes_alice.encrypted" := JsonObject NotesManager.emptyStorage ]}
             (loadConfig settings) false
             {[ "sync.password" := "secret" ]}
             [Responded (mkResponse true 201 "Created" (Unparseable "") None)]
             0 0 [] in
  exists w',
    SyncService.uploadToCloud "/notes/notes_alice.encrypted" "alice" w = (Ok false, w') /\
    network w' = network w.
Proof.
  intros settings w.
  destruct (restored_service_sends_nothing (H := XorHost.host) w settings
              "/notes/notes_alice.encrypted" "alice")
    as ((w' & Hrun & Hn & _) & _).
  - reflexivity.
  - exists w'. split; assumption.
Defined.

(** X23.  Over GitHub, with the configuration and the stored token in place
    and the local file there, an upload makes two requests and its result is
    that of the second: it returns true exactly when the PUT is answered with
    an ok status, whatever became of the GET for the file's sha before it (a
    rejection, an error status, a body that is not JSON). *)
Theorem github_upload_decided_by_put
        (w : World) (localFilePath currentUser : string) (data : Content)
        (lookup put : FetchOutcome) (rest : list FetchOutcome) :
  provider (config w) = GitHub ->
  truthy_opt (url (config w)) = true ->
  truthy_opt (token (config w)) = true ->
  truthy_opt (secrets w !! "sync.token") = true ->
  syncInProgress w = false ->
  files w !! localFilePath = Some data ->
  network w = lookup :: put :: rest ->
  exists w',
    SyncService.uploadToCloud localFilePath currentUser w
    = (Ok (match put with Responded r => ok r | Rejected => false end), w') /\
    network w' = rest /\ syncInProgress w' = false.
Proof.
  intros Hp Hurl Htok Hsec Hbusy Hfile Hnet.
  rewrite uploadToCloud_cases, Hp, Hbusy.
  unfold SyncService.uploadAttempt, SyncService.readFileSync,
    SyncService.uploadToGitHub, SyncService.fetch.
  run. rewrite Hfile, Hp. simpl. rewrite Hurl, Htok. simpl.
  rewrite Hsec. simpl. rewrite Hnet.
  destruct lookup as [|r1]; simpl.
  - destruct put as [|r2]; simpl;
      [|destruct (ok r2)]; eexists; repeat split.
  - destruct (ok r1); [destruct (json r1)|]; simpl;
      (destruct put as [|r2]; simpl;
       [|destruct (ok r2)]; eexists; repeat split).
Qed.

Lemma github_upload_decided_by_put_witness :
  let w := mkWorld (mkSession None ∅) "/notes"
             {[ "/notes/notes_alice.encrypted" := JsonObject NotesManager.emptyStorage ]}
             (mkSyncConfig GitHub (Some "https://api.github.com/repos/a/b")
                           None None (Some "ghp_x"))
             false {[ "sync.token" := "ghp_x" ]}
             [Rejected; Responded (mkResponse true 201 "Created" (Unparseable "") None)]
             0 0 [] in
  fst (SyncService.uploadToCloud "/notes/notes_alice.encrypted" "alice" w) = Ok true.
Proof.
  intros w.
  destruct (github_upload_decided_by_put w "/notes/notes_alice.encrypted" "alice"
              (JsonObject NotesManager.emptyStorage) Rejected
              (Responded (mkResponse true 201 "Created" (Unparseable "") None)) [])
    as (w' & Hrun & _).
  - reflexivity.
  - reflexivity.
  - reflexivity.
  - vm_compute. reflexivity.
  - reflexivity.
  - vm_compute. reflexivity.
  - reflexivity.
  - rewrite Hrun. reflexivity.
Defined.

(** ** Saving from the editor *)

Section SaveFacts.
Context `{Host}.
Implicit Types (w : World) (id title content folder : string).

Lemma same_store_sym w w' : same_store w w' -> same_store w' w.
Proof. intros (? & ? & ?). repeat split; congruence. Qed.

(** Where [saveNote] leaves the world: as it was, or as [createNote] left
    it, or as [updateNote] left it after the rename test let it through. *)
Lemma saveNote_world w (noteId : option string) folder title content :
  let wf := snd (NoteEditorPanel.saveNote noteId folder title content w) in
  same_store w wf \/
  (truthy_opt noteId = false /\
   same_store (snd (NotesManager.createNote title content folder w)) wf) \/
  (exists id current w2,
      unlocked w = true /\ talks w w2 /\
      fst (NotesManager.getNote id w) = Ok (Some current) /\
      (Note.title current = title \/
       List.find (NoteEditorPanel.renameClash id title current) (listing w) = None) /\
      same_store (snd (NotesManager.updateNote id title content w2)) wf).
Proof.
  intros wf.
  assert (Hwf : wf = snd (NoteEditorPanel.saveNote noteId folder title content w))
    by reflexivity.
  clearbody wf. revert Hwf.
  unfold NoteEditorPanel.saveNote, try_catch.
  unfold bind at 1. rewrite hasPassword_run.
  destruct (unlocked w) eqn:Hun; cbn [negb];
    [|simpl; intros ->; left; repeat split].
  destruct (truthy_opt noteId) eqn:Hid.
  - set (id := default "" noteId).
    unfold bind at 1.
    destruct (getNote_talks w id) as (r & w1 & Hget & Ht1).
    rewrite Hget.
    assert (Hr : fst (NotesManager.getNote id w) = r) by (rewrite Hget; reflexivity).
    destruct r as [[current|]|e].
    + unfold bind at 1.
      destruct (negb (Note.title current =? title)) eqn:Hsame.
      * unfold bind at 1.
        destruct (getAllNotes_talks w1) as (w2 & -> & Ht2).
        rewrite (listing_same w w1 (talks_same_store _ _ Ht1)).
        destruct (List.find _ _) as [dup|] eqn:Hfind.
        -- simpl. intros ->. left.
           destruct Ht1 as [l1 ->]. destruct Ht2 as [l2 ->].
           repeat split.
        -- unfold ret at 1. cbv iota beta. unfold bind at 1.
           destruct (NotesManager.updateNote id title content w2)
             as [[[]|e] w3] eqn:Hup; simpl; intros ->;
             right; right; exists id, current, w2;
             (split; [reflexivity|]); (split; [exact (talks_trans _ _ _ Ht1 Ht2)|]);
             (split; [exact Hr|]); (split; [right; exact Hfind|]);
             rewrite Hup; repeat split.
      * unfold ret at 1. cbv iota beta. unfold bind at 1.
        apply negb_false_iff, String.eqb_eq in Hsame.
        destruct (NotesManager.updateNote id title content w1)
          as [[[]|e] w3] eqn:Hup; simpl; intros ->;
          right; right; exists id, current, w1;
          (split; [reflexivity|]); (split; [exact Ht1|]);
          (split; [exact Hr|]); (split; [left; exact Hsame|]);
          rewrite Hup; repeat split.
    + unfold bind at 1, ret at 1. cbv iota beta. unfold bind at 1.
      destruct (updateNote_effect w1 id title content) as (r & w3 & Hup & Hcase).
      rewrite Hup.
      rewrite (unlocked_same w w1 (talks_same_store _ _ Ht1)) in Hcase.
      rewrite Hun in Hcase.
      rewrite getNote_result in Hr. rewrite Hun in Hr.
      unfold findNote in Hcase.
      rewrite (storedDocument_same w w1 (talks_same_store _ _ Ht1)) in Hcase.
      destruct (List.find _ _) as [e|];
        [destruct (readable (sessionKey w) e); discriminate Hr|].
      destruct Hcase as [-> Ht3]. simpl. intros ->. left.
      apply (same_store_trans _ _ _ (talks_same_store _ _ Ht1)).
      destruct Ht3 as [l3 ->]. repeat split.
    + simpl. intros ->. left. destruct Ht1 as [l1 ->]. repeat split.
  - unfold bind at 1.
    destruct (NotesManager.createNote title content folder w)
      as [[note|e] w1] eqn:Hcr; simpl; intros ->;
      right; left; (split; [reflexivity|]); repeat split.
Qed.
Lemma NoDup_middle_remove {A} (l1 l2 : list A) (x : A) :
  NoDup (l1 ++ x :: l2) -> NoDup (l1 ++ l2).
Proof.
  intros (H1 & H2 & H3)%NoDup_app. apply NoDup_cons in H3 as [H3 H4].
  apply NoDup_app. split; [exact H1|]. split; [|exact H4].
  intros y Hy Hy2. apply (H2 y Hy). apply elem_of_cons. right. exact Hy2.
Qed.

Lemma NoDup_middle_replace {A} (l1 l2 : list A) (x y : A) :
  NoDup (l1 ++ x :: l2) -> y ∉ l1 -> y ∉ l2 -> NoDup (l1 ++ y :: l2).
Proof.
  intros (H1 & H2 & H3)%NoDup_app Hy1 Hy2. apply NoDup_cons in H3 as [H3 H4].
  apply NoDup_app. split; [exact H1|]. split.
  - intros z Hz [->|Hz2]%elem_of_cons; [exact (Hy1 Hz)|].
    apply (H2 z Hz). apply elem_of_cons. right. exact Hz2.
  - apply NoDup_cons. split; [exact Hy2 | exact H4].
Qed.

(** [find] by id cuts the notes at the first note of the id, and
    [assignFirst] rewrites that note where it stands. *)
Lemma find_id_split id notes (e : EncryptedNote.t) :
  List.find (fun n => EncryptedNote.id n =? id) notes = Some e ->
  exists pre post,
    notes = pre ++ e :: post /\ EncryptedNote.id e = id /\ (id ∉ ids pre) /\
    forall f, NotesManager.assignFirst id f notes = pre ++ f e :: post.
Proof.
  induction notes as [|a rest IH]; simpl; [discriminate|].
  destruct (String.eqb_spec (EncryptedNote.id a) id) as [Ha|Ha].
  - intros [= ->]. exists [], rest. split; [reflexivity|]. split; [exact Ha|].
    split; [apply not_elem_of_nil | reflexivity].
  - intros Hf. destruct (IH Hf) as (pre & post & -> & He & Hpre & Hassign).
    exists (a :: pre), post. split; [reflexivity|]. split; [exact He|]. split.
    + simpl. apply not_elem_of_cons. split; [congruence | exact Hpre].
    + intros f. simpl. rewrite Hassign. reflexivity.
Qed.

Lemma listed_id_stored key (notes : list EncryptedNote.t) (n : Note.t) :
  n ∈ omap (readable key) notes -> Note.id n ∈ ids notes.
Proof.
  intros (e & He & Hr)%list_elem_of_omap.
  destruct (readable_fields key e n Hr) as [-> _].
  apply list_elem_of_In, in_map, list_elem_of_In. exact He.
Qed.

Lemma readable_needs_key (e : EncryptedNote.t) : readable None e = None.
Proof. reflexivity. Qed.

(** Rewriting the fields of one stored note keeps the listing free of
    doubles, when no other listed note has the folder and the new title. *)
Lemma rename_keeps_unique (k id title content : string) (salt1 salt2 : Salt)
      (now : Z) (notes : list EncryptedNote.t) (e : EncryptedNote.t)
      (current : Note.t) :
  NoDup (ids notes) ->
  List.find (fun n => EncryptedNote.id n =? id) notes = Some e ->
  readable (Some k) e = Some current ->
  titles_unique (omap (readable (Some k)) notes) ->
  (Note.title current = title \/
   List.find (NoteEditorPanel.renameClash id title current)
             (omap (readable (Some k)) notes) = None) ->
  titles_unique
    (omap (readable (Some k))
          (NotesManager.assignFirst id
             (reencrypted (AES_encrypt salt1 title k) (AES_encrypt salt2 content k) now)
             notes)).
Proof.
  intros Hids Hfind Hcur Huniq Hfree.
  destruct (find_id_split id notes e Hfind) as (pre & post & -> & He & Hpre & ->).
  assert (Hpost : id ∉ ids post).
  { unfold ids in Hids. rewrite List.map_app in Hids. simpl in Hids.
    apply NoDup_app in Hids as (_ & _ & Hc). apply NoDup_cons in Hc as [Hc _].
    rewrite He in Hc. exact Hc. }
  unfold titles_unique in *.
  rewrite omap_app in Huniq. rewrite omap_app. simpl in *.
  rewrite Hcur in Huniq. rewrite List.map_app in Huniq. simpl in Huniq.
  unfold reencrypted at 1. rewrite readable_encrypted.
  destruct (truthy title && truthy content).
  2:{ rewrite List.map_app. exact (NoDup_middle_remove _ _ _ Huniq). }
  rewrite List.map_app. simpl.
  destruct (readable_fields _ _ _ Hcur) as [Hcid Hcfolder].
  assert (Hother : forall l, id ∉ ids l ->
            folderTitle
              (Note.mk (EncryptedNote.id e)
                 (NotesManager.folderOrDefault
                    (EncryptedNote.mk (EncryptedNote.id e) (EncryptedNote.folder e)
                                      "" "" (EncryptedNote.createdAt e) now))
                 title content (EncryptedNote.createdAt e) now)
            ∈ List.map folderTitle (omap (readable (Some k)) l) ->
            exists x, x ∈ omap (readable (Some k)) l /\ Note.id x <> id /\
                      Note.folder x = Note.folder current /\ Note.title x = title).
  { intros l Hl Hin. apply list_elem_of_In, in_map_iff in Hin as (x & Hx & Hxin).
    apply list_elem_of_In in Hxin. exists x. split; [exact Hxin|]. split.
    - intros Hxid. apply Hl. rewrite <- Hxid. exact (listed_id_stored _ _ _ Hxin).
    - unfold folderTitle in Hx. simpl in Hx. injection Hx as Hf Ht.
      split; [|exact Ht]. rewrite Hf, Hcfolder. reflexivity. }
  assert (Hclear : forall l, id ∉ ids l ->
            (forall x, x ∈ omap (readable (Some k)) l ->
                       folderTitle x <> folderTitle current) ->
            (forall x, x ∈ omap (readable (Some k)) l ->
                       x ∈ omap (readable (Some k)) (pre ++ e :: post)) ->
            folderTitle
              (Note.mk (EncryptedNote.id e)
                 (NotesManager.folderOrDefault
                    (EncryptedNote.mk (EncryptedNote.id e) (EncryptedNote.folder e)
                                      "" "" (EncryptedNote.createdAt e) now))
                 title content (EncryptedNote.createdAt e) now)
            ∉ List.map folderTitle (omap (readable (Some k)) l)).
  { intros l Hl Hdiff Hsub Hin.
    destruct (Hother l Hl Hin) as (x & Hxin & Hxid & Hxf & Hxt).
    destruct Hfree as [Hsame|Hnone].
    - apply (Hdiff x Hxin). unfold folderTitle. congruence.
    - pose proof (List.find_none _ _ Hnone x) as Hclash.
      unfold NoteEditorPanel.renameClash in Hclash.
      rewrite Hxf, Hxt, !String.eqb_refl in Hclash.
      apply String.eqb_neq in Hxid. rewrite Hxid in Hclash.
      discriminate Hclash. apply list_elem_of_In, Hsub, Hxin. }
  pose proof Huniq as Hparts.
  apply NoDup_app in Hparts as (_ & Hleft & Hright).
  apply NoDup_cons in Hright as [Hright _].
  apply (NoDup_middle_replace _ _ _ _ Huniq).
  - apply (Hclear pre Hpre).
    + intros x Hx Heq.
      apply (Hleft (folderTitle x)).
      * apply list_elem_of_In, in_map, list_elem_of_In. exact Hx.
      * rewrite Heq. apply elem_of_cons. left. reflexivity.
    + intros x Hx. rewrite omap_app. apply elem_of_app. left. exact Hx.
  - apply (Hclear post Hpost).
    + intros x Hx Heq. apply Hright. rewrite <- Heq.
      apply list_elem_of_In, in_map, list_elem_of_In. exact Hx.
    + intros x Hx. rewrite omap_app. apply elem_of_app. right. simpl.
      rewrite Hcur. apply elem_of_cons. right. exact Hx.
Qed.

(** X24.  Saving from the editor keeps the listing free of doubles: when no
    two listed notes share folder and title before [saveNote], none do after
    it, whether it created a note, renamed one, refused or failed, as long
    as the stored ids are distinct and the editor's folder is not the empty
    name. *)
Theorem saveNote_keeps_titles_unique w (noteId : option string)
        folder title content :
  folder <> "" ->
  NoDup (ids (EncryptedStorage.notes (storedDocument w))) ->
  titles_unique (listing w) ->
  titles_unique
    (listing (snd (NoteEditorPanel.saveNote noteId folder title content w))).
Proof.
  intros Hfolder Hids Huniq.
  destruct (saveNote_world w noteId folder title content)
    as [Hsame | [[_ Hsame] | (id & current & w2 & Hun & Ht & Hget & Hfree & Hsame)]].
  - rewrite (listing_same _ _ Hsame). exact Huniq.
  - rewrite (listing_same _ _ Hsame).
    apply createNote_keeps_listing_unique; assumption.
  - rewrite (listing_same _ _ Hsame).
    pose proof (talks_same_store _ _ Ht) as Hs2.
    destruct (updateNote_effect w2 id title content) as (r & w3 & Hup & Hcase).
    rewrite Hup. cbn [snd].
    rewrite (unlocked_same _ _ Hs2) in Hcase. rewrite Hun in Hcase.
    rewrite (storedDocument_same _ _ Hs2) in Hcase.
    rewrite (sessionKey_same _ _ Hs2) in Hcase.
    rewrite getNote_result in Hget. rewrite Hun in Hget.
    unfold findNote in Hcase.
    destruct (List.find _ _) as [e|] eqn:Hfind; [|discriminate Hget].
    destruct (readable (sessionKey w) e) as [n|] eqn:Hread; [|discriminate Hget].
    injection Hget as ->.
    destruct (sessionKey w) as [k|] eqn:Hkey;
      [|rewrite readable_needs_key in Hread; discriminate Hread].
    destruct Hcase as [_ Hw].
    rewrite (writes_listing _ _ _ Hw).
    rewrite (unlocked_same _ _ Hs2), Hun, (sessionKey_same _ _ Hs2), Hkey.
    unfold listing in Huniq, Hfree. rewrite Hun in Huniq, Hfree.
    unfold visible in Huniq, Hfree. rewrite Hkey in Huniq, Hfree.
    unfold withUpdate. cbn [EncryptedStorage.notes].
    apply (rename_keeps_unique k id title content _ _ _ _ e current);
      assumption.
Qed.

End SaveFacts.

Lemma saveNote_keeps_titles_unique_witness :
  let w := alice_file
             (JsonObject
                (EncryptedStorage.mk []
                   [folderless_note;
                    EncryptedNote.mk "8" (Some "default")
                      (XorHost.aes_encrypt "U" "todo" "k1")
                      (XorHost.aes_encrypt "V" "call bob" "k1") 30 40])) in
  titles_unique
    (listing (H := XorHost.host)
       (snd (NoteEditorPanel.saveNote (H := XorHost.host)
               (Some "7") "default" "todo" "bread" w))).
Proof.
  intros w.
  apply (saveNote_keeps_titles_unique (H := XorHost.host) w (Some "7")
           "default" "todo" "bread").
  - discriminate.
  - apply (bool_decide_unpack _). vm_compute. exact I.
  - apply (bool_decide_unpack _). vm_compute. exact I.
Defined.


(** ** The tree view *)

Section TreeFacts.
Context `{Host}.

Lemma noteCountMap_counts (notes : list Note.t) (m : JsMap.t nat) (label : string) :
  default 0%nat
    (JsMap.get label
       (fold_left
          (fun m note =>
             JsMap.set (Note.folder note)
                       (default 0%nat (JsMap.get (Note.folder note) m) + 1)%nat m)
          notes m))
  = Nat.add (default 0%nat (JsMap.get label m))
            (length (List.filter (fun n => Note.folder n =? label) notes)).
Proof.
  revert m. induction notes as [|n rest IH]; intros m; simpl; [lia|].
  rewrite IH.
  destruct (String.eqb_spec (Note.folder n) label) as [->|Hne].
  - rewrite JsMap_get_set_eq. simpl. lia.
  - rewrite (JsMap_get_set_ne _ _ _ _ Hne). reflexivity.
Qed.

Lemma addNoteFolders_spec (notes : list Note.t) s :
  NoDup s ->
  NoDup (fold_left (fun s n => JsSet.add (Note.folder n) s) notes s) /\
  forall x, x ∈ fold_left (fun s n => JsSet.add (Note.folder n) s) notes s
            <-> x ∈ List.map Note.folder notes \/ x ∈ s.
Proof.
  revert s. induction notes as [|n rest IH]; simpl; intros s Hnd.
  - split; [exact Hnd|]. intros x. split; [right; assumption|].
    intros [Hin | Hin]; [apply elem_of_nil in Hin; contradiction | exact Hin].
  - destruct (IH _ (JsSet_add_NoDup (Note.folder n) s Hnd)) as [Hnd' Hmem].
    split; [exact Hnd'|]. intros x. rewrite Hmem, JsSet_add_elem, elem_of_cons.
    tauto.
Qed.

Lemma allFolderNames_spec (folders : list Folder.t) (notes : list Note.t) :
  NoDup (NotesTreeProvider.allFolderNames folders notes) /\
  forall x, x ∈ NotesTreeProvider.allFolderNames folders notes <->
            x ∈ List.map Folder.name folders \/ x ∈ List.map Note.folder notes.
Proof.
  destruct (addFolders_spec folders []) as [Hnd1 Hmem1]; [apply NoDup_nil_2|].
  destruct (addNoteFolders_spec notes _ Hnd1) as [Hnd2 Hmem2].
  split; [exact Hnd2|].
  intros x. unfold NotesTreeProvider.allFolderNames.
  rewrite Hmem2, Hmem1. split.
  - intros [Hx | [Hx | Hx]]; [right; exact Hx | left; exact Hx |].
    apply elem_of_nil in Hx. contradiction.
  - intros [Hx | Hx]; [right; left; exact Hx | left; exact Hx].
Qed.

(** What [getChildren] returns with a password set. *)
Lemma getChildren_result (w : World) (element : option TreeItem) :
  unlocked w = true ->
  fst (NotesTreeProvider.getChildren element w)
  = Ok match element with
       | None =>
           List.map
             (fun name => FolderItem name (length (noteItems name (listing w))))
             (NotesTreeProvider.allFolderNames
                (EncryptedStorage.folders (storedDocument w)) (listing w))
       | Some (FolderItem label _) => noteItems label (listing w)
       | Some _ => []
       end.
Proof.
  intros Hun. unfold NotesTreeProvider.getChildren, bind.
  rewrite hasPassword_run, Hun. cbn [negb].
  destruct (getAllNotes_talks w) as (w1 & -> & Ht1).
  destruct (getFolders_talks w1) as (w2 & -> & Ht2).
  rewrite (storedDocument_same _ _ (talks_same_store _ _ Ht1)).
  destruct element as [[| label count | id label]|]; try reflexivity.
  cbn [fst ret]. f_equal. apply List.map_ext. intros name.
  unfold NotesTreeProvider.noteCountMap. rewrite noteCountMap_counts.
  unfold noteItems. rewrite List.length_map. reflexivity.
Qed.

(** X25.  With a password set, the root of the tree shows each folder name
    once: the names of the stored folders and the folders of the listed
    notes, nothing else.  The number on a folder item is the number of note
    items the view returns when that folder is opened. *)
Theorem tree_counts_match_children (w : World) :
  unlocked w = true ->
  exists names,
    NoDup names /\
    (forall x, x ∈ names <->
               x ∈ folderNames (storedDocument w) \/
               x ∈ List.map Note.folder (listing w)) /\
    fst (NotesTreeProvider.getChildren None w)
    = Ok (List.map
            (fun name => FolderItem name (length (noteItems name (listing w))))
            names) /\
    forall name count,
      fst (NotesTreeProvider.getChildren (Some (FolderItem name count)) w)
      = Ok (noteItems name (listing w)).
Proof.
  intros Hun.
  exists (NotesTreeProvider.allFolderNames
            (EncryptedStorage.folders (storedDocument w)) (listing w)).
  destruct (allFolderNames_spec (EncryptedStorage.folders (storedDocument w))
              (listing w)) as [Hnd Hmem].
  split; [exact Hnd|]. split; [exact Hmem|]. split.
  - exact (getChildren_result w None Hun).
  - intros name count.
    exact (getChildren_result w (Some (FolderItem name count)) Hun).
Qed.
End TreeFacts.

Lemma tree_counts_match_children_witness :
  let w := alice_file
             (JsonObject
                (EncryptedStorage.mk [Folder.mk "work" 5]
                   [folderless_note;
                    EncryptedNote.mk "8" (Some "default")
                      (XorHost.aes_encrypt "U" "todo" "k1")
                      (XorHost.aes_encrypt "V" "call bob" "k1") 30 40])) in
  exists names,
    NoDup names /\
    fst (NotesTreeProvider.getChildren (H := XorHost.host) None w)
    = Ok (List.map
            (fun name =>
               FolderItem name
                 (length (noteItems name (listing (H := XorHost.host) w))))
            names).
Proof.
  intros w.
  destruct (tree_counts_match_children (H := XorHost.host) w)
    as (names & Hnd & _ & Hroot & _).
  - vm_compute. reflexivity.
  - exists names. split; [exact Hnd | exact Hroot].
Defined.

(** ** Deleting a folder shown in the tree *)

Section TreeDeleteFacts.
Context `{Host}.

(** For a name that is neither empty nor the fallback, the stored notes
    [deleteFolder] drops are the ones read back under that name. *)
Lemma folder_differs_shown (name : string) (e : EncryptedNote.t) :
  name <> "" -> name <> "default" ->
  NotesManager.folder_differs name e
  = negb (NotesManager.folderOrDefault e =? name).
Proof.
  intros Hne Hdef. unfold NotesManager.folder_differs, NotesManager.folderOrDefault.
  destruct (EncryptedNote.folder e) as [f|].
  - destruct (truthy f) eqn:Hf; [reflexivity|].
    destruct f as [|c f']; [|discriminate Hf].
    destruct (String.eqb_spec "" name); [congruence|].
    destruct (String.eqb_spec "default" name); [congruence | reflexivity].
  - destruct (String.eqb_spec "default" name); [congruence | reflexivity].
Qed.

Lemma omap_without_folder key (name : string) (notes : list EncryptedNote.t) :
  name <> "" -> name <> "default" ->
  omap (readable key) (List.filter (NotesManager.folder_differs name) notes)
  = List.filter (fun n => negb (Note.folder n =? name))
                (omap (readable key) notes).
Proof.
  intros Hne Hdef. induction notes as [|e rest IH]; [reflexivity|].
  cbn [List.filter]. rewrite (folder_differs_shown name e Hne Hdef).
  change (omap (readable key) (e :: rest))
    with (match readable key e with
          | Some n => n :: omap (readable key) rest
          | None => omap (readable key) rest
          end).
  destruct (readable key e) as [n|] eqn:Hread.
  - destruct (readable_fields key e n Hread) as [_ Hfolder].
    cbn [List.filter]. rewrite Hfolder.
    destruct (negb (NotesManager.folderOrDefault e =? name)).
    + change (omap (readable key) (e :: ?l))
        with (match readable key e with
              | Some n => n :: omap (readable key) l
              | None => omap (readable key) l
              end).
      rewrite Hread, IH. reflexivity.
    + exact IH.
  - destruct (negb (NotesManager.folderOrDefault e =? name)).
    + change (omap (readable key) (e :: ?l))
        with (match readable key e with
              | Some n => n :: omap (readable key) l
              | None => omap (readable key) l
              end).
      rewrite Hread. exact IH.
    + exact IH.
Qed.

Lemma filter_split_length {A : Type} (p : A -> bool) (l : list A) :
  length l = (length (List.filter (fun x => negb (p x)) l)
              + length (List.filter p l))%nat.
Proof.
  induction l as [|a rest IH]; [reflexivity|].
  simpl. destruct (p a); simpl; lia.
Qed.

(** X26.  With a password set, deleting a folder whose name is neither
    empty nor "default" removes from the listing exactly the notes the tree
    showed under it, as many as the number on its item, and the root of the
    tree shows no item of that name afterwards. *)
Theorem deleteFolder_removes_what_the_tree_counts (w : World) (name : string) :
  unlocked w = true -> name <> "" -> name <> "default" ->
  let w' := snd (NotesManager.deleteFolder name w) in
  listing w' = List.filter (fun n => negb (Note.folder n =? name)) (listing w) /\
  length (listing w)
  = (length (listing w') + length (noteItems name (listing w)))%nat /\
  exists items,
    fst (NotesTreeProvider.getChildren None w') = Ok items /\
    forall count, FolderItem name count ∉ items.
Proof.
  intros Hun Hne Hdef w'.
  destruct (deleteFolder_effect w name) as (w1 & Hrun & Hw).
  assert (Hw' : w' = w1) by (unfold w'; rewrite Hrun; reflexivity).
  rewrite Hw'. clear w' Hw'.
  assert (Hlist : listing w1
                  = List.filter (fun n => negb (Note.folder n =? name)) (listing w)).
  { rewrite (writes_listing _ _ _ Hw), Hun. cbn [EncryptedStorage.notes withoutFolder].
    rewrite (omap_without_folder _ name _ Hne Hdef).
    unfold listing. rewrite Hun. reflexivity. }
  split; [exact Hlist|]. split.
  { rewrite Hlist. unfold noteItems. rewrite List.length_map.
    apply filter_split_length. }
  assert (Hun1 : unlocked w1 = true).
  { destruct (writes_sessionKey _ _ _ Hw) as [_ ->]. exact Hun. }
  eexists. split; [exact (getChildren_result w1 None Hun1)|].
  intros count Hin.
  apply list_elem_of_In, in_map_iff in Hin as (label & Heq & Hlabel).
  injection Heq as -> _.
  apply list_elem_of_In, allFolderNames_spec in Hlabel as [Hf | Hn].
  - rewrite (writes_storedDocument _ _ _ Hw) in Hf.
    apply list_elem_of_In, in_map_iff in Hf as (f & Hname & Hf).
    apply list_elem_of_In in Hf.
    exact (withoutFolder_folders name _ f Hf Hname).
  - rewrite Hlist in Hn.
    apply list_elem_of_In, in_map_iff in Hn as (n & Hname & Hn).
    apply List.filter_In in Hn as [_ Hn].
    rewrite Hname, String.eqb_refl in Hn. discriminate Hn.
Qed.

(** X27.  With a password set, deleting the folder "default" keeps the
    notes stored without a folder: a readable one is still listed under
    "default" afterwards, and the root of the tree still shows an item
    "default" with a count above zero. *)
Theorem deleteFolder_default_keeps_folderless (w : World)
        (e : EncryptedNote.t) (n : Note.t) :
  unlocked w = true ->
  e ∈ EncryptedStorage.notes (storedDocument w) ->
  EncryptedNote.folder e = None ->
  readable (sessionKey w) e = Some n ->
  let w' := snd (NotesManager.deleteFolder "default" w) in
  n ∈ listing w' /\ Note.folder n = "default" /\
  exists items count,
    fst (NotesTreeProvider.getChildren None w') = Ok items /\
    FolderItem "default" count ∈ items /\ (0 < count)%nat.
Proof.
  intros Hun He Hfolder Hread w'.
  destruct (deleteFolder_effect w "default") as (w1 & Hrun & Hw).
  assert (Hw' : w' = w1) by (unfold w'; rewrite Hrun; reflexivity).
  rewrite Hw'. clear w' Hw'.
  assert (Hn : n ∈ listing w1).
  { rewrite (writes_listing _ _ _ Hw), Hun. cbn [EncryptedStorage.notes withoutFolder].
    apply list_elem_of_omap. exists e. split; [|exact Hread].
    apply list_elem_of_In, List.filter_In. split.
    - apply list_elem_of_In. exact He.
    - unfold NotesManager.folder_differs. rewrite Hfolder. reflexivity. }
  assert (Hshown : Note.folder n = "default").
  { destruct (readable_fields _ _ _ Hread) as [_ ->].
    unfold NotesManager.folderOrDefault. rewrite Hfolder. reflexivity. }
  split; [exact Hn|]. split; [exact Hshown|].
  assert (Hun1 : unlocked w1 = true).
  { destruct (writes_sessionKey _ _ _ Hw) as [_ ->]. exact Hun. }
  eexists _, (length (noteItems "default" (listing w1))).
  split; [exact (getChildren_result w1 None Hun1)|]. split.
  - apply list_elem_of_In, in_map_iff. exists "default". split; [reflexivity|].
    apply list_elem_of_In, allFolderNames_spec. right.
    apply list_elem_of_In, in_map_iff. exists n.
    split; [exact Hshown | apply list_elem_of_In; exact Hn].
  - unfold noteItems. rewrite List.length_map.
    assert (Hin : In n (List.filter (fun x => Note.folder x =? "default") (listing w1))).
    { apply List.filter_In. split; [apply list_elem_of_In; exact Hn|].
      rewrite Hshown. reflexivity. }
    destruct (List.filter _ _); [contradiction Hin | simpl; lia].
Qed.
End TreeDeleteFacts.

Lemma deleteFolder_removes_what_the_tree_counts_witness :
  let w := alice_file
             (JsonObject
                (EncryptedStorage.mk [Folder.mk "work" 5]
                   [folderless_note;
                    EncryptedNote.mk "8" (Some "work")
                      (XorHost.aes_encrypt "U" "todo" "k1")
                      (XorHost.aes_encrypt "V" "call bob" "k1") 30 40])) in
  listing (H := XorHost.host)
    (snd (NotesManager.deleteFolder "work" w))
  = [Note.mk "7" "default" "groceries" "milk, eggs" 10 20].
Proof.
  intros w.
  destruct (deleteFolder_removes_what_the_tree_counts (H := XorHost.host) w "work")
    as (Hlist & _).
  - vm_compute. reflexivity.
  - discriminate.
  - discriminate.
  - rewrite Hlist. vm_compute. reflexivity.
Defined.

Lemma deleteFolder_default_keeps_folderless_witness :
  let w := alice_file (JsonObject (EncryptedStorage.mk [] [folderless_note])) in
  Note.mk "7" "default" "groceries" "milk, eggs" 10 20
  ∈ listing (H := XorHost.host)
      (snd (NotesManager.deleteFolder "default" w)).
Proof.
  intros w.
  destruct (deleteFolder_default_keeps_folderless (H := XorHost.host) w
              folderless_note
              (Note.mk "7" "default" "groceries" "milk, eggs" 10 20))
    as (Hin & _).
  - vm_compute. reflexivity.
  - replace (EncryptedStorage.notes (storedDocument w)) with [folderless_note]
      by (vm_compute; reflexivity).
    apply list_elem_of_singleton. reflexivity.
  - reflexivity.
  - vm_compute. reflexivity.
  - exact Hin.
Defined.

(** ** Colours *)

Lemma hexValue_range (c : ascii) (d : Z) :
  ColorUtils.hexValue c = Some d -> 0 <= d <= 15.
Proof.
  unfold ColorUtils.hexValue.
  destruct (Z.leb_spec 48 (Z.of_N (N_of_ascii c)));
    destruct (Z.leb_spec (Z.of_N (N_of_ascii c)) 57);
    destruct (Z.leb_spec 97 (Z.of_N (N_of_ascii c)));
    destruct (Z.leb_spec (Z.of_N (N_of_ascii c)) 102);
    destruct (Z.leb_spec 65 (Z.of_N (N_of_ascii c)));
    destruct (Z.leb_spec (Z.of_N (N_of_ascii c)) 70);
    simpl; intros [= <-]; lia.
Qed.

Lemma isHexDigit_value (c : ascii) :
  ColorUtils.isHexDigit c = true -> exists d, ColorUtils.hexValue c = Some d.
Proof.
  unfold ColorUtils.isHexDigit.
  destruct (ColorUtils.hexValue c) as [d|]; [exists d; reflexivity | discriminate].
Qed.

Lemma exec_Some (hex g1 g2 g3 : string) :
  ColorUtils.exec hex = Some (g1, g2, g3) ->
  twoHexDigits g1 /\ twoHexDigits g2 /\ twoHexDigits g3 /\
  (String.length hex = 6 \/ String.length hex = 7)%nat.
Proof.
  unfold ColorUtils.exec.
  set (body := match hex with
               | String c rest => if (c =? "#")%char then rest else hex
               | EmptyString => hex
               end).
  assert (Hlen : String.length body = 6%nat ->
                 (String.length hex = 6 \/ String.length hex = 7)%nat).
  { unfold body. destruct hex as [|c rest]; [left; assumption|].
    destruct (c =? "#")%char; simpl; intros Hl; [right | left]; lia. }
  destruct body as [|c1 [|c2 [|c3 [|c4 [|c5 [|c6 [|c7 rest]]]]]]]; try discriminate.
  simpl forallb.
  destruct (ColorUtils.isHexDigit c1) eqn:H1; [|discriminate].
  destruct (ColorUtils.isHexDigit c2) eqn:H2; [|discriminate].
  destruct (ColorUtils.isHexDigit c3) eqn:H3; [|discriminate].
  destruct (ColorUtils.isHexDigit c4) eqn:H4; [|discriminate].
  destruct (ColorUtils.isHexDigit c5) eqn:H5; [|discriminate].
  destruct (ColorUtils.isHexDigit c6) eqn:H6; [|discriminate].
  simpl. intros [= <- <- <-].
  apply isHexDigit_value in H1 as [d1 H1], H2 as [d2 H2], H3 as [d3 H3],
    H4 as [d4 H4], H5 as [d5 H5], H6 as [d6 H6].
  split; [exists c1, c2, d1, d2; auto|].
  split; [exists c3, c4, d3, d4; auto|].
  split; [exists c5, c6, d5, d6; auto|].
  apply Hlen. reflexivity.
Qed.

Lemma parseInt16_channel (group : string) :
  twoHexDigits group -> channel (ColorUtils.parseInt16 group).
Proof.
  intros (c1 & c2 & d1 & d2 & -> & H1 & H2).
  unfold ColorUtils.parseInt16, channel. simpl. rewrite H1, H2.
  apply hexValue_range in H1, H2. lia.
Qed.

(** X28.  Whatever string it is given, [hexToRgb] returns three channels
    from 0 to 255, and the brightness computed from them lies between 0 and
    255. *)
Theorem hexToRgb_channels_in_range (hex : string) :
  let rgb := ColorUtils.hexToRgb hex in
  channel (ColorUtils.r rgb) /\ channel (ColorUtils.g rgb) /\
  channel (ColorUtils.b rgb) /\
  QArith_base.Qle (QArith_base.Qmake 0 1) (ColorUtils.calculateBrightness rgb) /\
  QArith_base.Qle (ColorUtils.calculateBrightness rgb) (QArith_base.Qmake 255 1).
Proof.
  intros rgb.
  assert (Hch : channel (ColorUtils.r rgb) /\ channel (ColorUtils.g rgb) /\
                channel (ColorUtils.b rgb)).
  { unfold rgb, ColorUtils.hexToRgb.
    destruct (ColorUtils.exec hex) as [[[g1 g2] g3]|] eqn:Hexec; simpl.
    - destruct (exec_Some hex g1 g2 g3 Hexec) as (H1 & H2 & H3 & _).
      repeat split; apply parseInt16_channel; assumption.
    - unfold channel. lia. }
  destruct Hch as (Hr & Hg & Hb). unfold channel in *.
  repeat split; try lia;
    unfold QArith_base.Qle, ColorUtils.calculateBrightness; simpl; lia.
Qed.

(** X29.  The [#] is optional: a string that does not begin with [#] gives
    the same colour with one put in front. *)
Theorem hexToRgb_hash_optional (hex : string) :
  (forall rest, hex <> String "#" rest) ->
  ColorUtils.hexToRgb (String "#" hex) = ColorUtils.hexToRgb hex.
Proof.
  intros Hno. unfold ColorUtils.hexToRgb, ColorUtils.exec.
  rewrite Ascii.eqb_refl.
  destruct hex as [|c rest]; [reflexivity|].
  destruct (Ascii.eqb_spec c "#") as [->|Hne]; [|reflexivity].
  exfalso. exact (Hno rest eq_refl).
Qed.

Lemma hexToRgb_hash_optional_witness :
  ColorUtils.hexToRgb "#1e90FF" = ColorUtils.mkRGB 30 144 255.
Proof.
  rewrite (hexToRgb_hash_optional "1e90FF"); [|discriminate].
  vm_compute. reflexivity.
Defined.

(** X30.  Only six hex digits count as a colour: a string shorter than six
    characters or longer than seven, the three-digit shorthand among them, is
    taken for white and gets black text, dark as the colour it names may be. *)
Theorem getContrastColor_needs_six_digits (bgColor : string) :
  (String.length bgColor < 6 \/ 7 < String.length bgColor)%nat ->
  ColorUtils.hexToRgb bgColor = ColorUtils.mkRGB 255 255 255 /\
  ColorUtils.getContrastColor bgColor = "#000000".
Proof.
  intros Hlen.
  assert (Hrgb : ColorUtils.hexToRgb bgColor = ColorUtils.mkRGB 255 255 255).
  { unfold ColorUtils.hexToRgb.
    destruct (ColorUtils.exec bgColor) as [[[g1 g2] g3]|] eqn:Hexec; [|reflexivity].
    destruct (exec_Some bgColor g1 g2 g3 Hexec) as (_ & _ & _ & Hl). lia. }
  split; [exact Hrgb|].
  unfold ColorUtils.getContrastColor. rewrite Hrgb. reflexivity.
Qed.

Lemma getContrastColor_needs_six_digits_witness :
  ColorUtils.getContrastColor "#000" = "#000000".
Proof.
  apply (getContrastColor_needs_six_digits "#000"). left. simpl. lia.
Defined.
